(** * N-BEATS: the M4 summary (summary/m4.py) and the M4 dataset accessor
    (datasets/m4.py), as a shallow embedding.

    Python values are modelled as follows.
    - numpy scalars: a type [F] with the arithmetic of class [NumPy]; the
      instance [float_numpy] is IEEE binary64 (np.float64).
    - plain dicts that are only read by key ([scores], [model_mases], ...):
      [gmap string F]; dicts whose order is observed ([OrderedDict],
      [weighted_score.values()], the dict built by [round_all]): association
      lists in insertion order.
    - exceptions: the [result] monad; file-system effects: the [IO] monad over
      a [World] that keeps the files, the directories and a log of the
      effects performed. *)

From Stdlib Require Import ZArith List String Floats.
From stdpp Require Import gmap strings list fin_maps.

Set Warnings "-inexact-float".

Open Scope Z_scope.
Open Scope string_scope.

(** ** Exceptions *)

Inductive exn : Type :=
  | KeyError (key : string)
  | IndexError
  | FileNotFoundError (path : string)
  | AttributeError
  | UnpicklingError
  | ExternalError (what : string).

Inductive result (A : Type) : Type :=
  | Ok (a : A)
  | Raise (e : exn).
Arguments Ok {A} a.
Arguments Raise {A} e.

#[export] Instance result_ret : MRet result := fun _ a => Ok a.
#[export] Instance result_bind : MBind result := fun _ _ f r =>
  match r with Ok a => f a | Raise e => Raise e end.

(** ** numpy scalars *)

Class NumPy (F : Type) : Type := {
  (** a Python int promoted to the scalar type of the other operand *)
  of_int : Z -> F;
  add : F -> F -> F;
  mul : F -> F -> F;
  (** numpy true division: a zero divisor gives inf or nan (and a warning),
      never an exception *)
  div : F -> F -> F;
  isnan : F -> bool;
  (** np.sum over the listed values, in list order *)
  np_sum : list F -> F;
  (** np.round(x, 3) *)
  round3 : F -> F;
  (** astype(np.float32) *)
  astype_float32 : F -> F
}.

Module Binary64.

Definition of_Z (z : Z) : float :=
  SF2Prim (binary_normalize prec emax z 0 false).

(** Round to nearest integer, ties to even (np.rint). *)
Definition rint (x : float) : float :=
  if PrimFloat.ltb (PrimFloat.abs x) 0x1p52%float then
    if PrimFloat.ltb x 0%float
    then PrimFloat.opp ((PrimFloat.opp x + 0x1p52) - 0x1p52)%float
    else if PrimFloat.eqb x 0%float then x
    else ((x + 0x1p52) - 0x1p52)%float
  else x.

(** numpy's around: scale by 10**decimals, rint, unscale. *)
Definition round3 (x : float) : float :=
  (rint (x * 1000) / 1000)%float.

Definition to_float32 (x : float) : float :=
  match Prim2SF x with
  | S754_finite s m e => SF2Prim (binary_round 24 128 s m e)
  | _ => x
  end.

Definition sum (l : list float) : float :=
  fold_left PrimFloat.add l 0%float.

End Binary64.

#[export] Instance float_numpy : NumPy float := {
  of_int := Binary64.of_Z;
  add := PrimFloat.add;
  mul := PrimFloat.mul;
  div := PrimFloat.div;
  isnan := PrimFloat.is_nan;
  np_sum := Binary64.sum;
  round3 := Binary64.round3;
  astype_float32 := Binary64.to_float32
}.

(** ** Ordered dicts *)

Section Dict.
Context {V : Type}.

(** [d[k] = v]: an existing key keeps its position, a new key goes last. *)
Fixpoint setitem (d : list (string * V)) (k : string) (v : V) : list (string * V) :=
  match d with
  | [] => [(k, v)]
  | (k', v') :: d' =>
      if decide (k' = k) then (k', v) :: d' else (k', v') :: setitem d' k v
  end.

(** [d[k]] on an ordered dict. *)
Fixpoint getitem (d : list (string * V)) (k : string) : result V :=
  match d with
  | [] => Raise (KeyError k)
  | (k', v) :: d' => if decide (k' = k) then Ok v else getitem d' k
  end.

Definition keys (d : list (string * V)) : list string := map fst d.
Definition dict_values (d : list (string * V)) : list V := map snd d.

(** [d[k]] on a plain dict. *)
Definition lookup_key (d : gmap string V) (k : string) : result V :=
  match d !! k with
  | Some v => Ok v
  | None => Raise (KeyError k)
  end.

End Dict.

(** ** datasets/m4.py: the dataset record *)

Record M4Dataset (F : Type) : Type := mkM4Dataset {
  ids : list string;
  groups : list string;
  frequencies : list Z;
  horizons : list Z;
  values : list (list F)
}.
Arguments mkM4Dataset {F}.
Arguments ids {F}.
Arguments groups {F}.
Arguments frequencies {F}.
Arguments horizons {F}.
Arguments values {F}.

(** ** The file system and the [IO] monad *)

(** One row of M4Info.csv, with the columns the code reads. *)
Record InfoRow : Type := mkInfoRow {
  M4id : string;
  SP : string;
  Frequency : Z;
  Horizon : Z
}.

Inductive file (F : Type) : Type :=
  (** M4Info.csv *)
  | InfoCsv (m4_info : list InfoRow)
  (** a csv whose first column is the series id and whose other columns are
      values, NaN where a row is shorter than the widest one *)
  | SeriesCsv (rows : list (string * list F))
  (** an array written by [ndarray.dump] *)
  | Pickle (a : list (list F))
  (** anything else (archives) *)
  | Blob.
Arguments InfoCsv {F} m4_info.
Arguments SeriesCsv {F} rows.
Arguments Pickle {F} a.
Arguments Blob {F}.

Inductive event : Type :=
  | EvIsDir (path : string)
  | EvLogInfo (msg : string)
  | EvRead (path : string)
  | EvDump (path : string)
  | EvGlob (pattern : string)
  | EvDownload (url path : string)
  | EvExtract (archive outdir : string).

Record World (F : Type) : Type := mkWorld {
  files : gmap string (file F);
  dirs : gset string;
  log : list event
}.
Arguments mkWorld {F}.
Arguments files {F}.
Arguments dirs {F}.
Arguments log {F}.

Definition IO (F A : Type) : Type := World F -> result A * World F.

#[export] Instance io_ret {F} : MRet (IO F) := fun _ a w => (Ok a, w).
#[export] Instance io_bind {F} : MBind (IO F) := fun _ _ f m w =>
  match m w with
  | (Ok a, w') => f a w'
  | (Raise e, w') => (Raise e, w')
  end.

Section Effects.
Context {F : Type}.

Definition lift {A : Type} (r : result A) : IO F A := fun w => (r, w).

(** The world after one more effect has been recorded. *)
Definition logged (e : event) (w : World F) : World F :=
  mkWorld (files w) (dirs w) (log w ++ [e]).

Definition emit (e : event) : IO F unit := fun w => (Ok tt, logged e w).

(** [os.path.isdir] *)
Definition isdir (path : string) : IO F bool :=
  fun w => (Ok (bool_decide (path ∈ dirs w)), logged (EvIsDir path) w).

(** [logging.info] *)
Definition logging_info (msg : string) : IO F unit := emit (EvLogInfo msg).

(** Opening a file for reading, as [pd.read_csv] and [np.load] do. *)
Definition open_read (path : string) : IO F (file F) :=
  fun w =>
    let w' := logged (EvRead path) w in
    match files w !! path with
    | Some f => (Ok f, w')
    | None => (Raise (FileNotFoundError path), w')
    end.

(** [np.load(path, allow_pickle=True)] *)
Definition np_load (path : string) : IO F (list (list F)) :=
  f ← open_read path;
  match f with
  | Pickle a => mret a
  | _ => lift (Raise UnpicklingError)
  end.

(** [a.dump(path)] *)
Definition dump (a : list (list F)) (path : string) : IO F unit :=
  fun w => (Ok tt, mkWorld (<[path := Pickle a]> (files w)) (dirs w)
                           (log w ++ [EvDump path])).

(** The columns of the reference table: [m4_info.M4id] and the like fail on a
    table without them. *)
Definition info_columns (f : file F) : result (list InfoRow) :=
  match f with
  | InfoCsv m4_info => Ok m4_info
  | _ => Raise AttributeError
  end.

(** The rows of a csv of series: index column and values. *)
Definition series_rows (f : file F) : result (list (string * list F)) :=
  match f with
  | SeriesCsv rows => Ok rows
  | _ => Raise AttributeError
  end.

Fixpoint io_for_each {A St : Type} (body : St -> A -> IO F St) (l : list A) (s : St)
    : IO F St :=
  match l with
  | [] => mret s
  | a :: l' => s' ← body s a; io_for_each body l' s'
  end.

End Effects.

(** ** datasets/m4.py *)

(** [v[~np.isnan(v)]]: the entries of [v] that are not NaN, in order. *)
Definition strip_nan {F : Type} `{NumPy F} (v : list F) : list F :=
  List.filter (fun x => negb (isnan x)) v.

(** [os.path.join] of a directory and a relative name. *)
Definition path_join (a b : string) : string := a ++ "/" ++ b.

Definition TRAINING_DATASET_URL : string :=
  "https://www.m4.unic.ac.cy/wp-content/uploads/2017/12/M4DataSet.zip".
Definition TEST_DATASET_URL : string :=
  "https://www.m4.unic.ac.cy/wp-content/uploads/2018/07/M-test-set.zip".
Definition INFO_URL : string :=
  "https://www.m4.unic.ac.cy/wp-content/uploads/2018/12/M4Info.csv".
Definition NAIVE2_FORECAST_URL : string :=
  "https://github.com/M4Competition/M4-methods/raw/master/Point%20Forecasts/submission-Naive2.rar".

Section Dataset.
Context {F : Type} `{NumPy F}.

(** common/settings.py and common/http_utils.py are not among the sources;
    what they define is taken as given, like the archive tool and [glob]. *)
Variable DATASETS_PATH : string.
Variable url_file_name : string -> string.
(** [common.http_utils.download(url, file_path)] *)
Variable http_download : string -> string -> IO F unit.
(** [patoolib.extract_archive(archive, outdir=...)] *)
Variable extract_archive : string -> string -> IO F unit.
(** [glob(pattern)] *)
Variable glob : string -> IO F (list string).

Definition DATASET_PATH : string := path_join DATASETS_PATH "m4".

Definition TRAINING_DATASET_FILE_PATH : string :=
  path_join DATASET_PATH (url_file_name TRAINING_DATASET_URL).
Definition TEST_DATASET_FILE_PATH : string :=
  path_join DATASET_PATH (url_file_name TEST_DATASET_URL).
Definition INFO_FILE_PATH : string :=
  path_join DATASET_PATH (url_file_name INFO_URL).
Definition NAIVE2_FORECAST_FILE_PATH : string :=
  path_join DATASET_PATH "submission-Naive2.csv".

Definition TRAINING_DATASET_CACHE_FILE_PATH : string :=
  path_join DATASET_PATH "training.npz".
Definition TEST_DATASET_CACHE_FILE_PATH : string :=
  path_join DATASET_PATH "test.npz".

(** [M4Dataset.load] *)
Definition load (training : bool) : IO F (M4Dataset F) :=
  f ← open_read INFO_FILE_PATH;
  m4_info ← lift (info_columns f);
  values ← np_load (if training then TRAINING_DATASET_CACHE_FILE_PATH
                    else TEST_DATASET_CACHE_FILE_PATH);
  mret (mkM4Dataset (map M4id m4_info) (map SP m4_info)
                    (map Frequency m4_info) (map Horizon m4_info) values).

(** The rows of one csv, written over the entries of [timeseries_dict]
    (lines 77-79). *)
Definition cache_rows (timeseries_dict : list (string * list F))
    (rows : list (string * list F)) : list (string * list F) :=
  fold_left (fun d '(m4id, row) => setitem d m4id (strip_nan row)) rows timeseries_dict.

(** [build_cache], the function local to [download]; [m4_ids] is the
    variable of [download] it closes over. *)
Definition build_cache (m4_ids : list string) (files cache_path : string) : IO F unit :=
  let timeseries_dict := fold_left (fun d m4id => setitem d m4id []) m4_ids [] in
  _ ← logging_info ("Caching " ++ files);
  paths ← glob (path_join DATASET_PATH files);
  timeseries_dict ←
    io_for_each (fun d train_csv =>
                   dataset ← open_read train_csv;
                   rows ← lift (series_rows dataset);
                   mret (cache_rows d rows))
                paths timeseries_dict;
  dump (dict_values timeseries_dict) cache_path.

(** [M4Dataset.download] *)
Definition download : IO F unit :=
  present ← isdir DATASET_PATH;
  if (present : bool) then
    logging_info ("skip: " ++ DATASET_PATH ++ " directory already exists.")
  else
    _ ← http_download INFO_URL INFO_FILE_PATH;
    f ← open_read INFO_FILE_PATH;
    m4_info ← lift (info_columns f);
    let m4_ids := map M4id m4_info in
    _ ← http_download TRAINING_DATASET_URL TRAINING_DATASET_FILE_PATH;
    _ ← extract_archive TRAINING_DATASET_FILE_PATH DATASET_PATH;
    _ ← build_cache m4_ids "*-train.csv" TRAINING_DATASET_CACHE_FILE_PATH;
    _ ← http_download TEST_DATASET_URL TEST_DATASET_FILE_PATH;
    _ ← extract_archive TEST_DATASET_FILE_PATH DATASET_PATH;
    _ ← build_cache m4_ids "*-test.csv" TEST_DATASET_CACHE_FILE_PATH;
    let naive2_archive := path_join DATASET_PATH (url_file_name NAIVE2_FORECAST_URL) in
    _ ← http_download NAIVE2_FORECAST_URL naive2_archive;
    extract_archive naive2_archive DATASET_PATH.

(** [load_m4_info] *)
Definition load_m4_info : IO F (file F) := open_read INFO_FILE_PATH.

End Dataset.

Module M4Meta.

Definition seasonal_patterns : list string :=
  ["Yearly"; "Quarterly"; "Monthly"; "Weekly"; "Daily"; "Hourly"].
Definition horizons : list Z := [6; 8; 18; 13; 14; 48].
Definition frequencies : list Z := [1; 4; 12; 1; 1; 24].
Definition horizons_map : gmap string Z :=
  list_to_map [("Yearly", 6); ("Quarterly", 8); ("Monthly", 18); ("Weekly", 13);
               ("Daily", 14); ("Hourly", 48)].
Definition frequency_map : gmap string Z :=
  list_to_map [("Yearly", 1); ("Quarterly", 4); ("Monthly", 12); ("Weekly", 1);
               ("Daily", 1); ("Hourly", 24)].

End M4Meta.

(** ** summary/m4.py *)

Record M4Summary (F : Type) : Type := mkM4Summary {
  training_set : M4Dataset F;
  test_set : M4Dataset F
}.
Arguments mkM4Summary {F}.
Arguments training_set {F}.
Arguments test_set {F}.

(** [groups == group_name] *)
Definition eq_mask (groups : list string) (group_name : string) : list bool :=
  map (fun g => bool_decide (g = group_name)) groups.

(** [np.where(mask)[0]]: the positions that hold True. *)
Fixpoint np_where_from (i : nat) (mask : list bool) : list nat :=
  match mask with
  | [] => []
  | b :: mask' => if b then i :: np_where_from (S i) mask' else np_where_from (S i) mask'
  end.
Definition np_where (mask : list bool) : list nat := np_where_from 0 mask.

(** [a[mask]] for a boolean mask: the mask must be as long as [a]. *)
Definition mask_select {A : Type} (a : list A) (mask : list bool) : result (list A) :=
  if decide (length a = length mask)
  then Ok (map fst (List.filter snd (zip a mask)))
  else Raise IndexError.

(** [a[i]] *)
Definition item {A : Type} (a : list A) (i : nat) : result A :=
  match a !! i with
  | Some x => Ok x
  | None => Raise IndexError
  end.

Fixpoint insert_unique (x : string) (l : list string) : list string :=
  match l with
  | [] => [x]
  | y :: l' =>
      if decide (x = y) then l
      else if String.ltb x y then x :: l
      else y :: insert_unique x l'
  end.

(** [np.unique]: the distinct labels, sorted. *)
Definition np_unique (l : list string) : list string :=
  fold_right insert_unique [] l.

(** Modelled from the spec: summary/utils.py is not among the sources.
    Section 4.2 gives [group(values, categories, target_category)] as "a
    stable filter preserving original relative order, selecting exactly the
    entries whose category label equals target_category"; rows are paired
    with labels by position. *)
Definition group_values {A : Type} (values : list A) (groups : list string)
    (group_name : string) : list A :=
  map fst (List.filter (fun p => bool_decide (snd p = group_name)) (zip values groups)).

Definition major_groups : list string := ["Yearly"; "Quarterly"; "Monthly"].
Definition minor_groups : list string := ["Weekly"; "Daily"; "Hourly"].

Fixpoint for_each {A St : Type} (body : St -> A -> result St) (l : list A) (s : St)
    : result St :=
  match l with
  | [] => mret s
  | a :: l' => s' ← body s a; for_each body l' s'
  end.

Section Summary.
Context {F : Type} `{NumPy F}.

(** common/settings.py, common/http_utils.py and common/metrics.py are not
    among the sources; the path constant, [url_file_name] and the two
    metrics are taken as given. *)
Variable DATASETS_PATH : string.
Variable url_file_name : string -> string.
(** [smape_2(forecast, target)]: pointwise over the series of a group. *)
Variable smape_2 : list (list F) -> list (list F) -> list (list F).
(** [mase(forecast, insample, outsample, frequency)] *)
Variable mase : list F -> list F -> list F -> Z -> F.

(** [np.mean] of a vector, and of a matrix (over all its entries). *)
Definition np_mean (a : list F) : F :=
  div (np_sum a) (of_int (Z.of_nat (length a))).
Definition np_mean2 (a : list (list F)) : F := np_mean (concat a).

(** [M4Summary.__init__] *)
Definition init : IO F (M4Summary F) :=
  training ← load DATASETS_PATH url_file_name true;
  test ← load DATASETS_PATH url_file_name false;
  mret (mkM4Summary training test).

Section Methods.
Variable self : M4Summary F.

Definition group_count (group_name : string) : Z :=
  Z.of_nat (length (np_where (eq_mask (groups (test_set self)) group_name))).

(** One turn of the loop over the major groups (lines 87-89). *)
Definition major_step (scores : gmap string F)
    (st : list (string * F) * list (string * F)) (g : string)
    : result (list (string * F) * list (string * F)) :=
  let '(weighted_score, scores_summary) := st in
  s ← lookup_key scores g;
  mret (setitem weighted_score g (mul s (of_int (group_count g))),
        setitem scores_summary g s).

(** One turn of the loop over the minor groups (lines 93-95). *)
Definition minor_step (scores : gmap string F) (st : F * Z) (g : string)
    : result (F * Z) :=
  let '(others_score, others_count) := st in
  s ← lookup_key scores g;
  mret (add others_score (mul s (of_int (group_count g))),
        others_count + group_count g).

Definition summarize_groups (scores : gmap string F) : result (list (string * F)) :=
  '(weighted_score, scores_summary) ← for_each (major_step scores) major_groups ([], []);
  '(others_score, others_count) ← for_each (minor_step scores) minor_groups (of_int 0, 0);
  let weighted_score := setitem weighted_score "Others" others_score in
  let scores_summary :=
    setitem scores_summary "Others" (div others_score (of_int others_count)) in
  let average :=
    div (np_sum (dict_values weighted_score))
        (of_int (Z.of_nat (length (groups (test_set self))))) in
  mret (setitem scores_summary "Average" average).

(** The dict comprehension of lines 28-35. *)
Definition smape_scores (forecast : list (list F)) : gmap string F :=
  fold_left
    (fun d group_name =>
       <[group_name :=
           np_mean2 (smape_2 (group_values forecast (groups (test_set self)) group_name)
                             (group_values (values (test_set self))
                                           (groups (test_set self)) group_name))]> d)
    (np_unique (groups (test_set self))) ∅.

(** [[mase(forecast[i], insample[i], target[i], frequency) for i in range(n)]] *)
Definition mase_scores (forecast insample target : list (list F)) (frequency : Z)
    (n : nat) : result (list F) :=
  mapM (fun i =>
          f ← item forecast i;
          ins ← item insample i;
          out ← item target i;
          mret (mase f ins out frequency))
       (seq 0 n).

(** One turn of the loop of lines 46-64; the state is
    [(model_mases, naive2_smapes, naive2_mases)]. *)
Definition group_step (forecast naive2_forecasts : list (list F))
    (st : gmap string F * gmap string F * gmap string F) (group_name : string)
    : result (gmap string F * gmap string F * gmap string F) :=
  let '(model_mases, naive2_smapes, naive2_mases) := st in
  let model_forecast := group_values forecast (groups (test_set self)) group_name in
  let naive2_forecast := group_values naive2_forecasts (groups (test_set self)) group_name in
  let target := group_values (values (test_set self)) (groups (test_set self)) group_name in
  of_group ← mask_select (frequencies (training_set self))
                         (eq_mask (groups (test_set self)) group_name);
  frequency ← item of_group 0;
  let insample :=
    group_values (values (training_set self)) (groups (test_set self)) group_name in
  model ← mase_scores model_forecast insample target frequency (length model_forecast);
  naive2 ← mase_scores naive2_forecast insample target frequency (length model_forecast);
  mret (<[group_name := np_mean model]> model_mases,
        <[group_name := np_mean2 (smape_2 naive2_forecast target)]> naive2_smapes,
        <[group_name := np_mean naive2]> naive2_mases).

(** The combined score of one bucket (lines 69-70). *)
Definition owa (model_mase naive2_mase model_smape naive2_smape : F) : F :=
  div (add (div model_mase naive2_mase) (div model_smape naive2_smape)) (of_int 2).

Definition owa_step (grouped_model_mases grouped_naive2_mases grouped_smapes
                     grouped_naive2_smapes : list (string * F))
    (grouped_owa : list (string * F)) (k : string) : result (list (string * F)) :=
  mm ← getitem grouped_model_mases k;
  nm ← getitem grouped_naive2_mases k;
  ms ← getitem grouped_smapes k;
  ns ← getitem grouped_naive2_smapes k;
  mret (setitem grouped_owa k (owa mm nm ms ns)).

(** [round_all], the function local to [evaluate]. *)
Definition round_all (d : list (string * F)) : list (string * F) :=
  fold_left (fun acc kv => setitem acc (fst kv) (round3 (snd kv))) d [].

(** The naive2 table as read at lines 40-41: the id column dropped, the
    values cast to float32, the NaN entries of each row removed. *)
Definition naive2_rows (rows : list (string * list F)) : list (list F) :=
  map strip_nan (map (fun r => map astype_float32 (snd r)) rows).

Definition NAIVE2_PATH : string := NAIVE2_FORECAST_FILE_PATH DATASETS_PATH.

(** [M4Summary.evaluate] *)
Definition evaluate (forecast : list (list F))
    : IO F (list (string * F) * list (string * F)) :=
  let forecast := map strip_nan forecast in
  grouped_smapes ← lift (summarize_groups (smape_scores forecast));
  table ← open_read NAIVE2_PATH;
  rows ← lift (series_rows table);
  let naive2_forecasts := naive2_rows rows in
  '(model_mases, naive2_smapes, naive2_mases) ←
    lift (for_each (group_step forecast naive2_forecasts)
                   (np_unique (groups (test_set self))) (∅, ∅, ∅));
  grouped_model_mases ← lift (summarize_groups model_mases);
  grouped_naive2_smapes ← lift (summarize_groups naive2_smapes);
  grouped_naive2_mases ← lift (summarize_groups naive2_mases);
  grouped_owa ←
    lift (for_each (owa_step grouped_model_mases grouped_naive2_mases
                             grouped_smapes grouped_naive2_smapes)
                   (keys grouped_model_mases) []);
  mret (round_all grouped_smapes, round_all grouped_owa).

End Methods.
End Summary.

(** ** summary/m4.py over a store of objects

    The same methods once more, with the objects they work on kept in a
    store: the session, its two datasets and their arrays, the forecast array
    and every dict are reached through a location; an array or a dataset is
    read at its location, [d[k] = v] updates the dict at its location in
    place. A numpy expression makes a new array; the ones that the code binds
    to a name are put in the store, the ones it uses once are values. *)

Abbreviation loc := nat.

Inductive object (F : Type) : Type :=
  (** arrays of labels or identifiers, of integers, of sequences *)
  | StrArray (a : list string)
  | IntArray (a : list Z)
  | SeqArray (a : list (list F))
  (** a dict that is only looked up by key *)
  | PlainDict (d : gmap string F)
  (** a dict whose keys, values or items are listed: in insertion order *)
  | OrderedDict (d : list (string * F))
  (** an [M4Dataset] and an [M4Summary], by the locations of their attributes *)
  | DatasetObject (ids groups frequencies horizons values : loc)
  | SummaryObject (training_set test_set : loc).
Arguments StrArray {F} a.
Arguments IntArray {F} a.
Arguments SeqArray {F} a.
Arguments PlainDict {F} d.
Arguments OrderedDict {F} d.
Arguments DatasetObject {F} ids groups frequencies horizons values.
Arguments SummaryObject {F} training_set test_set.

Abbreviation Store F := (list (object F)).

Definition Run (F A : Type) : Type := Store F -> World F -> result A * Store F * World F.

#[export] Instance run_ret {F} : MRet (Run F) := fun _ a h w => (Ok a, h, w).
#[export] Instance run_bind {F} : MBind (Run F) := fun _ _ f m h w =>
  match m h w with
  | (Ok a, h', w') => f a h' w'
  | (Raise e, h', w') => (Raise e, h', w')
  end.

Section StoreEffects.
Context {F : Type}.

Definition run_lift {A : Type} (r : result A) : Run F A := fun h w => (r, h, w).

(** An action on the file system: the store is as it was. *)
Definition io {A : Type} (m : IO F A) : Run F A :=
  fun h w => match m w with (r, w') => (r, h, w') end.

(** A new object, at a location that held none. *)
Definition new (o : object F) : Run F loc :=
  fun h w => (Ok (length h), (h ++ [o])%list, w).

Definition get (l : loc) : Run F (object F) :=
  fun h w =>
    match h !! l with
    | Some o => (Ok o, h, w)
    | None => (Raise AttributeError, h, w)
    end.

(** The object at [l] replaced, in place. *)
Definition put (l : loc) (o : object F) : Run F unit :=
  fun h w => (Ok tt, <[l := o]> h, w).

(** Reading an array. *)
Definition str_array (l : loc) : Run F (list string) :=
  o ← get l;
  match o with StrArray a => mret a | _ => run_lift (Raise AttributeError) end.
Definition int_array (l : loc) : Run F (list Z) :=
  o ← get l;
  match o with IntArray a => mret a | _ => run_lift (Raise AttributeError) end.
Definition seq_array (l : loc) : Run F (list (list F)) :=
  o ← get l;
  match o with SeqArray a => mret a | _ => run_lift (Raise AttributeError) end.

(** Reading an attribute. *)
Definition attr_training_set (self : loc) : Run F loc :=
  o ← get self;
  match o with SummaryObject tr _ => mret tr | _ => run_lift (Raise AttributeError) end.
Definition attr_test_set (self : loc) : Run F loc :=
  o ← get self;
  match o with SummaryObject _ te => mret te | _ => run_lift (Raise AttributeError) end.
Definition attr_groups (d : loc) : Run F loc :=
  o ← get d;
  match o with
  | DatasetObject _ g _ _ _ => mret g
  | _ => run_lift (Raise AttributeError)
  end.
Definition attr_frequencies (d : loc) : Run F loc :=
  o ← get d;
  match o with
  | DatasetObject _ _ f _ _ => mret f
  | _ => run_lift (Raise AttributeError)
  end.
Definition attr_values (d : loc) : Run F loc :=
  o ← get d;
  match o with
  | DatasetObject _ _ _ _ v => mret v
  | _ => run_lift (Raise AttributeError)
  end.

(** [d[k]] *)
Definition dict_getitem (d : loc) (k : string) : Run F F :=
  o ← get d;
  match o with
  | PlainDict m => run_lift (lookup_key m k)
  | OrderedDict m => run_lift (getitem m k)
  | _ => run_lift (Raise AttributeError)
  end.

(** [d[k] = v] *)
Definition dict_setitem (d : loc) (k : string) (v : F) : Run F unit :=
  o ← get d;
  match o with
  | PlainDict m => put d (PlainDict (<[k := v]> m))
  | OrderedDict m => put d (OrderedDict (setitem m k v))
  | _ => run_lift (Raise AttributeError)
  end.

(** [d.items()], and from it [d.keys()] and [d.values()] *)
Definition dict_items (d : loc) : Run F (list (string * F)) :=
  o ← get d;
  match o with OrderedDict m => mret m | _ => run_lift (Raise AttributeError) end.

Fixpoint run_for_each {A St : Type} (body : St -> A -> Run F St) (l : list A) (s : St)
    : Run F St :=
  match l with
  | [] => mret s
  | a :: l' => s' ← body s a; run_for_each body l' s'
  end.

End StoreEffects.

Module Objects.
Section Methods.
Context {F : Type} `{NumPy F}.
Variable DATASETS_PATH : string.
Variable url_file_name : string -> string.
Variable smape_2 : list (list F) -> list (list F) -> list (list F).
Variable mase : list F -> list F -> list F -> Z -> F.

(** [M4Dataset.load]: the columns of the table and the cache become arrays,
    the dataset an object that holds their locations. *)
Definition load (training : bool) : Run F loc :=
  f ← io (open_read (INFO_FILE_PATH DATASETS_PATH url_file_name));
  m4_info ← run_lift (info_columns f);
  ids ← new (StrArray (map M4id m4_info));
  groups ← new (StrArray (map SP m4_info));
  frequencies ← new (IntArray (map Frequency m4_info));
  horizons ← new (IntArray (map Horizon m4_info));
  a ← io (np_load (if training then TRAINING_DATASET_CACHE_FILE_PATH DATASETS_PATH
                   else TEST_DATASET_CACHE_FILE_PATH DATASETS_PATH));
  values ← new (SeqArray a);
  new (DatasetObject ids groups frequencies horizons values).

(** [M4Summary.__init__] *)
Definition init : Run F loc :=
  training ← load true;
  test ← load false;
  new (SummaryObject training test).

Variable self : loc.

(** [self.test_set.groups] and the other three attributes that are read,
    each read where the code names it. *)
Definition test_set_groups : Run F (list string) :=
  test ← attr_test_set self; a ← attr_groups test; str_array a.
Definition test_set_values : Run F (list (list F)) :=
  test ← attr_test_set self; a ← attr_values test; seq_array a.
Definition training_set_frequencies : Run F (list Z) :=
  training ← attr_training_set self; a ← attr_frequencies training; int_array a.
Definition training_set_values : Run F (list (list F)) :=
  training ← attr_training_set self; a ← attr_values training; seq_array a.

Definition group_count (group_name : string) : Run F Z :=
  labels ← test_set_groups;
  mret (Z.of_nat (length (np_where (eq_mask labels group_name)))).

(** One turn of the loop over the major groups (lines 87-89). *)
Definition major_step (scores weighted_score scores_summary : loc) (g : string)
    : Run F unit :=
  s ← dict_getitem scores g;
  n ← group_count g;
  _ ← dict_setitem weighted_score g (mul s (of_int n));
  s ← dict_getitem scores g;
  dict_setitem scores_summary g s.

(** One turn of the loop over the minor groups (lines 93-95); the two
    numbers are rebound, not updated. *)
Definition minor_step (scores : loc) (st : F * Z) (g : string) : Run F (F * Z) :=
  let '(others_score, others_count) := st in
  s ← dict_getitem scores g;
  n ← group_count g;
  n' ← group_count g;
  mret (add others_score (mul s (of_int n)), others_count + n').

(** [M4Summary.summarize_groups]; [scores] is the location of the dict it is
    given, the result that of the dict it has made. *)
Definition summarize_groups (scores : loc) : Run F loc :=
  scores_summary ← new (OrderedDict []);
  weighted_score ← new (OrderedDict []);
  _ ← run_for_each (fun _ g => major_step scores weighted_score scores_summary g)
                   major_groups tt;
  '(others_score, others_count) ←
    run_for_each (minor_step scores) minor_groups (of_int 0, 0);
  _ ← dict_setitem weighted_score "Others" others_score;
  _ ← dict_setitem scores_summary "Others" (div others_score (of_int others_count));
  weighted ← dict_items weighted_score;
  labels ← test_set_groups;
  let average :=
    div (np_sum (dict_values weighted)) (of_int (Z.of_nat (length labels))) in
  _ ← dict_setitem scores_summary "Average" average;
  mret scores_summary.

(** [round_all], the function local to [evaluate]: a new dict made of the
    items of [d]. *)
Definition round_all (d : loc) : Run F loc :=
  items ← dict_items d;
  new (OrderedDict (round_all items)).

(** One turn of the loop of lines 46-64 on the three dicts it fills. *)
Definition group_step (forecast naive2_forecasts model_mases naive2_smapes naive2_mases : loc)
    (group_name : string) : Run F unit :=
  a ← seq_array forecast;
  labels ← test_set_groups;
  let model_forecast := group_values a labels group_name in
  a ← seq_array naive2_forecasts;
  labels ← test_set_groups;
  let naive2_forecast := group_values a labels group_name in
  a ← test_set_values;
  labels ← test_set_groups;
  let target := group_values a labels group_name in
  a ← training_set_frequencies;
  labels ← test_set_groups;
  of_group ← run_lift (mask_select a (eq_mask labels group_name));
  frequency ← run_lift (item of_group 0);
  a ← training_set_values;
  labels ← test_set_groups;
  let insample := group_values a labels group_name in
  model ← run_lift (mase_scores mase model_forecast insample target frequency
                                (length model_forecast));
  _ ← dict_setitem model_mases group_name (np_mean model);
  naive2 ← run_lift (mase_scores mase naive2_forecast insample target frequency
                                 (length model_forecast));
  _ ← dict_setitem naive2_mases group_name (np_mean naive2);
  dict_setitem naive2_smapes group_name (np_mean2 (smape_2 naive2_forecast target)).

(** One entry of the dict comprehension of lines 28-35. *)
Definition smape_step (forecast grouped_smapes : loc) (group_name : string) : Run F unit :=
  a ← seq_array forecast;
  labels ← test_set_groups;
  let model_forecast := group_values a labels group_name in
  a ← test_set_values;
  labels ← test_set_groups;
  let target := group_values a labels group_name in
  dict_setitem grouped_smapes group_name (np_mean2 (smape_2 model_forecast target)).

(** One turn of the loop of lines 68-70. *)
Definition owa_step (grouped_model_mases grouped_naive2_mases grouped_smapes
                     grouped_naive2_smapes grouped_owa : loc) (k : string) : Run F unit :=
  mm ← dict_getitem grouped_model_mases k;
  nm ← dict_getitem grouped_naive2_mases k;
  ms ← dict_getitem grouped_smapes k;
  ns ← dict_getitem grouped_naive2_smapes k;
  dict_setitem grouped_owa k (owa mm nm ms ns).

(** [M4Summary.evaluate]; [forecast] is the location of the caller's array,
    the result the locations of the two dicts returned. *)
Definition evaluate (forecast : loc) : Run F (loc * loc) :=
  a ← seq_array forecast;
  forecast ← new (SeqArray (map strip_nan a));
  labels ← test_set_groups;
  grouped_smapes ← new (PlainDict ∅);
  _ ← run_for_each (fun _ group_name => smape_step forecast grouped_smapes group_name)
                   (np_unique labels) tt;
  grouped_smapes ← summarize_groups grouped_smapes;
  grouped_owa ← new (OrderedDict []);
  table ← io (open_read (NAIVE2_PATH DATASETS_PATH));
  rows ← run_lift (series_rows table);
  naive2_forecasts ← new (SeqArray (map (fun r => map astype_float32 (snd r)) rows));
  a ← seq_array naive2_forecasts;
  naive2_forecasts ← new (SeqArray (map strip_nan a));
  model_mases ← new (PlainDict ∅);
  naive2_smapes ← new (PlainDict ∅);
  naive2_mases ← new (PlainDict ∅);
  labels ← test_set_groups;
  _ ← run_for_each
        (fun _ group_name =>
           group_step forecast naive2_forecasts model_mases naive2_smapes naive2_mases
                      group_name)
        (np_unique labels) tt;
  grouped_model_mases ← summarize_groups model_mases;
  grouped_naive2_smapes ← summarize_groups naive2_smapes;
  grouped_naive2_mases ← summarize_groups naive2_mases;
  items ← dict_items grouped_model_mases;
  _ ← run_for_each
        (fun _ k =>
           owa_step grouped_model_mases grouped_naive2_mases grouped_smapes
                    grouped_naive2_smapes grouped_owa k)
        (keys items) tt;
  smapes ← round_all grouped_smapes;
  owas ← round_all grouped_owa;
  mret (smapes, owas).

End Methods.
End Objects.

(** ** Reference definitions, in the words of the specification *)

(** The number of series of category [g] in a column of labels. *)
Definition population (labels : list string) (g : string) : Z :=
  Z.of_nat (length (filter (fun x => x = g) labels)).

(** The number of test-set series of category [g]. *)
Definition series_count {F : Type} (self : M4Summary F) (g : string) : Z :=
  population (groups (test_set self)) g.

(** The cache file of a partition. *)
Definition cache_file_path (DATASETS_PATH : string) (training : bool) : string :=
  if training then TRAINING_DATASET_CACHE_FILE_PATH DATASETS_PATH
  else TEST_DATASET_CACHE_FILE_PATH DATASETS_PATH.

(** The six categories of the reference table, in declared order. *)
Definition categories : list string := (major_groups ++ minor_groups)%list.

(** The keys of a report, in order. *)
Definition buckets : list string :=
  ["Yearly"; "Quarterly"; "Monthly"; "Others"; "Average"].

Section Reference.
Context {F : Type} `{NumPy F}.

(** The sum of score times count over the listed categories, accumulated
    from zero in list order. *)
Definition weighted_sum (l : list (F * Z)) : F :=
  fold_left (fun acc p => add acc (mul (fst p) (of_int (snd p)))) l (of_int 0).

(** A sequence without its trailing NaN entries: the longest prefix that
    does not end in NaN. *)
Fixpoint strip_trailing_nan (v : list F) : list F :=
  match v with
  | [] => []
  | x :: v' =>
      match strip_trailing_nan v' with
      | [] => if isnan x then [] else [x]
      | kept => x :: kept
      end
  end.

(** The declared frequency of the first series of category [g], in the row
    order of the reference table. *)
Definition first_frequency (self : M4Summary F) (g : string) : option Z :=
  head (group_values (frequencies (training_set self)) (groups (test_set self)) g).

(** The three scores that one turn of the loop of lines 46-64 stores under
    [group_name]: model mase, naive2 smape, naive2 mase. *)
Definition group_scores (smape_2 : list (list F) -> list (list F) -> list (list F))
    (mase : list F -> list F -> list F -> Z -> F)
    (self : M4Summary F) (forecast naive2_forecasts : list (list F))
    (group_name : string) : result (F * F * F) :=
  let model_forecast := group_values forecast (groups (test_set self)) group_name in
  let naive2_forecast := group_values naive2_forecasts (groups (test_set self)) group_name in
  let target := group_values (values (test_set self)) (groups (test_set self)) group_name in
  let insample :=
    group_values (values (training_set self)) (groups (test_set self)) group_name in
  of_group ← mask_select (frequencies (training_set self))
                         (eq_mask (groups (test_set self)) group_name);
  frequency ← item of_group 0;
  model ← mase_scores mase model_forecast insample target frequency (length model_forecast);
  naive2 ← mase_scores mase naive2_forecast insample target frequency (length model_forecast);
  mret (np_mean model, np_mean2 (smape_2 naive2_forecast target), np_mean naive2).

End Reference.

(** A session, a forecast array and a naive2 table that are aligned by
    position, over a test set in which every category has a series. *)
Definition aligned {F : Type} (self : M4Summary F) (forecast : list (list F))
    (rows : list (string * list F)) : Prop :=
  let n := length (groups (test_set self)) in
  length forecast = n /\ length rows = n /\
  length (values (test_set self)) = n /\
  length (values (training_set self)) = n /\
  length (frequencies (training_set self)) = n /\
  forall g, g ∈ categories -> g ∈ groups (test_set self).

(** An action that only reads: it leaves files and directories as they are,
    records nothing but reads, and its result depends on the files alone. *)
Definition is_read (e : event) : Prop :=
  match e with
  | EvRead _ => True
  | _ => False
  end.

Definition reads_only {F A : Type} (m : IO F A) : Prop :=
  forall w : World F,
    files (snd (m w)) = files w /\
    dirs (snd (m w)) = dirs w /\
    (exists evs, log (snd (m w)) = (log w ++ evs)%list /\ Forall is_read evs) /\
    forall w' : World F, files w' = files w -> fst (m w') = fst (m w).

(** ** Reference definitions for the caches and the sessions *)

(** The dataset that [load] makes of the rows of the reference table and the
    content of a cache. *)
Definition table_dataset {F : Type} (m4_info : list InfoRow) (content : list (list F))
    : M4Dataset F :=
  mkM4Dataset (map M4id m4_info) (map SP m4_info) (map Frequency m4_info)
              (map Horizon m4_info) content.

(** One more key, last, unless it is there. *)
Definition add_key (seen : list string) (k : string) : list string :=
  if decide (k ∈ seen) then seen else (seen ++ [k])%list.

(** The keys of a list, each at its first occurrence. *)
Definition first_occurrences (l : list string) : list string :=
  fold_left add_key l [].

(** Why reading the csv of series at [path] fails in world [w] with [e]:
    there is no such file, and [e] says so, or the file is no table of
    series. *)
Definition unreadable {F : Type} (w : World F) (path : string) (e : exn) : Prop :=
  (files w !! path = None /\ e = FileNotFoundError path) \/
  (exists f, files w !! path = Some f /\ (forall rows, f <> SeriesCsv rows)).

(** The first of [paths] that cannot be read as a table of series, and why. *)
Definition first_unreadable {F : Type} (w : World F) (paths : list string) (e : exn)
    : Prop :=
  exists i p,
    paths !! i = Some p /\ unreadable w p e /\
    forall j q, (j < i)%nat -> paths !! j = Some q ->
                exists rows, files w !! q = Some (SeriesCsv rows).

(** An action that leaves the files at [paths] as they are. *)
Definition keeps {F A : Type} (paths : list string) (m : IO F A) : Prop :=
  forall (w : World F) p, p ∈ paths -> files (snd (m w)) !! p = files w !! p.

(** The three files that a session is loaded from. *)
Definition corpus_files (DATASETS_PATH : string) (url_file_name : string -> string)
    : list string :=
  [INFO_FILE_PATH DATASETS_PATH url_file_name;
   TRAINING_DATASET_CACHE_FILE_PATH DATASETS_PATH;
   TEST_DATASET_CACHE_FILE_PATH DATASETS_PATH].

Section CacheReference.
Context {F : Type} `{NumPy F}.

(** [timeseries_dict] as [build_cache] starts it from the identifiers and
    fills it from the csv tables, taken in the order of [glob]. *)
Definition cache_of (m4_ids : list string) (tables : list (list (string * list F)))
    : list (string * list F) :=
  fold_left cache_rows tables (fold_left (fun d m4id => setitem d m4id []) m4_ids []).

(** The values of the last row of the tables that carries [m4id]. *)
Definition last_row (m4id : string) (tables : list (list (string * list F)))
    : option (list F) :=
  last (map snd (List.filter (fun r => bool_decide (fst r = m4id)) (concat tables))).

End CacheReference.

(** The first of [labels] that the score map misses. *)
Definition first_missing {F : Type} (scores : gmap string F) (labels : list string)
    : option string :=
  List.find (fun g => match scores !! g with None => true | Some _ => false end) labels.

(** The number of labels that are none of the six categories. *)
Definition strays (labels : list string) : Z :=
  Z.of_nat (length (filter (fun g => g ∉ categories) labels)).

(** ** Reference definitions for the store of objects *)

Definition str_at {F : Type} (h : Store F) (l : loc) : option (list string) :=
  match h !! l with Some (StrArray a) => Some a | _ => None end.
Definition int_at {F : Type} (h : Store F) (l : loc) : option (list Z) :=
  match h !! l with Some (IntArray a) => Some a | _ => None end.
Definition seq_at {F : Type} (h : Store F) (l : loc) : option (list (list F)) :=
  match h !! l with Some (SeqArray a) => Some a | _ => None end.

(** The dataset and the session that the store holds at a location. *)
Definition dataset_at {F : Type} (h : Store F) (l : loc) : option (M4Dataset F) :=
  match h !! l with
  | Some (DatasetObject i g f hz v) =>
      i' ← str_at h i; g' ← str_at h g; f' ← int_at h f; hz' ← int_at h hz;
      v' ← seq_at h v; Some (mkM4Dataset i' g' f' hz' v')
  | _ => None
  end.
Definition session_at {F : Type} (h : Store F) (l : loc) : option (M4Summary F) :=
  match h !! l with
  | Some (SummaryObject training test) =>
      training' ← dataset_at h training; test' ← dataset_at h test;
      Some (mkM4Summary training' test')
  | _ => None
  end.

(** Every object of [h] is in [h'], at its location, as it was. *)
Definition store_kept {F : Type} (h h' : Store F) : Prop :=
  forall l o, h !! l = Some o -> h' !! l = Some o.

(** [h'] has at every location but those of [ls] what [h] has there. *)
Definition same_but {F : Type} (ls : list loc) (h h' : Store F) : Prop :=
  forall l, l ∉ ls -> h' !! l = h !! l.

(** What a run from [h] and [w] makes true. *)
Definition after {F A : Type} (m : Run F A) (h : Store F) (w : World F)
    (Q : result A -> Store F -> World F -> Prop) : Prop :=
  Q (m h w).1.1 (m h w).1.2 (m h w).2.

(** ** A worked example: the scores and counts of section 8 of the specification *)

Module Sec8.

Definition labels : list string :=
  ["Yearly"; "Yearly"; "Quarterly"; "Quarterly"; "Quarterly";
   "Monthly"; "Monthly"; "Monthly"; "Monthly"; "Monthly";
   "Weekly"; "Daily"; "Hourly"].

Definition table : M4Dataset float := mkM4Dataset [] labels [] [] [].

Definition session : M4Summary float := mkM4Summary table table.

Definition scores : gmap string float :=
  <["Yearly" := 1%float]> (<["Quarterly" := 2%float]> (<["Monthly" := 3%float]>
  (<["Weekly" := 4%float]> (<["Daily" := 5%float]> (<["Hourly" := 6%float]> ∅))))).

(** The same scores over a test set without Weekly series, and over one
    without any Weekly, Daily or Hourly series. *)
Definition labels_no_weekly : list string :=
  ["Yearly"; "Yearly"; "Quarterly"; "Monthly"; "Daily"; "Hourly"].

Definition session_no_weekly : M4Summary float :=
  mkM4Summary (mkM4Dataset [] labels_no_weekly [] [] [])
              (mkM4Dataset [] labels_no_weekly [] [] []).

Definition labels_major_only : list string := ["Yearly"; "Quarterly"; "Monthly"].

Definition session_major_only : M4Summary float :=
  mkM4Summary (mkM4Dataset [] labels_major_only [] [] [])
              (mkM4Dataset [] labels_major_only [] [] []).

End Sec8.

(** ** A small corpus: seven series over the six categories *)

Module Toy.

(** Modelled from the spec: common/metrics.py is not among the sources.
    Section 4.3 asks of the percentage-error metric a symmetric formulation
    that stays finite on zero targets; this one is 200 |f - t| / (|t| + |f|),
    with a zero denominator replaced by one. *)
Definition smape_point (f t : float) : float :=
  let denom := (PrimFloat.abs t + PrimFloat.abs f)%float in
  let denom := if PrimFloat.eqb denom 0 then 1%float else denom in
  (200 * PrimFloat.abs (f - t) / denom)%float.
Definition smape_2 (forecast target : list (list float)) : list (list float) :=
  zip_with (zip_with smape_point) forecast target.

Definition abs_diff (a b : list float) : list float :=
  zip_with (fun x y => PrimFloat.abs (x - y)%float) a b.

(** Modelled from the spec: common/metrics.py is not among the sources.
    Section 4.3: the mean absolute forecast error divided by the mean
    absolute difference of the in-sample history at a lag of [frequency]. *)
Definition mase (forecast insample outsample : list float) (frequency : Z) : float :=
  let lag := Z.to_nat frequency in
  (Binary64.sum (abs_diff forecast outsample)
     / Binary64.of_Z (Z.of_nat (length forecast))
   / (Binary64.sum (abs_diff (drop lag insample) (take (length insample - lag) insample))
        / Binary64.of_Z (Z.of_nat (length insample - lag))))%float.

Definition root : string := "data".

(** The last segment of a url. *)
Fixpoint last_segment (url segment : string) : string :=
  match url with
  | EmptyString => segment
  | String c url' =>
      if Ascii.eqb c (Ascii.ascii_of_nat 47) then last_segment url' EmptyString
      else last_segment url' (segment ++ String c EmptyString)
  end.
Definition url_file_name (url : string) : string := last_segment url EmptyString.

(** The second Yearly series declares a frequency of 3, the first of 1. *)
Definition info : list InfoRow :=
  [mkInfoRow "Y1" "Yearly" 1 2; mkInfoRow "Q1" "Quarterly" 4 2;
   mkInfoRow "M1" "Monthly" 12 2; mkInfoRow "W1" "Weekly" 1 2;
   mkInfoRow "D1" "Daily" 1 2; mkInfoRow "H1" "Hourly" 24 2;
   mkInfoRow "Y2" "Yearly" 3 2].

Definition training_values : list (list float) :=
  [[1; 2; 4]; [1; 2; 3; 4; 6; 8]; [1; 2; 3; 4; 5; 6; 7; 8; 9; 10; 11; 12; 14];
   [1; 3]; [2; 5];
   [1; 2; 3; 4; 5; 6; 7; 8; 9; 10; 11; 12; 13; 14; 15; 16; 17; 18; 19; 20;
    21; 22; 23; 24; 26];
   [1; 2; 4; 8; 16]]%float.

Definition test_values : list (list float) :=
  [[5; 6]; [9; 10]; [15; 16]; [4; 5]; [7; 8]; [27; 28]; [32; 64]]%float.

Definition naive2_table : list (string * list float) :=
  [("Y1", [4; 4]); ("Q1", [8; 8]); ("M1", [14; 14; nan]); ("W1", [3; 3]);
   ("D1", [5; 5]); ("H1", [26; 26]); ("Y2", [16; 16])]%float.

Definition dataset (content : list (list float)) : M4Dataset float :=
  mkM4Dataset (map M4id info) (map SP info) (map Frequency info) (map Horizon info)
              content.

Definition session : M4Summary float :=
  mkM4Summary (dataset training_values) (dataset test_values).

(** A world where the corpus has been acquired. *)
Definition world : World float :=
  mkWorld
    (<[INFO_FILE_PATH root url_file_name := InfoCsv info]>
     (<[TRAINING_DATASET_CACHE_FILE_PATH root := Pickle training_values]>
      (<[TEST_DATASET_CACHE_FILE_PATH root := Pickle test_values]>
       (<[NAIVE2_FORECAST_FILE_PATH root := SeriesCsv naive2_table]> ∅))))
    {[DATASET_PATH root]} [].

(** A world where the dataset directory exists and is empty. *)
Definition empty_dir_world : World float :=
  mkWorld ∅ {[DATASET_PATH root]} [].

(** Forecasts; the first is padded with NaN past its valid length, the fifth
    has a NaN entry between two valid ones. *)
Definition forecast : list (list float) :=
  [[5; 7; nan]; [9; 11]; [15; 17]; [4; 6]; [7; nan; 9]; [27; 29]; [30; 60]]%float.

(** A machine without network: a download is attempted and fails; nothing
    is extracted; [glob] finds the files whose path ends as the pattern does
    after its star. *)
Definition offline_download (url path : string) : IO float unit :=
  fun w => (Raise (ExternalError "network unreachable"), logged (EvDownload url path) w).
Definition no_extraction (archive outdir : string) : IO float unit :=
  fun w => (Raise (FileNotFoundError archive), logged (EvExtract archive outdir) w).
Definition no_match (pattern : string) : IO float (list string) :=
  fun w => (Ok [], logged (EvGlob pattern) w).

(** A world where nothing has been acquired. *)
Definition fresh_world : World float := mkWorld ∅ ∅ [].

(** A mirror that serves the reference table and two archives, each with
    one csv of the first two series; the Yearly row is padded with NaN. *)
Definition mirror_download (url path : string) : IO float unit :=
  fun w =>
    let content := if decide (url = INFO_URL) then InfoCsv (take 2 info) else Blob in
    (Ok tt, mkWorld (<[path := content]> (files w)) ({[DATASET_PATH root]} ∪ dirs w)
                    (log w ++ [EvDownload url path])).

Definition unpack (archive outdir : string) : IO float unit :=
  fun w =>
    let member :=
      if decide (archive = TRAINING_DATASET_FILE_PATH root url_file_name)
      then Some ("all-train.csv",
                 SeriesCsv [("Q1", [1; 2; 3; 4; 6; 8]); ("Y1", [1; 2; 4; nan; nan; nan])]%float)
      else if decide (archive = TEST_DATASET_FILE_PATH root url_file_name)
      then Some ("all-test.csv", SeriesCsv [("Y1", [5; 6]); ("Q1", [9; 10])]%float)
      else None in
    (Ok tt,
     mkWorld match member with
             | Some (name, content) => <[path_join outdir name := content]> (files w)
             | None => files w
             end
             (dirs w) (log w ++ [EvExtract archive outdir])).

Definition ends_with (suffix path : string) : bool :=
  String.eqb (substring (String.length path - String.length suffix)
                        (String.length suffix) path) suffix.

(** [glob] of a pattern that is a directory, a star and a suffix. *)
Definition list_files (pattern : string) : IO float (list string) :=
  fun w =>
    let suffix := substring (String.length (DATASET_PATH root) + 2)
                            (String.length pattern) pattern in
    (Ok (List.filter (ends_with suffix) (map fst (map_to_list (files w)))),
     logged (EvGlob pattern) w).

(** What [evaluate] returns on this corpus. *)
Definition expected_smapes : list (string * float) :=
  [("Yearly", 7.072); ("Quarterly", 4.762); ("Monthly", 3.03); ("Others", 5.576);
   ("Average", 5.523)]%float.
Definition expected_owas : list (string * float) :=
  [("Yearly", 0.116); ("Quarterly", 0.307); ("Monthly", 0.316); ("Others", 0.232);
   ("Average", 0.155)]%float.

(** A session over a reference table with one series, a Yearly one. *)
Definition session_yearly_only : M4Summary float :=
  mkM4Summary (mkM4Dataset ["Y1"] ["Yearly"] [1] [2] [[1; 2; 4]]%float)
              (mkM4Dataset ["Y1"] ["Yearly"] [1] [2] [[5; 6]]%float).

End Toy.

(** Worlds in which [build_cache] runs: the dataset directory holds one csv
    of training series, a table in the first, something else in the second. *)
Module Staging.

Definition m4_ids : list string := ["Y1"; "Q1"].

Definition table : list (string * list float) :=
  [("Q1", [1; 2; 3; 4; 6; 8]); ("Y1", [1; 2; 4; nan; nan; nan])]%float.

(** A later table that has the Yearly series again, with a NaN inside. *)
Definition revision : list (string * list float) := [("Y1", [7; nan; 9])]%float.

Definition csv_path : string := path_join (DATASET_PATH Toy.root) "all-train.csv".

Definition unpacked : World float :=
  mkWorld (<[csv_path := SeriesCsv table]> ∅) {[DATASET_PATH Toy.root]} [].

Definition damaged : World float :=
  mkWorld (<[csv_path := Blob]> ∅) {[DATASET_PATH Toy.root]} [].

(** The world where [glob] has listed the training csv files of [w]. *)
Definition listed (w : World float) : World float :=
  snd (Toy.list_files (path_join (DATASET_PATH Toy.root) "*-train.csv")
                      (logged (EvLogInfo ("Caching " ++ "*-train.csv")) w)).

End Staging.

(** The store after [M4Summary()] on the small corpus: the caller's forecast
    array at location 0, the session at the last location. *)
Module Loaded.

Definition booted : result loc * Store float * World float :=
  Objects.init Toy.root Toy.url_file_name [SeqArray Toy.forecast] Toy.world.
Definition store : Store float := booted.1.2.
Definition world : World float := booted.2.
Definition self : loc := 13%nat.
Definition forecast : loc := 0%nat.

End Loaded.

(** Variations on the example of section 8: a test set with one more series,
    of a category that is none of the six; the series in reverse order; a
    score map with one more key. *)
Module Variations.

Definition labels_with_stray : list string := (Sec8.labels ++ ["Biennial"])%list.

Definition session_with_stray : M4Summary float :=
  mkM4Summary Sec8.table (mkM4Dataset [] labels_with_stray [] [] []).

Definition session_reversed : M4Summary float :=
  mkM4Summary Sec8.table (mkM4Dataset [] (reverse Sec8.labels) [] [] []).

Definition scores_with_stray : gmap string float :=
  <["Biennial" := 9%float]> Sec8.scores.

(** The frequencies of the small corpus, that of the second Yearly series
    declared as 1 rather than 3. *)
Definition frequencies_redeclared : list Z := [1; 4; 12; 1; 1; 24; 1].

Definition session_redeclared : M4Summary float :=
  mkM4Summary
    (mkM4Dataset (ids (training_set Toy.session)) (groups (training_set Toy.session))
                 frequencies_redeclared (horizons (training_set Toy.session))
                 (values (training_set Toy.session)))
    (test_set Toy.session).

(** The small corpus with another training set and another naive2 table. *)
Definition session_retrained : M4Summary float :=
  mkM4Summary (Toy.dataset (map (fun v => v ++ [100%float])%list Toy.training_values))
              (test_set Toy.session).

(** The small corpus under other identifiers and horizons, the labels of
    the training set blanked. *)
Definition session_renamed : M4Summary float :=
  mkM4Summary
    (mkM4Dataset [] (map (fun _ => "") (groups (training_set Toy.session)))
                 (frequencies (training_set Toy.session)) []
                 (values (training_set Toy.session)))
    (mkM4Dataset (reverse (ids (test_set Toy.session))) (groups (test_set Toy.session))
                 [] (map (fun h => h + 1) (horizons (test_set Toy.session)))
                 (values (test_set Toy.session))).

(** A world where the three files of the small corpus are in place and the
    naive2 table is not. *)
Definition world_without_naive2 : World float :=
  mkWorld (delete (NAIVE2_FORECAST_FILE_PATH Toy.root) (files Toy.world))
          (dirs Toy.world) [].

Definition world_rebased : World float :=
  mkWorld (<[NAIVE2_FORECAST_FILE_PATH Toy.root :=
               SeriesCsv (map (fun r => (fst r, map (fun x => (x + 1)%float) (snd r)))
                              Toy.naive2_table)]> (files Toy.world))
          (dirs Toy.world) [].

End Variations.

(** * Properties *)

(** ** Ordered dicts *)

Section DictFacts.
Context {V : Type}.
Implicit Types (d : list (string * V)) (k : string) (v : V).

Lemma getitem_setitem_eq d k v : getitem (setitem d k v) k = Ok v.
Proof.
  induction d as [|[k' v'] d IH]; simpl.
  - rewrite decide_True; auto.
  - destruct (decide (k' = k)) as [->|Hne]; simpl.
    + rewrite decide_True; auto.
    + rewrite decide_False; auto.
Qed.

Lemma getitem_setitem_ne d k k' v :
  k <> k' -> getitem (setitem d k v) k' = getitem d k'.
Proof.
  intros Hne. induction d as [|[k0 v0] d IH]; simpl.
  - rewrite decide_False; auto.
  - destruct (decide (k0 = k)) as [->|Hk0]; simpl.
    + rewrite !decide_False; auto.
    + destruct (decide (k0 = k')); auto.
Qed.

Lemma setitem_fresh d k v : k ∉ keys d -> setitem d k v = (d ++ [(k, v)])%list.
Proof.
  induction d as [|[k' v'] d IH]; simpl; intros Hk; auto.
  unfold keys in Hk. simpl in Hk. apply not_elem_of_cons in Hk as [Hne Hk].
  rewrite decide_False by auto. f_equal. apply IH. exact Hk.
Qed.

Lemma getitem_Ok_keys d k v : getitem d k = Ok v -> k ∈ keys d.
Proof.
  induction d as [|[k' v'] d IH]; simpl; intros Hg; [discriminate|].
  destruct (decide (k' = k)) as [->|Hne].
  - apply list_elem_of_here.
  - apply list_elem_of_further, IH, Hg.
Qed.

Lemma getitem_keys d k : k ∈ keys d -> exists v, getitem d k = Ok v.
Proof.
  induction d as [|[k' v'] d IH]; simpl; intros Hk.
  - apply elem_of_nil in Hk. contradiction.
  - destruct (decide (k' = k)) as [->|Hne]; [eauto|].
    apply elem_of_cons in Hk as [Heq|Hk]; [congruence|]. apply IH, Hk.
Qed.

Lemma getitem_buckets (vY vQ vM vO vA : V) :
  let summary := [("Yearly", vY); ("Quarterly", vQ); ("Monthly", vM);
                  ("Others", vO); ("Average", vA)] in
  getitem summary "Yearly" = Ok vY /\ getitem summary "Quarterly" = Ok vQ /\
  getitem summary "Monthly" = Ok vM /\ getitem summary "Others" = Ok vO /\
  getitem summary "Average" = Ok vA.
Proof. vm_compute. tauto. Qed.

Lemma lookup_key_Some (m : gmap string V) k v : m !! k = Some v -> lookup_key m k = Ok v.
Proof. unfold lookup_key. intros ->. reflexivity. Qed.

Lemma lookup_key_None (m : gmap string V) k : m !! k = None -> lookup_key m k = Raise (KeyError k).
Proof. unfold lookup_key. intros ->. reflexivity. Qed.

End DictFacts.

(** ** Counting the series of a category *)

Lemma np_where_from_length (i : nat) (mask : list bool) :
  length (np_where_from i mask) = length (filter (fun b => b = true) mask).
Proof.
  revert i. induction mask as [|b mask IH]; intros i; simpl; auto.
  destruct b.
  - rewrite filter_cons_True by reflexivity. simpl. f_equal. apply IH.
  - rewrite filter_cons_False by discriminate. apply IH.
Qed.

Lemma eq_mask_true_length (labels : list string) (g : string) :
  length (filter (fun b => b = true) (eq_mask labels g)) =
  length (filter (fun x => x = g) labels).
Proof.
  induction labels as [|x labels IH]; simpl; auto.
  destruct (decide (x = g)) as [Heq|Hne].
  - rewrite bool_decide_true by exact Heq.
    rewrite !filter_cons_True by auto. simpl. f_equal. exact IH.
  - rewrite bool_decide_false by exact Hne.
    rewrite !filter_cons_False by auto. exact IH.
Qed.

Lemma group_count_population {F : Type} (self : M4Summary F) (g : string) :
  group_count self g = population (groups (test_set self)) g.
Proof.
  unfold group_count, population, np_where.
  rewrite np_where_from_length, eq_mask_true_length. reflexivity.
Qed.

(** The categories that [summarize_groups] reads are the seasonal patterns
    that the dataset declares, in their order. *)
Example categories_declared : categories = M4Meta.seasonal_patterns.
Proof. reflexivity. Qed.

Lemma elem_of_categories (g : string) :
  g ∈ categories <->
  g = "Yearly" \/ g = "Quarterly" \/ g = "Monthly" \/
  g = "Weekly" \/ g = "Daily" \/ g = "Hourly".
Proof.
  unfold categories, major_groups, minor_groups. simpl.
  rewrite !elem_of_cons, elem_of_nil. tauto.
Qed.

Lemma population_cons (x : string) (l : list string) (g : string) :
  population (x :: l) g = (if bool_decide (x = g) then 1 else 0) + population l g.
Proof.
  unfold population. destruct (decide (x = g)) as [Heq|Hne].
  - rewrite bool_decide_true, filter_cons_True by exact Heq.
    rewrite length_cons, Nat2Z.inj_succ. lia.
  - rewrite bool_decide_false, filter_cons_False by exact Hne. reflexivity.
Qed.

(** Every series falls in exactly one of the six categories. *)
Lemma length_by_category (l : list string) :
  Forall (fun g => g ∈ categories) l ->
  Z.of_nat (length l) =
  population l "Yearly" + population l "Quarterly" + population l "Monthly" +
  population l "Weekly" + population l "Daily" + population l "Hourly".
Proof.
  induction 1 as [|x l Hx _ IH]; [reflexivity|].
  rewrite !population_cons. simpl length. rewrite Nat2Z.inj_succ, IH.
  unfold categories, major_groups, minor_groups in Hx. simpl in Hx.
  repeat (apply elem_of_cons in Hx as [->|Hx]);
    [..|apply elem_of_nil in Hx; contradiction];
    repeat (case_bool_decide; try discriminate; try congruence); lia.
Qed.

(** ** [summarize_groups] *)

Section SummarizeFacts.
Context {F : Type} `{NumPy F}.
Variable self : M4Summary F.

Local Abbreviation count := (series_count self).

(** The whole result of [summarize_groups] on a score map that has the six
    labels. *)
Lemma summarize_groups_eq (scores : gmap string F) (sY sQ sM sW sD sH : F) :
  scores !! "Yearly" = Some sY -> scores !! "Quarterly" = Some sQ ->
  scores !! "Monthly" = Some sM -> scores !! "Weekly" = Some sW ->
  scores !! "Daily" = Some sD -> scores !! "Hourly" = Some sH ->
  let others := weighted_sum [(sW, count "Weekly"); (sD, count "Daily"); (sH, count "Hourly")] in
  summarize_groups self scores =
  Ok [("Yearly", sY); ("Quarterly", sQ); ("Monthly", sM);
      ("Others", div others (of_int (count "Weekly" + count "Daily" + count "Hourly")));
      ("Average",
       div (np_sum [mul sY (of_int (count "Yearly")); mul sQ (of_int (count "Quarterly"));
                    mul sM (of_int (count "Monthly")); others])
           (of_int (Z.of_nat (length (groups (test_set self))))))].
Proof.
  intros HY HQ HM HW HD HH others.
  unfold summarize_groups, major_groups, minor_groups, for_each, major_step, minor_step.
  rewrite (lookup_key_Some _ _ _ HY), (lookup_key_Some _ _ _ HQ), (lookup_key_Some _ _ _ HM),
    (lookup_key_Some _ _ _ HW), (lookup_key_Some _ _ _ HD), (lookup_key_Some _ _ _ HH).
  rewrite !group_count_population. subst others. unfold series_count.
  generalize (Z.of_nat (length (groups (test_set self)))).
  generalize (population (groups (test_set self))). intros pop n.
  unfold weighted_sum. simpl fold_left.
  generalize (pop "Yearly"), (pop "Quarterly"), (pop "Monthly"),
    (pop "Weekly"), (pop "Daily"), (pop "Hourly").
  intros cY cQ cM cW cD cH. vm_compute. reflexivity.
Qed.

(** Either the score map holds the six labels, or [summarize_groups] raises
    the KeyError of the first label it misses. *)
Lemma summarize_groups_cases (scores : gmap string F) :
  (exists sY sQ sM sW sD sH,
     scores !! "Yearly" = Some sY /\ scores !! "Quarterly" = Some sQ /\
     scores !! "Monthly" = Some sM /\ scores !! "Weekly" = Some sW /\
     scores !! "Daily" = Some sD /\ scores !! "Hourly" = Some sH) \/
  (exists k, k ∈ categories /\ scores !! k = None /\
             summarize_groups self scores = Raise (KeyError k)).
Proof.
  unfold summarize_groups, major_groups, minor_groups, for_each, major_step, minor_step.
  destruct (scores !! "Yearly") as [sY|] eqn:HY;
    [rewrite (lookup_key_Some _ _ _ HY)
    |right; exists "Yearly"; rewrite (lookup_key_None _ _ HY), elem_of_categories; tauto].
  destruct (scores !! "Quarterly") as [sQ|] eqn:HQ;
    [rewrite (lookup_key_Some _ _ _ HQ)
    |right; exists "Quarterly"; rewrite (lookup_key_None _ _ HQ), elem_of_categories; tauto].
  destruct (scores !! "Monthly") as [sM|] eqn:HM;
    [rewrite (lookup_key_Some _ _ _ HM)
    |right; exists "Monthly"; rewrite (lookup_key_None _ _ HM), elem_of_categories; tauto].
  destruct (scores !! "Weekly") as [sW|] eqn:HW;
    [rewrite (lookup_key_Some _ _ _ HW)
    |right; exists "Weekly"; rewrite (lookup_key_None _ _ HW), elem_of_categories; tauto].
  destruct (scores !! "Daily") as [sD|] eqn:HD;
    [rewrite (lookup_key_Some _ _ _ HD)
    |right; exists "Daily"; rewrite (lookup_key_None _ _ HD), elem_of_categories; tauto].
  destruct (scores !! "Hourly") as [sH|] eqn:HH;
    [|right; exists "Hourly"; rewrite (lookup_key_None _ _ HH), elem_of_categories; tauto].
  left. exists sY, sQ, sM, sW, sD, sH. tauto.
Qed.

(** A summary that [summarize_groups] returns has the five buckets, in order. *)
Lemma summarize_groups_shape (scores : gmap string F) (summary : list (string * F)) :
  summarize_groups self scores = Ok summary ->
  exists vY vQ vM vO vA,
    summary = [("Yearly", vY); ("Quarterly", vQ); ("Monthly", vM);
               ("Others", vO); ("Average", vA)].
Proof.
  intros Hs.
  destruct (summarize_groups_cases scores)
    as [(sY & sQ & sM & sW & sD & sH & HY & HQ & HM & HW & HD & HH)|(k & _ & _ & Hk)];
    [|congruence].
  rewrite (summarize_groups_eq _ _ _ _ _ _ _ HY HQ HM HW HD HH) in Hs.
  injection Hs as <-. eauto 6.
Qed.

(** C1. On a score map that holds the six labels, [summarize_groups] returns
    a summary in which Yearly, Quarterly and Monthly keep their scores, and
    Others is the sum of score times count over Weekly, Daily and Hourly
    divided by the sum of their counts, a count being the number of test-set
    series of the category. *)
Theorem summarize_groups_others (scores : gmap string F) (sY sQ sM sW sD sH : F) :
  scores !! "Yearly" = Some sY -> scores !! "Quarterly" = Some sQ ->
  scores !! "Monthly" = Some sM -> scores !! "Weekly" = Some sW ->
  scores !! "Daily" = Some sD -> scores !! "Hourly" = Some sH ->
  exists summary,
    summarize_groups self scores = Ok summary /\
    getitem summary "Yearly" = Ok sY /\
    getitem summary "Quarterly" = Ok sQ /\
    getitem summary "Monthly" = Ok sM /\
    getitem summary "Others" =
      Ok (div (weighted_sum [(sW, count "Weekly"); (sD, count "Daily");
                             (sH, count "Hourly")])
              (of_int (count "Weekly" + count "Daily" + count "Hourly"))).
Proof.
  intros HY HQ HM HW HD HH.
  eexists. split; [apply summarize_groups_eq; eassumption|].
  repeat split; apply getitem_buckets.
Qed.

(** C2. On a score map that holds the six labels, over a test set whose
    labels all belong to the six categories, Average is the sum of the three
    major weighted scores and the pooled minor weighted score, divided by the
    number of series of all six categories. *)
Theorem summarize_groups_average (scores : gmap string F) (sY sQ sM sW sD sH : F) :
  scores !! "Yearly" = Some sY -> scores !! "Quarterly" = Some sQ ->
  scores !! "Monthly" = Some sM -> scores !! "Weekly" = Some sW ->
  scores !! "Daily" = Some sD -> scores !! "Hourly" = Some sH ->
  Forall (fun g => g ∈ categories) (groups (test_set self)) ->
  exists summary,
    summarize_groups self scores = Ok summary /\
    getitem summary "Average" =
      Ok (div (np_sum [mul sY (of_int (count "Yearly"));
                       mul sQ (of_int (count "Quarterly"));
                       mul sM (of_int (count "Monthly"));
                       weighted_sum [(sW, count "Weekly"); (sD, count "Daily");
                                     (sH, count "Hourly")]])
              (of_int (count "Yearly" + count "Quarterly" + count "Monthly" +
                       count "Weekly" + count "Daily" + count "Hourly"))).
Proof.
  intros HY HQ HM HW HD HH Hclosed.
  eexists. split; [apply summarize_groups_eq; eassumption|].
  unfold series_count. rewrite <- (length_by_category _ Hclosed).
  apply getitem_buckets.
Qed.

End SummarizeFacts.

Lemma summarize_groups_others_sec8 :
  exists summary,
    summarize_groups Sec8.session Sec8.scores = Ok summary /\
    getitem summary "Yearly" = Ok 1%float /\
    getitem summary "Quarterly" = Ok 2%float /\
    getitem summary "Monthly" = Ok 3%float /\
    getitem summary "Others" = Ok 5%float.
Proof.
  destruct (summarize_groups_others Sec8.session Sec8.scores 1 2 3 4 5 6)%float
    as (summary & Hs & HY & HQ & HM & HO); try reflexivity.
  exists summary. repeat split; assumption.
Defined.

Lemma summarize_groups_average_sec8 :
  Forall (fun g => g ∈ categories) Sec8.labels /\
  exists summary,
    summarize_groups Sec8.session Sec8.scores = Ok summary /\
    getitem summary "Others" = Ok 5%float /\
    getitem summary "Average" = Ok (38 / 13)%float.
Proof.
  assert (Hclosed : Forall (fun g => g ∈ categories) Sec8.labels).
  { apply (bool_decide_unpack _). vm_compute. exact I. }
  split; [exact Hclosed|].
  destruct (summarize_groups_average Sec8.session Sec8.scores 1 2 3 4 5 6)%float
    as (summary & Hs & HA); try reflexivity; try exact Hclosed.
  exists summary. split; [exact Hs|]. split; [|exact HA].
  vm_compute in Hs. injection Hs as <-. reflexivity.
Defined.

(** ** The [IO] monad *)

Section IOFacts.
Context {F : Type}.

Lemma bind_lift_Ok {A B : Type} (a : A) (f : A -> IO F B) (w : World F) :
  (lift (Ok a) ≫= f) w = f a w.
Proof. reflexivity. Qed.

Lemma bind_lift_Raise {A B : Type} (e : exn) (f : A -> IO F B) (w : World F) :
  (lift (Raise e) ≫= f) w = (Raise e, w).
Proof. reflexivity. Qed.

Lemma bind_ext {A B : Type} (m : IO F A) (f g : A -> IO F B) (w : World F) :
  (forall a w', f a w' = g a w') -> (m ≫= f) w = (m ≫= g) w.
Proof.
  intros Hfg. unfold mbind, io_bind. destruct (m w) as [[a|e] w']; [apply Hfg|reflexivity].
Qed.

Lemma bind_lift_inv {A B : Type} (r : result A) (f : A -> IO F B) (w w' : World F) (b : B) :
  (lift r ≫= f) w = (Ok b, w') -> exists a, r = Ok a /\ f a w = (Ok b, w').
Proof.
  destruct r as [a|e]; [eauto|]. rewrite bind_lift_Raise. discriminate.
Qed.

Lemma bind_open_read_inv {B : Type} (path : string) (f : file F -> IO F B)
    (w w' : World F) (b : B) :
  (open_read path ≫= f) w = (Ok b, w') ->
  exists c, files w !! path = Some c /\ f c (logged (EvRead path) w) = (Ok b, w').
Proof.
  unfold mbind, io_bind, open_read. destruct (files w !! path) as [c|]; [eauto|discriminate].
Qed.

Lemma reads_only_ret {A : Type} (a : A) : reads_only (mret a : IO F A).
Proof.
  intros w. simpl. split; [reflexivity|]. split; [reflexivity|]. split; [|reflexivity].
  exists []. split; [symmetry; apply app_nil_r|constructor].
Qed.

Lemma reads_only_lift {A : Type} (r : result A) : reads_only (lift r : IO F A).
Proof.
  intros w. simpl. split; [reflexivity|]. split; [reflexivity|]. split; [|reflexivity].
  exists []. split; [symmetry; apply app_nil_r|constructor].
Qed.

Lemma reads_only_open_read (path : string) : reads_only (open_read path : IO F (file F)).
Proof.
  intros w. unfold open_read.
  assert (Hlog : exists evs, log (logged (EvRead path) w) = (log w ++ evs)%list
                             /\ Forall is_read evs).
  { exists [EvRead path]. split; [reflexivity|]. repeat constructor. }
  split; [|split; [|split]].
  - destruct (files w !! path); reflexivity.
  - destruct (files w !! path); reflexivity.
  - destruct (files w !! path); exact Hlog.
  - intros w' ->. destruct (files w !! path); reflexivity.
Qed.

Lemma reads_only_bind {A B : Type} (m : IO F A) (f : A -> IO F B) :
  reads_only m -> (forall a, reads_only (f a)) -> reads_only (m ≫= f).
Proof.
  intros Hm Hf w. unfold mbind, io_bind.
  destruct (Hm w) as (Hfiles & Hdirs & (evs & Hlog & Hevs) & Hdet).
  assert (Hdet' : forall w', files w' = files w ->
            fst (match m w' with
                 | (Ok a, w1) => f a w1
                 | (Raise e, w1) => (Raise e, w1)
                 end) =
            fst (match m w with
                 | (Ok a, w1) => f a w1
                 | (Raise e, w1) => (Raise e, w1)
                 end)).
  { intros w' Hw'. specialize (Hdet w' Hw').
    destruct (Hm w') as (Hfiles' & _).
    destruct (m w') as [r' w1'], (m w) as [r w1]. simpl in *. subst r'.
    destruct r as [a|e]; [|reflexivity].
    apply (Hf a w1). congruence. }
  destruct (m w) as [[a|e] w1]; simpl in *.
  - destruct (Hf a w1) as (Hfiles1 & Hdirs1 & (evs1 & Hlog1 & Hevs1) & _).
    split; [congruence|]. split; [congruence|]. split; [|exact Hdet'].
    exists (evs ++ evs1)%list. split.
    + rewrite Hlog1, Hlog. symmetry. apply app_assoc.
    + apply Forall_app. split; assumption.
  - split; [exact Hfiles|]. split; [exact Hdirs|]. split; [|exact Hdet'].
    exists evs. split; assumption.
Qed.

Lemma reads_only_np_load (path : string) : reads_only (np_load path : IO F (list (list F))).
Proof.
  unfold np_load. apply reads_only_bind; [apply reads_only_open_read|].
  intros [| | |]; first [apply reads_only_ret | apply reads_only_lift].
Qed.

(** Run twice in a row, an action that only reads returns the same result. *)
Lemma reads_only_repeat {A : Type} (m : IO F A) (w : World F) :
  reads_only m -> fst (m (snd (m w))) = fst (m w).
Proof. intros Hm. apply (Hm w). apply (Hm w). Qed.

End IOFacts.

(** ** Labels, groups and masks *)

Lemma fold_insert_lookup {V : Type} (f : string -> V) (l : list string)
    (m : gmap string V) (k : string) :
  fold_left (fun d g => <[g := f g]> d) l m !! k =
  if decide (k ∈ l) then Some (f k) else m !! k.
Proof.
  revert m. induction l as [|g l IH]; intros m.
  - destruct (decide (k ∈ [])) as [Hin|_]; [|reflexivity].
    apply elem_of_nil in Hin. contradiction.
  - change (fold_left (fun d g => <[g := f g]> d) l (<[g := f g]> m) !! k =
            if decide (k ∈ g :: l) then Some (f k) else m !! k).
    rewrite IH.
    destruct (decide (k ∈ l)) as [Hin|Hnin]; destruct (decide (k ∈ g :: l)) as [Hin'|Hnin'].
    + reflexivity.
    + exfalso. apply Hnin', list_elem_of_further, Hin.
    + apply elem_of_cons in Hin' as [->|Hin']; [apply lookup_insert_eq|contradiction].
    + apply lookup_insert_ne. intros ->. apply Hnin', list_elem_of_here.
Qed.

Lemma elem_of_insert_unique (x y : string) (l : list string) :
  y ∈ insert_unique x l <-> y = x \/ y ∈ l.
Proof.
  induction l as [|z l IH]; simpl.
  - rewrite list_elem_of_singleton, elem_of_nil. tauto.
  - destruct (decide (x = z)) as [->|Hne].
    + rewrite elem_of_cons. tauto.
    + destruct (String.ltb x z).
      * rewrite !elem_of_cons. tauto.
      * rewrite !elem_of_cons, IH. tauto.
Qed.

Lemma elem_of_np_unique (y : string) (l : list string) : y ∈ np_unique l <-> y ∈ l.
Proof.
  unfold np_unique. induction l as [|x l IH]; simpl; [reflexivity|].
  rewrite elem_of_insert_unique, IH, elem_of_cons. tauto.
Qed.

(** ** [evaluate] *)

Section EvaluateFacts.
Context {F : Type} `{NumPy F}.
Variable DATASETS_PATH : string.
Variable smape_2 : list (list F) -> list (list F) -> list (list F).
Variable mase : list F -> list F -> list F -> Z -> F.
Variable self : M4Summary F.

Lemma smape_scores_lookup (forecast : list (list F)) (g : string) :
  smape_scores smape_2 self forecast !! g =
  if decide (g ∈ groups (test_set self)) then
    Some (np_mean2 (smape_2 (group_values forecast (groups (test_set self)) g)
                            (group_values (values (test_set self))
                                          (groups (test_set self)) g)))
  else None.
Proof.
  unfold smape_scores.
  rewrite (fold_insert_lookup
             (fun g => np_mean2 (smape_2 (group_values forecast (groups (test_set self)) g)
                                         (group_values (values (test_set self))
                                                       (groups (test_set self)) g)))).
  destruct (decide (g ∈ np_unique (groups (test_set self)))) as [Hin|Hnin];
    destruct (decide (g ∈ groups (test_set self))) as [Hin'|Hnin']; try reflexivity.
  - exfalso. exact (Hnin' (proj1 (elem_of_np_unique _ _) Hin)).
  - exfalso. exact (Hnin (proj2 (elem_of_np_unique _ _) Hin')).
Qed.

(** What a successful run of [evaluate] went through. *)
Lemma evaluate_Ok_inv (forecast : list (list F)) (w w' : World F)
    (smapes owas : list (string * F)) :
  evaluate DATASETS_PATH smape_2 mase self forecast w = (Ok (smapes, owas), w') ->
  exists rows model_mases naive2_smapes naive2_mases
         grouped_smapes grouped_model_mases grouped_naive2_smapes grouped_naive2_mases
         grouped_owa,
    files w !! NAIVE2_PATH DATASETS_PATH = Some (SeriesCsv rows) /\
    summarize_groups self (smape_scores smape_2 self (map strip_nan forecast))
      = Ok grouped_smapes /\
    for_each (group_step smape_2 mase self (map strip_nan forecast) (naive2_rows rows))
             (np_unique (groups (test_set self))) (∅, ∅, ∅)
      = Ok (model_mases, naive2_smapes, naive2_mases) /\
    summarize_groups self model_mases = Ok grouped_model_mases /\
    summarize_groups self naive2_smapes = Ok grouped_naive2_smapes /\
    summarize_groups self naive2_mases = Ok grouped_naive2_mases /\
    for_each (owa_step grouped_model_mases grouped_naive2_mases
                       grouped_smapes grouped_naive2_smapes)
             (keys grouped_model_mases) [] = Ok grouped_owa /\
    smapes = round_all grouped_smapes /\
    owas = round_all grouped_owa /\
    w' = logged (EvRead (NAIVE2_PATH DATASETS_PATH)) w.
Proof.
  unfold evaluate. intros Hev.
  apply bind_lift_inv in Hev as (gs & Hgs & Hev).
  apply bind_open_read_inv in Hev as (table & Hfile & Hev).
  apply bind_lift_inv in Hev as (rows & Hrows & Hev).
  destruct table; try discriminate. injection Hrows as ->.
  apply bind_lift_inv in Hev as ([[mm ns] nm] & Hloop & Hev).
  apply bind_lift_inv in Hev as (gmm & Hgmm & Hev).
  apply bind_lift_inv in Hev as (gns & Hgns & Hev).
  apply bind_lift_inv in Hev as (gnm & Hgnm & Hev).
  apply bind_lift_inv in Hev as (gowa & Howa & Hev).
  injection Hev as <- <- <-.
  exists rows, mm, ns, nm, gs, gmm, gns, gnm, gowa. tauto.
Qed.

(** A category without series makes [evaluate] fail on the first score map
    it summarizes, before any file is read. *)
Lemma evaluate_missing_category (forecast : list (list F)) (w : World F) (g : string) :
  g ∈ categories -> (g ∉ groups (test_set self)) ->
  exists k, k ∈ categories /\ (k ∉ groups (test_set self)) /\
    evaluate DATASETS_PATH smape_2 mase self forecast w = (Raise (KeyError k), w).
Proof.
  intros Hg Hnot.
  destruct (summarize_groups_cases self (smape_scores smape_2 self (map strip_nan forecast)))
    as [(sY & sQ & sM & sW & sD & sH & HY & HQ & HM & HW & HD & HH)|(k & Hk & Hnone & Hraise)].
  - exfalso. assert (Hl : smape_scores smape_2 self (map strip_nan forecast) !! g = None).
    { rewrite smape_scores_lookup.
      destruct (decide (g ∈ groups (test_set self))); [contradiction|reflexivity]. }
    apply elem_of_categories in Hg.
    destruct Hg as [->|[->|[->|[->|[->| ->]]]]]; congruence.
  - exists k. split; [exact Hk|]. split.
    + intros Hin. rewrite smape_scores_lookup in Hnone.
      destruct (decide (k ∈ groups (test_set self))); [discriminate|contradiction].
    + unfold evaluate. rewrite Hraise. reflexivity.
Qed.

End EvaluateFacts.

(** ** Empty categories *)

Section EmptyCategory.
Context {F : Type} `{NumPy F}.
Variable self : M4Summary F.

Local Abbreviation count := (series_count self).

(** C4, as amended. [summarize_groups] checks no population. On a score map
    that holds the six labels it returns whatever the counts are, Others being
    the pooled weighted score divided by the pooled count; it fails, with the
    KeyError of a missing label, when the score map lacks a category. That is
    how an empty category surfaces in [evaluate], whose score maps hold the
    labels that occur in the test set: called with one forecast row per
    series of the test set, it fails with the KeyError of a category without
    series, before any file is read. *)
Theorem empty_category_is_a_missing_key (scores : gmap string F) :
  ((forall g, g ∈ categories -> is_Some (scores !! g)) ->
   exists summary sW sD sH,
     scores !! "Weekly" = Some sW /\ scores !! "Daily" = Some sD /\
     scores !! "Hourly" = Some sH /\
     summarize_groups self scores = Ok summary /\
     getitem summary "Others" =
       Ok (div (weighted_sum [(sW, count "Weekly"); (sD, count "Daily");
                              (sH, count "Hourly")])
               (of_int (count "Weekly" + count "Daily" + count "Hourly")))) /\
  (forall g, g ∈ categories -> scores !! g = None ->
   exists k, k ∈ categories /\ scores !! k = None /\
             summarize_groups self scores = Raise (KeyError k)) /\
  (forall DATASETS_PATH smape_2 mase forecast (w : World F) g,
     length forecast = length (groups (test_set self)) ->
     length (values (test_set self)) = length (groups (test_set self)) ->
     g ∈ categories -> (g ∉ groups (test_set self)) ->
     exists k, k ∈ categories /\ (k ∉ groups (test_set self)) /\
       evaluate DATASETS_PATH smape_2 mase self forecast w = (Raise (KeyError k), w)).
Proof.
  split; [|split].
  - intros Hall.
    destruct (summarize_groups_cases self scores)
      as [(sY & sQ & sM & sW & sD & sH & HY & HQ & HM & HW & HD & HH)|(k & Hk & Hnone & _)].
    + eexists _, sW, sD, sH. repeat (split; [eassumption|]).
      split; [apply summarize_groups_eq; eassumption|].
      apply getitem_buckets.
    + destruct (Hall k Hk) as [v Hv]. congruence.
  - intros g Hg Hnone.
    destruct (summarize_groups_cases self scores)
      as [(sY & sQ & sM & sW & sD & sH & HY & HQ & HM & HW & HD & HH)|Hk];
      [|exact Hk].
    apply elem_of_categories in Hg.
    destruct Hg as [->|[->|[->|[->|[->| ->]]]]]; congruence.
  - intros DATASETS_PATH smape_2 mase forecast w g _ _.
    apply evaluate_missing_category.
Qed.

End EmptyCategory.

Lemma empty_category_yearly_only :
  "Weekly" ∈ categories /\
  ("Weekly" ∉ groups (test_set Toy.session_yearly_only)) /\
  length (take 1 Toy.forecast) = length (groups (test_set Toy.session_yearly_only)) /\
  exists k, k ∈ categories /\ (k ∉ groups (test_set Toy.session_yearly_only)) /\
    evaluate Toy.root Toy.smape_2 Toy.mase Toy.session_yearly_only (take 1 Toy.forecast)
             Toy.world
    = (Raise (KeyError k), Toy.world).
Proof.
  assert (Hin : "Weekly" ∈ categories) by (apply elem_of_categories; tauto).
  assert (Hnot : "Weekly" ∉ groups (test_set Toy.session_yearly_only))
    by (apply (bool_decide_unpack _); vm_compute; exact I).
  split; [exact Hin|]. split; [exact Hnot|]. split; [reflexivity|].
  destruct (empty_category_is_a_missing_key Toy.session_yearly_only ∅) as (_ & _ & Hev).
  exact (Hev Toy.root Toy.smape_2 Toy.mase (take 1 Toy.forecast) Toy.world "Weekly"
             eq_refl eq_refl Hin Hnot).
Defined.

(** C4 as stated fails: with no Weekly series and a score map that holds the
    six labels, [summarize_groups] returns a summary, Others being the
    weighted average of Daily and Hourly; with no Weekly, Daily or Hourly
    series it returns NaN for Others. *)
Lemma empty_minor_category_returns :
  population Sec8.labels_no_weekly "Weekly" = 0 /\
  (exists summary,
     summarize_groups Sec8.session_no_weekly Sec8.scores = Ok summary /\
     getitem summary "Others" = Ok 5.5%float) /\
  (exists summary x,
     summarize_groups Sec8.session_major_only Sec8.scores = Ok summary /\
     getitem summary "Others" = Ok x /\ isnan x = true).
Proof.
  split; [reflexivity|]. split.
  - eexists. split; vm_compute; reflexivity.
  - eexists _, _. repeat split; vm_compute; reflexivity.
Qed.

(** ** NaN stripping *)

Section StripFacts.
Context {F : Type} `{NumPy F}.

Lemma strip_nan_app (a b : list F) :
  strip_nan (a ++ b) = (strip_nan a ++ strip_nan b)%list.
Proof. unfold strip_nan. apply List.filter_app. Qed.

Lemma strip_nan_valid (v : list F) :
  Forall (fun x => isnan x = false) v -> strip_nan v = v.
Proof.
  unfold strip_nan. induction 1 as [|x v Hx _ IH]; simpl; [reflexivity|].
  rewrite Hx. simpl. f_equal. exact IH.
Qed.

Lemma strip_nan_padding (v : list F) :
  Forall (fun x => isnan x = true) v -> strip_nan v = [].
Proof.
  unfold strip_nan. induction 1 as [|x v Hx _ IH]; simpl; [reflexivity|].
  rewrite Hx. simpl. exact IH.
Qed.

Lemma strip_nan_clean (v : list F) : Forall (fun x => isnan x = false) (strip_nan v).
Proof.
  unfold strip_nan. induction v as [|x v IH]; simpl; [constructor|].
  destruct (isnan x) eqn:Hx; simpl; [exact IH|].
  constructor; assumption.
Qed.

Lemma strip_trailing_nan_padding (v : list F) :
  Forall (fun x => isnan x = true) v -> strip_trailing_nan v = [].
Proof.
  induction 1 as [|x v Hx _ IH]; simpl; [reflexivity|]. rewrite IH, Hx. reflexivity.
Qed.

Lemma strip_trailing_nan_valid (valid padding : list F) :
  Forall (fun x => isnan x = false) valid ->
  Forall (fun x => isnan x = true) padding ->
  strip_trailing_nan (valid ++ padding) = valid.
Proof.
  intros Hvalid Hpad. induction Hvalid as [|x v Hx _ IH]; simpl.
  - apply strip_trailing_nan_padding, Hpad.
  - rewrite IH. destruct v; [rewrite Hx|]; reflexivity.
Qed.

(** C6, as amended. The first step of [evaluate] removes every NaN entry of
    every forecast series, wherever it stands, and keeps the other entries in
    order; nothing later sees the entries removed. Where the NaN entries are
    all trailing padding, what is left is the valid prefix, as stripping the
    trailing entries would leave it. *)
Theorem evaluate_strips_every_nan
    (DATASETS_PATH : string)
    (smape_2 : list (list F) -> list (list F) -> list (list F))
    (mase : list F -> list F -> list F -> Z -> F)
    (self : M4Summary F) (forecast : list (list F)) (w : World F) :
  evaluate DATASETS_PATH smape_2 mase self forecast w
    = evaluate DATASETS_PATH smape_2 mase self (map strip_nan forecast) w /\
  (forall forecast',
     map strip_nan forecast' = map strip_nan forecast ->
     evaluate DATASETS_PATH smape_2 mase self forecast' w
       = evaluate DATASETS_PATH smape_2 mase self forecast w) /\
  Forall (Forall (fun x => isnan x = false)) (map strip_nan forecast) /\
  (forall a x b,
     strip_nan (a ++ x :: b) =
     (strip_nan a ++ (if isnan x then [] else [x]) ++ strip_nan b)%list) /\
  (forall valid padding,
     Forall (fun x => isnan x = false) valid ->
     Forall (fun x => isnan x = true) padding ->
     strip_nan (valid ++ padding) = valid /\
     strip_trailing_nan (valid ++ padding) = valid).
Proof.
  assert (Hidem : map strip_nan (map strip_nan forecast) = map strip_nan forecast).
  { rewrite map_map. apply map_ext. intros v. apply strip_nan_valid, strip_nan_clean. }
  repeat split.
  - unfold evaluate. rewrite Hidem. reflexivity.
  - intros forecast' Heq. unfold evaluate. rewrite Heq. reflexivity.
  - apply Forall_forall. intros v Hv. apply list_elem_of_In, in_map_iff in Hv as (v0 & <- & _).
    apply strip_nan_clean.
  - intros a x b. rewrite strip_nan_app. f_equal.
    unfold strip_nan. simpl. destruct (isnan x); reflexivity.
  - rewrite strip_nan_app, (strip_nan_valid valid), (strip_nan_padding padding) by assumption.
    apply app_nil_r.
  - apply strip_trailing_nan_valid; assumption.
Qed.

End StripFacts.

Lemma evaluate_strips_every_nan_toy :
  Forall (fun x => isnan x = false) [5; 7]%float /\
  Forall (fun x => isnan x = true) [nan]%float /\
  strip_nan ([5; 7]%float ++ [nan])%list = [5; 7]%float /\
  strip_nan ([7]%float ++ nan :: [9]%float)%list = [7; 9]%float.
Proof.
  assert (Hvalid : Forall (fun x => isnan x = false) [5; 7]%float)
    by (repeat constructor).
  assert (Hpad : Forall (fun x => isnan x = true) [nan]%float) by (repeat constructor).
  split; [exact Hvalid|]. split; [exact Hpad|].
  destruct (evaluate_strips_every_nan Toy.root Toy.smape_2 Toy.mase Toy.session
              Toy.forecast Toy.world) as (_ & _ & _ & Hmid & Htrail).
  split; [apply (Htrail _ _ Hvalid Hpad)|].
  rewrite Hmid. reflexivity.
Defined.

(** C6 as stated fails: of the forecast 7, NaN, 9 the code keeps 7, 9, where
    stripping the trailing NaN entries leaves the series as it is. *)
Lemma interior_nan_is_stripped :
  nth 4 (map strip_nan Toy.forecast) [] = [7; 9]%float /\
  nth 4 (map strip_trailing_nan Toy.forecast) [] = [7; nan; 9]%float /\
  map strip_nan Toy.forecast <> map strip_trailing_nan Toy.forecast.
Proof.
  split; [reflexivity|]. split; [reflexivity|].
  intros Heq. apply (f_equal (fun l => length (nth 4 l []))) in Heq.
  vm_compute in Heq. discriminate.
Qed.

(** ** The five buckets *)

Lemma elem_of_buckets (k : string) :
  k ∈ buckets <->
  k = "Yearly" \/ k = "Quarterly" \/ k = "Monthly" \/ k = "Others" \/ k = "Average".
Proof. unfold buckets. rewrite !elem_of_cons, elem_of_nil. tauto. Qed.

Section ReportFacts.
Context {F : Type} `{NumPy F}.

Lemma owa_loop_buckets (mY mQ mM mO mA nY nQ nM nO nA sY sQ sM sO sA pY pQ pM pO pA : F) :
  let grouped_model_mases :=
    [("Yearly", mY); ("Quarterly", mQ); ("Monthly", mM); ("Others", mO); ("Average", mA)] in
  let grouped_naive2_mases :=
    [("Yearly", nY); ("Quarterly", nQ); ("Monthly", nM); ("Others", nO); ("Average", nA)] in
  let grouped_smapes :=
    [("Yearly", sY); ("Quarterly", sQ); ("Monthly", sM); ("Others", sO); ("Average", sA)] in
  let grouped_naive2_smapes :=
    [("Yearly", pY); ("Quarterly", pQ); ("Monthly", pM); ("Others", pO); ("Average", pA)] in
  for_each (owa_step grouped_model_mases grouped_naive2_mases
                     grouped_smapes grouped_naive2_smapes)
           (keys grouped_model_mases) [] =
  Ok [("Yearly", owa mY nY sY pY); ("Quarterly", owa mQ nQ sQ pQ);
      ("Monthly", owa mM nM sM pM); ("Others", owa mO nO sO pO);
      ("Average", owa mA nA sA pA)].
Proof. vm_compute. reflexivity. Qed.

Lemma round_all_buckets (vY vQ vM vO vA : F) :
  round_all [("Yearly", vY); ("Quarterly", vQ); ("Monthly", vM); ("Others", vO);
             ("Average", vA)] =
  [("Yearly", round3 vY); ("Quarterly", round3 vQ); ("Monthly", round3 vM);
   ("Others", round3 vO); ("Average", round3 vA)].
Proof. vm_compute. reflexivity. Qed.

End ReportFacts.

(** ** The loop over the categories *)

Lemma mask_select_group_values {A : Type} (a : list A) (labels : list string)
    (g : string) (l : list A) :
  mask_select a (eq_mask labels g) = Ok l -> l = group_values a labels g.
Proof.
  unfold mask_select, group_values, eq_mask.
  destruct (decide (length a = length (map (fun x => bool_decide (x = g)) labels)));
    [|discriminate].
  intros [= <-]. clear e. revert labels.
  induction a as [|x a IH]; intros [|y labels]; simpl; try reflexivity.
  destruct (bool_decide (y = g)); simpl; rewrite IH; reflexivity.
Qed.

Lemma item_head {A : Type} (l : list A) (x : A) : item l 0 = Ok x -> head l = Some x.
Proof. destruct l; simpl; [discriminate|]. intros [= ->]. reflexivity. Qed.

Lemma mapM_Ok_Forall2 {A B : Type} (f : A -> result B) (l : list A) (r : list B) :
  mapM f l = Ok r -> Forall2 (fun a b => f a = Ok b) l r.
Proof.
  revert r. induction l as [|a l IH]; intros r; simpl.
  - intros [= <-]. constructor.
  - destruct (f a) as [b|e] eqn:Hfa; simpl; [|discriminate].
    destruct (mapM f l) as [k|e]; simpl; [|discriminate].
    intros [= <-]. constructor; [exact Hfa|]. apply IH. reflexivity.
Qed.

Lemma item_Ok {A : Type} (l : list A) (i : nat) (x : A) : item l i = Ok x -> l !! i = Some x.
Proof. unfold item. destruct (l !! i); [intros [= ->]; reflexivity|discriminate]. Qed.

Section MaseFacts.
Context {F : Type} `{NumPy F}.
Variable smape_2 : list (list F) -> list (list F) -> list (list F).
Variable mase : list F -> list F -> list F -> Z -> F.

(** Every series that [mase_scores] is asked about is scored with the one
    frequency it is given. *)
Lemma mase_scores_Ok (forecast insample target : list (list F)) (frequency : Z)
    (n : nat) (scores : list F) :
  mase_scores mase forecast insample target frequency n = Ok scores ->
  length scores = n /\
  forall i, (i < n)%nat ->
    exists f ins out,
      forecast !! i = Some f /\ insample !! i = Some ins /\ target !! i = Some out /\
      scores !! i = Some (mase f ins out frequency).
Proof.
  unfold mase_scores. intros Hm. apply mapM_Ok_Forall2 in Hm.
  split.
  - apply Forall2_length in Hm. rewrite length_seq in Hm. symmetry. exact Hm.
  - intros i Hi.
    destruct (Forall2_lookup_l _ _ _ i i Hm) as (s & Hs & Hbody).
    { apply lookup_seq_lt. exact Hi. }
    destruct (item forecast i) as [f|] eqn:Hf; simpl in Hbody; [|discriminate].
    destruct (item insample i) as [ins|] eqn:Hins; simpl in Hbody; [|discriminate].
    destruct (item target i) as [out|] eqn:Hout; simpl in Hbody; [|discriminate].
    injection Hbody as <-.
    exists f, ins, out. auto using item_Ok.
Qed.

Variable self : M4Summary F.

Lemma group_step_scores (forecast naive2_forecasts : list (list F))
    (mm ns nm : gmap string F) (g : string) :
  group_step smape_2 mase self forecast naive2_forecasts (mm, ns, nm) g =
  match group_scores smape_2 mase self forecast naive2_forecasts g with
  | Ok (a, b, c) => Ok (<[g := a]> mm, <[g := b]> ns, <[g := c]> nm)
  | Raise e => Raise e
  end.
Proof.
  unfold group_step, group_scores.
  destruct (mask_select _ _) as [of_group|]; simpl; [|reflexivity].
  destruct (item of_group 0) as [frequency|]; simpl; [|reflexivity].
  destruct (mase_scores mase (group_values forecast _ _) _ _ _ _) as [model|]; simpl;
    [|reflexivity].
  destruct (mase_scores _ _ _ _ _ _) as [naive2|]; simpl; reflexivity.
Qed.

Lemma for_each_group_step (forecast naive2_forecasts : list (list F)) (l : list string)
    (mm0 ns0 nm0 mm ns nm : gmap string F) :
  for_each (group_step smape_2 mase self forecast naive2_forecasts) l (mm0, ns0, nm0)
    = Ok (mm, ns, nm) ->
  forall g, g ∈ l ->
    exists a b c,
      group_scores smape_2 mase self forecast naive2_forecasts g = Ok (a, b, c) /\
      mm !! g = Some a /\ ns !! g = Some b /\ nm !! g = Some c.
Proof.
  revert mm0 ns0 nm0.
  assert (Hkeep : forall l mm0 ns0 nm0,
            for_each (group_step smape_2 mase self forecast naive2_forecasts) l
                     (mm0, ns0, nm0) = Ok (mm, ns, nm) ->
            forall g, (g ∉ l) ->
              mm !! g = mm0 !! g /\ ns !! g = ns0 !! g /\ nm !! g = nm0 !! g).
  { clear l. induction l as [|x l IH]; intros mm0 ns0 nm0; cbn [for_each].
    - intros [= <- <- <-]. auto.
    - rewrite group_step_scores.
      destruct (group_scores _ _ _ _ _ x) as [[[a b] c]|]; simpl; [|discriminate].
      intros Hrest g Hg. apply not_elem_of_cons in Hg as [Hne Hg].
      destruct (IH _ _ _ Hrest g Hg) as (-> & -> & ->).
      rewrite !lookup_insert_ne by congruence. auto. }
  induction l as [|x l IH]; intros mm0 ns0 nm0; cbn [for_each].
  - intros _ g Hg. apply elem_of_nil in Hg. contradiction.
  - rewrite group_step_scores.
    destruct (group_scores _ _ _ _ _ x) as [[[a b] c]|] eqn:Hx; simpl; [|discriminate].
    intros Hrest g Hg.
    destruct (decide (g ∈ l)) as [Hin|Hnin]; [exact (IH _ _ _ Hrest g Hin)|].
    apply elem_of_cons in Hg as [->|Hg]; [|contradiction].
    destruct (Hkeep _ _ _ _ Hrest x Hnin) as (-> & -> & ->).
    rewrite !lookup_insert_eq. eauto 7.
Qed.

Lemma group_scores_Ok (forecast naive2_forecasts : list (list F)) (g : string) (a b c : F) :
  group_scores smape_2 mase self forecast naive2_forecasts g = Ok (a, b, c) ->
  let labels := groups (test_set self) in
  exists frequency model naive2,
    first_frequency self g = Some frequency /\
    mase_scores mase (group_values forecast labels g)
                (group_values (values (training_set self)) labels g)
                (group_values (values (test_set self)) labels g) frequency
                (length (group_values forecast labels g)) = Ok model /\
    mase_scores mase (group_values naive2_forecasts labels g)
                (group_values (values (training_set self)) labels g)
                (group_values (values (test_set self)) labels g) frequency
                (length (group_values forecast labels g)) = Ok naive2 /\
    a = np_mean model /\ c = np_mean naive2.
Proof.
  intros Hg. cbv zeta. unfold group_scores in Hg.
  destruct (mask_select _ _) as [of_group|] eqn:Hmask; simpl in Hg; [|discriminate].
  destruct (item of_group 0) as [frequency|] eqn:Hitem; simpl in Hg; [|discriminate].
  destruct (mase_scores mase (group_values forecast _ _) _ _ _ _) as [model|] eqn:Hmodel;
    simpl in Hg; [|discriminate].
  destruct (mase_scores mase (group_values naive2_forecasts _ _) _ _ _ _)
    as [naive2|] eqn:Hnaive2; simpl in Hg; [|discriminate].
  injection Hg as <- <- <-.
  exists frequency, model, naive2.
  split; [|auto].
  unfold first_frequency. rewrite <- (mask_select_group_values _ _ _ _ Hmask).
  apply item_head, Hitem.
Qed.

End MaseFacts.

(** ** Runs that return *)

Lemma group_values_length {A : Type} (a : list A) (labels : list string) (g : string) :
  length a = length labels ->
  length (group_values a labels g) = length (filter (fun x => x = g) labels).
Proof.
  unfold group_values. revert labels.
  induction a as [|x a IH]; intros [|y labels] Hlen; simpl in *; try discriminate;
    [reflexivity|].
  injection Hlen as Hlen. destruct (decide (y = g)) as [Heq|Hne].
  - rewrite bool_decide_true, filter_cons_True by exact Heq. simpl. f_equal. apply IH, Hlen.
  - rewrite bool_decide_false, filter_cons_False by exact Hne. apply IH, Hlen.
Qed.

Lemma filter_eq_nonempty (labels : list string) (g : string) :
  g ∈ labels -> (0 < length (filter (fun x => x = g) labels))%nat.
Proof.
  intros Hg. destruct (filter (fun x => x = g) labels) as [|y l] eqn:Hf; simpl; [|lia].
  exfalso. eapply (filter_nil_not_elem_of (fun x => x = g)); [exact Hf| |exact Hg].
  reflexivity.
Qed.

Lemma mapM_Ok_intro {A B : Type} (f : A -> result B) (l : list A) :
  (forall x, x ∈ l -> exists y, f x = Ok y) -> exists r, mapM f l = Ok r.
Proof.
  induction l as [|a l IH]; intros Hall; simpl; [eauto|].
  destruct (Hall a) as [b Hb]; [apply list_elem_of_here|]. rewrite Hb. simpl.
  destruct IH as [r Hr]; [intros x Hx; apply Hall, list_elem_of_further, Hx|].
  rewrite Hr. simpl. eauto.
Qed.

Section Success.
Context {F : Type} `{NumPy F}.
Variable DATASETS_PATH : string.
Variable smape_2 : list (list F) -> list (list F) -> list (list F).
Variable mase : list F -> list F -> list F -> Z -> F.
Variable self : M4Summary F.

Lemma mase_scores_succeeds (forecast insample target : list (list F)) (frequency : Z)
    (n : nat) :
  (n <= length forecast)%nat -> (n <= length insample)%nat -> (n <= length target)%nat ->
  exists scores, mase_scores mase forecast insample target frequency n = Ok scores.
Proof.
  intros Hf Hi Ht. unfold mase_scores. apply mapM_Ok_intro.
  intros i Hin. apply elem_of_seq in Hin as [_ Hin]. simpl in Hin.
  unfold item.
  destruct (lookup_lt_is_Some_2 forecast i) as [f ->]; [lia|].
  destruct (lookup_lt_is_Some_2 insample i) as [ins ->]; [lia|].
  destruct (lookup_lt_is_Some_2 target i) as [out ->]; [lia|].
  simpl. eauto.
Qed.

Lemma group_scores_succeeds (forecast : list (list F)) (rows : list (string * list F))
    (g : string) :
  aligned self forecast rows -> g ∈ groups (test_set self) ->
  exists a b c,
    group_scores smape_2 mase self (map strip_nan forecast) (naive2_rows rows) g
    = Ok (a, b, c).
Proof.
  intros (Hfc & Hrows & Htest & Htrain & Hfreq & _) Hg. unfold group_scores.
  unfold mask_select. rewrite decide_True by (unfold eq_mask; rewrite length_map; exact Hfreq).
  simpl.
  pose proof (filter_eq_nonempty _ _ Hg) as Hpos.
  assert (Hsel : map fst (List.filter snd (zip (frequencies (training_set self))
                                               (eq_mask (groups (test_set self)) g)))
                 = group_values (frequencies (training_set self)) (groups (test_set self)) g).
  { apply mask_select_group_values. unfold mask_select.
    rewrite decide_True by (unfold eq_mask; rewrite length_map; exact Hfreq). reflexivity. }
  rewrite Hsel.
  pose proof (group_values_length _ _ g Hfreq) as Hlen.
  destruct (group_values (frequencies (training_set self)) (groups (test_set self)) g)
    as [|frequency rest]; [simpl in Hlen; lia|]. simpl.
  assert (Hn : forall a : list (list F), length a = length (groups (test_set self)) ->
             length (group_values a (groups (test_set self)) g)
             = length (filter (fun x => x = g) (groups (test_set self))))
    by (intros a Ha; apply group_values_length, Ha).
  assert (Hstrip : length (map strip_nan forecast) = length (groups (test_set self)))
    by (rewrite length_map; exact Hfc).
  assert (Hnaive : length (naive2_rows rows) = length (groups (test_set self)))
    by (unfold naive2_rows; rewrite !length_map; exact Hrows).
  destruct (mase_scores_succeeds
              (group_values (map strip_nan forecast) (groups (test_set self)) g)
              (group_values (values (training_set self)) (groups (test_set self)) g)
              (group_values (values (test_set self)) (groups (test_set self)) g)
              frequency
              (length (group_values (map strip_nan forecast) (groups (test_set self)) g)))
    as [model ->]; [rewrite ?Hn by assumption; lia..|].
  destruct (mase_scores_succeeds
              (group_values (naive2_rows rows) (groups (test_set self)) g)
              (group_values (values (training_set self)) (groups (test_set self)) g)
              (group_values (values (test_set self)) (groups (test_set self)) g)
              frequency
              (length (group_values (map strip_nan forecast) (groups (test_set self)) g)))
    as [naive2 ->]; [rewrite ?Hn by assumption; lia..|].
  simpl. eauto.
Qed.

Lemma for_each_group_step_succeeds (forecast naive2_forecasts : list (list F))
    (l : list string) (mm0 ns0 nm0 : gmap string F) :
  (forall g, g ∈ l ->
     exists a b c, group_scores smape_2 mase self forecast naive2_forecasts g = Ok (a, b, c)) ->
  exists mm ns nm,
    for_each (group_step smape_2 mase self forecast naive2_forecasts) l (mm0, ns0, nm0)
    = Ok (mm, ns, nm).
Proof.
  revert mm0 ns0 nm0. induction l as [|x l IH]; intros mm0 ns0 nm0 Hall; cbn [for_each].
  - eauto.
  - rewrite group_step_scores.
    destruct (Hall x) as (a & b & c & ->); [apply list_elem_of_here|]. simpl.
    apply IH. intros g Hg. apply Hall, list_elem_of_further, Hg.
Qed.

Lemma summarize_groups_succeeds (scores : gmap string F) :
  (forall g, g ∈ categories -> is_Some (scores !! g)) ->
  exists summary, summarize_groups self scores = Ok summary.
Proof.
  intros Hall.
  destruct (summarize_groups_cases self scores)
    as [(sY & sQ & sM & sW & sD & sH & HY & HQ & HM & HW & HD & HH)|(k & Hk & Hnone & _)].
  - eexists. apply summarize_groups_eq; eassumption.
  - destruct (Hall k Hk) as [v Hv]. congruence.
Qed.

(** On aligned inputs, with the naive2 table in place, [evaluate] returns. *)
Lemma evaluate_succeeds (forecast : list (list F)) (rows : list (string * list F))
    (w : World F) :
  aligned self forecast rows ->
  files w !! NAIVE2_PATH DATASETS_PATH = Some (SeriesCsv rows) ->
  exists smapes owas,
    evaluate DATASETS_PATH smape_2 mase self forecast w =
    (Ok (smapes, owas), logged (EvRead (NAIVE2_PATH DATASETS_PATH)) w).
Proof.
  intros Hal Hfile. pose proof Hal as (_ & _ & _ & _ & _ & Hcat).
  destruct (summarize_groups_succeeds (smape_scores smape_2 self (map strip_nan forecast)))
    as [gs Hgs].
  { intros g Hg. rewrite smape_scores_lookup.
    rewrite decide_True by (apply Hcat, Hg). eauto. }
  destruct (for_each_group_step_succeeds (map strip_nan forecast) (naive2_rows rows)
              (np_unique (groups (test_set self))) ∅ ∅ ∅) as (mm & ns & nm & Hloop).
  { intros g Hg. apply group_scores_succeeds; [exact Hal|]. apply elem_of_np_unique, Hg. }
  assert (Hkeys : forall g, g ∈ categories ->
            is_Some (mm !! g) /\ is_Some (ns !! g) /\ is_Some (nm !! g)).
  { intros g Hg.
    destruct (for_each_group_step _ _ _ _ _ _ _ _ _ _ _ _ Hloop g)
      as (a & b & c & _ & -> & -> & ->); [apply elem_of_np_unique, Hcat, Hg|]. eauto. }
  destruct (summarize_groups_succeeds mm) as [gmm Hgmm]; [intros g Hg; apply Hkeys, Hg|].
  destruct (summarize_groups_succeeds ns) as [gns Hgns]; [intros g Hg; apply Hkeys, Hg|].
  destruct (summarize_groups_succeeds nm) as [gnm Hgnm]; [intros g Hg; apply Hkeys, Hg|].
  unfold evaluate. rewrite Hgs, bind_lift_Ok.
  unfold mbind at 1, io_bind at 1, open_read. rewrite Hfile.
  cbn [series_rows]. rewrite bind_lift_Ok, Hloop, bind_lift_Ok.
  rewrite Hgmm, bind_lift_Ok, Hgns, bind_lift_Ok, Hgnm, bind_lift_Ok.
  destruct (summarize_groups_shape _ _ _ Hgs) as (? & ? & ? & ? & ? & ->).
  destruct (summarize_groups_shape _ _ _ Hgmm) as (? & ? & ? & ? & ? & ->).
  destruct (summarize_groups_shape _ _ _ Hgns) as (? & ? & ? & ? & ? & ->).
  destruct (summarize_groups_shape _ _ _ Hgnm) as (? & ? & ? & ? & ? & ->).
  rewrite owa_loop_buckets, bind_lift_Ok. eauto.
Qed.

End Success.

(** ** What a run returns *)

(** From a successful run to the five values of each of its four summaries. *)
Ltac evaluate_inversion Hev :=
  let rows := fresh "rows" in
  let mm := fresh "model_mases" in
  let ns := fresh "naive2_smapes" in
  let nm := fresh "naive2_mases" in
  let gs := fresh "gs" in
  let gmm := fresh "gmm" in
  let gns := fresh "gns" in
  let gnm := fresh "gnm" in
  let gowa := fresh "gowa" in
  let Hfile := fresh "Hfile" in
  let Hgs := fresh "Hgs" in
  let Hloop := fresh "Hloop" in
  let Hgmm := fresh "Hgmm" in
  let Hgns := fresh "Hgns" in
  let Hgnm := fresh "Hgnm" in
  let Howa := fresh "Howa" in
  apply evaluate_Ok_inv in Hev
    as (rows & mm & ns & nm & gs & gmm & gns & gnm & gowa
        & Hfile & Hgs & Hloop & Hgmm & Hgns & Hgnm & Howa & -> & -> & ->);
  pose proof (summarize_groups_shape _ _ _ Hgs) as (? & ? & ? & ? & ? & ->);
  pose proof (summarize_groups_shape _ _ _ Hgmm) as (? & ? & ? & ? & ? & ->);
  pose proof (summarize_groups_shape _ _ _ Hgns) as (? & ? & ? & ? & ? & ->);
  pose proof (summarize_groups_shape _ _ _ Hgnm) as (? & ? & ? & ? & ? & ->);
  rewrite owa_loop_buckets in Howa; injection Howa as <-;
  exists rows, mm, ns, nm; do 4 eexists;
  split; [exact Hfile|]; split; [exact Hloop|]; split; [exact Hgs|];
  split; [exact Hgmm|]; split; [exact Hgns|]; split; [exact Hgnm|].

Section Report.
Context {F : Type} `{NumPy F}.
Variable DATASETS_PATH : string.
Variable smape_2 : list (list F) -> list (list F) -> list (list F).
Variable mase : list F -> list F -> list F -> Z -> F.
Variable self : M4Summary F.

(** C3. In a run of [evaluate] that returns, the four per-category score
    maps are summarized first, and the combined score of every bucket [k] is
    (model mase [k] / naive2 mase [k] + model smape [k] / naive2 smape [k]) / 2
    over the values of those summaries; the second map returned is that map
    of combined scores, passed through [round_all]. *)
Theorem evaluate_combines_summaries (forecast : list (list F)) (w w' : World F)
    (smapes owas : list (string * F)) :
  evaluate DATASETS_PATH smape_2 mase self forecast w = (Ok (smapes, owas), w') ->
  exists rows model_mases naive2_smapes naive2_mases
         grouped_smapes grouped_model_mases grouped_naive2_smapes grouped_naive2_mases,
    files w !! NAIVE2_PATH DATASETS_PATH = Some (SeriesCsv rows) /\
    for_each (group_step smape_2 mase self (map strip_nan forecast) (naive2_rows rows))
             (np_unique (groups (test_set self))) (∅, ∅, ∅)
      = Ok (model_mases, naive2_smapes, naive2_mases) /\
    summarize_groups self (smape_scores smape_2 self (map strip_nan forecast))
      = Ok grouped_smapes /\
    summarize_groups self model_mases = Ok grouped_model_mases /\
    summarize_groups self naive2_smapes = Ok grouped_naive2_smapes /\
    summarize_groups self naive2_mases = Ok grouped_naive2_mases /\
    exists grouped_owa,
      owas = round_all grouped_owa /\
      keys grouped_owa = keys grouped_model_mases /\
      forall k, k ∈ keys grouped_model_mases ->
        exists model_relative baseline_relative model_percentage baseline_percentage,
          getitem grouped_model_mases k = Ok model_relative /\
          getitem grouped_naive2_mases k = Ok baseline_relative /\
          getitem grouped_smapes k = Ok model_percentage /\
          getitem grouped_naive2_smapes k = Ok baseline_percentage /\
          getitem grouped_owa k =
            Ok (div (add (div model_relative baseline_relative)
                         (div model_percentage baseline_percentage))
                    (of_int 2)).
Proof.
  intros Hev. evaluate_inversion Hev.
  eexists. split; [reflexivity|]. split; [reflexivity|].
  intros k Hk. change (k ∈ buckets) in Hk. apply elem_of_buckets in Hk.
  destruct Hk as [->|[->|[->|[->| ->]]]];
    do 4 eexists; repeat split; vm_compute; reflexivity.
Qed.

(** C5. Both maps that [evaluate] returns have the keys Yearly, Quarterly,
    Monthly, Others, Average, in this order. Each value of the first is the
    summarized smape of its bucket after [np.round(_, 3)]; each value of the
    second is the rounding of the combined score computed from the unrounded
    summaries. On aligned inputs, with the naive2 table in place, [evaluate]
    does return. *)
Theorem evaluate_report (forecast : list (list F)) (w : World F) :
  (forall rows,
     aligned self forecast rows ->
     files w !! NAIVE2_PATH DATASETS_PATH = Some (SeriesCsv rows) ->
     exists smapes owas,
       evaluate DATASETS_PATH smape_2 mase self forecast w =
       (Ok (smapes, owas), logged (EvRead (NAIVE2_PATH DATASETS_PATH)) w)) /\
  (forall smapes owas w',
     evaluate DATASETS_PATH smape_2 mase self forecast w = (Ok (smapes, owas), w') ->
     keys smapes = buckets /\ keys owas = buckets /\
     exists rows model_mases naive2_smapes naive2_mases
            grouped_smapes grouped_model_mases grouped_naive2_smapes grouped_naive2_mases,
       files w !! NAIVE2_PATH DATASETS_PATH = Some (SeriesCsv rows) /\
       for_each (group_step smape_2 mase self (map strip_nan forecast) (naive2_rows rows))
                (np_unique (groups (test_set self))) (∅, ∅, ∅)
         = Ok (model_mases, naive2_smapes, naive2_mases) /\
       summarize_groups self (smape_scores smape_2 self (map strip_nan forecast))
         = Ok grouped_smapes /\
       summarize_groups self model_mases = Ok grouped_model_mases /\
       summarize_groups self naive2_smapes = Ok grouped_naive2_smapes /\
       summarize_groups self naive2_mases = Ok grouped_naive2_mases /\
       forall k, k ∈ buckets ->
         exists ms mm nm ns,
           getitem grouped_smapes k = Ok ms /\
           getitem grouped_model_mases k = Ok mm /\
           getitem grouped_naive2_mases k = Ok nm /\
           getitem grouped_naive2_smapes k = Ok ns /\
           getitem smapes k = Ok (round3 ms) /\
           getitem owas k = Ok (round3 (owa mm nm ms ns))).
Proof.
  split; [intros rows; apply evaluate_succeeds|].
  intros smapes owas w' Hev.
  assert (Hkeys : keys smapes = buckets /\ keys owas = buckets).
  { apply evaluate_Ok_inv in Hev
      as (rows & mm & ns & nm & gs & gmm & gns & gnm & gowa
          & Hfile & Hgs & Hloop & Hgmm & Hgns & Hgnm & Howa & -> & -> & ->).
    pose proof (summarize_groups_shape _ _ _ Hgs) as (? & ? & ? & ? & ? & ->).
    pose proof (summarize_groups_shape _ _ _ Hgmm) as (? & ? & ? & ? & ? & ->).
    pose proof (summarize_groups_shape _ _ _ Hgns) as (? & ? & ? & ? & ? & ->).
    pose proof (summarize_groups_shape _ _ _ Hgnm) as (? & ? & ? & ? & ? & ->).
    rewrite owa_loop_buckets in Howa. injection Howa as <-.
    rewrite !round_all_buckets. split; reflexivity. }
  destruct Hkeys as [Hks Hko]. split; [exact Hks|]. split; [exact Hko|].
  evaluate_inversion Hev.
  intros k Hk. apply elem_of_buckets in Hk. rewrite !round_all_buckets.
  destruct Hk as [->|[->|[->|[->| ->]]]];
    do 4 eexists; repeat split; vm_compute; reflexivity.
Qed.

End Report.

Lemma toy_run :
  evaluate Toy.root Toy.smape_2 Toy.mase Toy.session Toy.forecast Toy.world =
  (Ok (Toy.expected_smapes, Toy.expected_owas),
   logged (EvRead (NAIVE2_PATH Toy.root)) Toy.world).
Proof. vm_compute. reflexivity. Qed.

Lemma evaluate_combines_summaries_toy :
  evaluate Toy.root Toy.smape_2 Toy.mase Toy.session Toy.forecast Toy.world =
  (Ok (Toy.expected_smapes, Toy.expected_owas),
   logged (EvRead (NAIVE2_PATH Toy.root)) Toy.world) /\
  exists grouped_owa,
    Toy.expected_owas = round_all grouped_owa /\ keys grouped_owa = buckets.
Proof.
  split; [exact toy_run|].
  destruct (evaluate_combines_summaries _ _ _ _ _ _ _ _ _ toy_run)
    as (rows & mm & ns & nm & gs & gmm & gns & gnm & _ & _ & _ & Hgmm & _ & _
        & gowa & Hround & Hkeys & _).
  exists gowa. split; [exact Hround|]. rewrite Hkeys.
  destruct (summarize_groups_shape _ _ _ Hgmm) as (? & ? & ? & ? & ? & ->). reflexivity.
Defined.

(** The combined score on the numbers of section 8 of the specification. *)
Example owa_sec8 :
  owa 0.8%float 1.0%float 10.0%float 12.0%float
    = ((0.8 / 1.0 + 10.0 / 12.0) / 2)%float /\
  round3 (owa 0.8%float 1.0%float 10.0%float 12.0%float) = 0.817%float.
Proof. split; reflexivity. Qed.

Lemma toy_aligned : aligned Toy.session Toy.forecast Toy.naive2_table.
Proof.
  repeat split. intros g Hg. apply elem_of_categories in Hg.
  apply (bool_decide_unpack _).
  destruct Hg as [->|[->|[->|[->|[->| ->]]]]]; vm_compute; exact I.
Qed.

Lemma evaluate_report_toy :
  aligned Toy.session Toy.forecast Toy.naive2_table /\
  evaluate Toy.root Toy.smape_2 Toy.mase Toy.session Toy.forecast Toy.world =
  (Ok (Toy.expected_smapes, Toy.expected_owas),
   logged (EvRead (NAIVE2_PATH Toy.root)) Toy.world) /\
  keys Toy.expected_smapes = buckets /\ keys Toy.expected_owas = buckets /\
  forall k, k ∈ buckets ->
    exists ms mm nm ns,
      getitem Toy.expected_smapes k = Ok (round3 ms) /\
      getitem Toy.expected_owas k = Ok (round3 (owa mm nm ms ns)).
Proof.
  destruct (evaluate_report Toy.root Toy.smape_2 Toy.mase Toy.session Toy.forecast
              Toy.world) as [Hreturns Hshape].
  split; [exact toy_aligned|].
  destruct (Hreturns Toy.naive2_table toy_aligned) as (smapes & owas & Hrun);
    [reflexivity|].
  assert (Heq : smapes = Toy.expected_smapes /\ owas = Toy.expected_owas).
  { rewrite toy_run in Hrun. injection Hrun as <- <-. split; reflexivity. }
  destruct Heq as [-> ->]. split; [exact Hrun|].
  destruct (Hshape _ _ _ Hrun)
    as (Hks & Hko & rows & mm & ns & nm & gs & gmm & gns & gnm & _ & _ & _ & _ & _ & _ & Hall).
  split; [exact Hks|]. split; [exact Hko|].
  intros k Hk. destruct (Hall k Hk) as (ms & m & n & p & _ & _ & _ & _ & Hs & Ho).
  exists ms, m, n, p. split; assumption.
Defined.

(** ** Loading, and running twice *)

Section SessionFacts.
Context {F : Type} `{NumPy F}.
Variable DATASETS_PATH : string.
Variable url_file_name : string -> string.
Variable smape_2 : list (list F) -> list (list F) -> list (list F).
Variable mase : list F -> list F -> list F -> Z -> F.

Lemma load_reads_only (training : bool) :
  reads_only (load DATASETS_PATH url_file_name training : IO F (M4Dataset F)).
Proof.
  unfold load. apply reads_only_bind; [apply reads_only_open_read|]. intros f.
  apply reads_only_bind; [apply reads_only_lift|]. intros m4_info.
  apply reads_only_bind; [apply reads_only_np_load|]. intros v.
  apply reads_only_ret.
Qed.

Lemma init_reads_only : reads_only (init DATASETS_PATH url_file_name : IO F (M4Summary F)).
Proof.
  unfold init. apply reads_only_bind; [apply load_reads_only|]. intros training.
  apply reads_only_bind; [apply load_reads_only|]. intros test.
  apply reads_only_ret.
Qed.

Lemma evaluate_reads_only (self : M4Summary F) (forecast : list (list F)) :
  reads_only (evaluate DATASETS_PATH smape_2 mase self forecast).
Proof.
  unfold evaluate.
  apply reads_only_bind; [apply reads_only_lift|]. intros gs.
  apply reads_only_bind; [apply reads_only_open_read|]. intros table.
  apply reads_only_bind; [apply reads_only_lift|]. intros rows.
  apply reads_only_bind; [apply reads_only_lift|]. intros [[mm ns] nm].
  apply reads_only_bind; [apply reads_only_lift|]. intros gmm.
  apply reads_only_bind; [apply reads_only_lift|]. intros gns.
  apply reads_only_bind; [apply reads_only_lift|]. intros gnm.
  apply reads_only_bind; [apply reads_only_lift|]. intros gowa.
  apply reads_only_ret.
Qed.

(** Loading a session and evaluating a forecast write no file: files and
    directories are after the call what they were before it. Hence the same
    call made again returns the same result, and loading again returns the
    same session, with the same groupings. *)
Lemma evaluate_rereads (self : M4Summary F) (forecast : list (list F)) (w : World F) :
  let run := evaluate DATASETS_PATH smape_2 mase self forecast in
  let start : IO F (M4Summary F) := init DATASETS_PATH url_file_name in
  (files (snd (run w)) = files w /\ dirs (snd (run w)) = dirs w /\
   fst (run (snd (run w))) = fst (run w)) /\
  (files (snd (start w)) = files w /\ dirs (snd (start w)) = dirs w /\
   fst (start (snd (start w))) = fst (start w)) /\
  (forall w2 : World F, files w2 = files w ->
     fst (run w2) = fst (run w) /\ fst (start w2) = fst (start w)) /\
  (forall (first second : M4Summary F) (g : string),
     fst (start w) = Ok first -> fst (start (snd (start w))) = Ok second ->
     group_values (values (test_set first)) (groups (test_set first)) g =
     group_values (values (test_set second)) (groups (test_set second)) g /\
     group_values (values (training_set first)) (groups (test_set first)) g =
     group_values (values (training_set second)) (groups (test_set second)) g).
Proof.
  intros run start.
  pose proof (evaluate_reads_only self forecast) as Hrun.
  pose proof init_reads_only as Hstart.
  destruct (Hrun w) as (Hf & Hd & _ & Hdet).
  destruct (Hstart w) as (Hf' & Hd' & _ & Hdet').
  split; [|split; [|split]].
  - repeat split; try assumption. apply reads_only_repeat, Hrun.
  - repeat split; try assumption. apply reads_only_repeat, Hstart.
  - intros w2 Hw2. split; [apply Hdet|apply Hdet']; exact Hw2.
  - intros first second g Hfirst Hsecond.
    assert (Heq : second = first).
    { unfold start in Hsecond. rewrite (reads_only_repeat _ w Hstart) in Hsecond.
      fold start in Hsecond. congruence. }
    subst second. split; reflexivity.
Qed.

End SessionFacts.

(** ** Runs over the store of objects *)

Section StoreFacts.
Context {F : Type}.

Lemma after_bind {A B : Type} (m : Run F A) (f : A -> Run F B) (h : Store F) (w : World F)
    (Q : result B -> Store F -> World F -> Prop) :
  after m h w (fun r h' w' =>
                 match r with
                 | Ok a => after (f a) h' w' Q
                 | Raise e => Q (Raise e) h' w'
                 end) ->
  after (m ≫= f) h w Q.
Proof.
  unfold after, mbind, run_bind. destruct (m h w) as [[[a|e] h'] w']; simpl; auto.
Qed.

Lemma after_ret {A : Type} (a : A) (h : Store F) (w : World F) Q :
  Q (Ok a) h w -> after (mret a : Run F A) h w Q.
Proof. auto. Qed.

Lemma after_lift {A : Type} (r : result A) (h : Store F) (w : World F) Q :
  Q r h w -> after (run_lift r : Run F A) h w Q.
Proof. auto. Qed.

Lemma after_io {A : Type} (m : IO F A) (h : Store F) (w : World F) Q :
  Q (m w).1 h (m w).2 -> after (io m) h w Q.
Proof. unfold after, io. destruct (m w); auto. Qed.

Lemma after_new (o : object F) (h : Store F) (w : World F) Q :
  (forall h' l, store_kept h h' -> h !! l = None -> h' !! l = Some o -> Q (Ok l) h' w) ->
  after (new o) h w Q.
Proof.
  intros HQ. unfold after, new. cbn [fst snd]. apply HQ.
  - intros l x Hl. apply lookup_app_l_Some, Hl.
  - apply lookup_ge_None_2. lia.
  - rewrite lookup_app_r by lia. rewrite Nat.sub_diag. reflexivity.
Qed.

Lemma after_get (l : loc) (o : object F) (h : Store F) (w : World F) Q :
  h !! l = Some o -> Q (Ok o) h w -> after (get l) h w Q.
Proof. intros Hl HQ. unfold after, get. rewrite Hl. exact HQ. Qed.

Lemma after_put (l : loc) (o o' : object F) (h : Store F) (w : World F) Q :
  h !! l = Some o ->
  (forall h', h' !! l = Some o' -> (forall l', l' <> l -> h' !! l' = h !! l') ->
              length h' = length h -> Q (Ok tt) h' w) ->
  after (put l o') h w Q.
Proof.
  intros Hl HQ. unfold after, put. cbn [fst snd]. apply HQ.
  - apply list_lookup_insert_eq. eapply lookup_lt_Some, Hl.
  - intros l' Hne. apply list_lookup_insert_ne. auto.
  - apply length_insert.
Qed.


Lemma store_kept_refl (h : Store F) : store_kept h h.
Proof. intros l o Hl. exact Hl. Qed.

Lemma store_kept_trans (h1 h2 h3 : Store F) :
  store_kept h1 h2 -> store_kept h2 h3 -> store_kept h1 h3.
Proof. intros H12 H23 l o Hl. apply H23, H12, Hl. Qed.

Lemma store_kept_None (h h' : Store F) (l : loc) :
  store_kept h h' -> h' !! l = None -> h !! l = None.
Proof.
  intros Hk Hn. destruct (h !! l) as [o|] eqn:Hl; [|reflexivity].
  apply Hk in Hl. congruence.
Qed.

(** An update at a location that [h0] has not leaves the objects of [h0]. *)
Lemma store_kept_put (h0 h h' : Store F) (l : loc) :
  store_kept h0 h -> h0 !! l = None ->
  (forall l', l' <> l -> h' !! l' = h !! l') -> store_kept h0 h'.
Proof.
  intros Hk Hn Hsame l' o Hl'. rewrite Hsame; [apply Hk, Hl'|].
  intros ->. congruence.
Qed.

Lemma dataset_at_kept (h h' : Store F) (l : loc) (d : M4Dataset F) :
  dataset_at h l = Some d -> store_kept h h' -> dataset_at h' l = Some d.
Proof.
  unfold dataset_at, str_at, int_at, seq_at. intros Hd Hk.
  destruct (h !! l) as [[| | | | |i g f hz v|]|] eqn:Hl; try discriminate.
  rewrite (Hk _ _ Hl).
  destruct (h !! i) as [[a| | | | | |]|] eqn:Hi; try discriminate. rewrite (Hk _ _ Hi).
  destruct (h !! g) as [[a'| | | | | |]|] eqn:Hg; try discriminate. rewrite (Hk _ _ Hg).
  destruct (h !! f) as [[|a''| | | | |]|] eqn:Hf; try discriminate. rewrite (Hk _ _ Hf).
  destruct (h !! hz) as [[|a3| | | | |]|] eqn:Hhz; try discriminate. rewrite (Hk _ _ Hhz).
  destruct (h !! v) as [[| |a4| | | |]|] eqn:Hv; try discriminate. rewrite (Hk _ _ Hv).
  exact Hd.
Qed.

Lemma session_at_kept (h h' : Store F) (l : loc) (s : M4Summary F) :
  session_at h l = Some s -> store_kept h h' -> session_at h' l = Some s.
Proof.
  unfold session_at. intros Hs Hk.
  destruct (h !! l) as [[| | | | | |tr te]|] eqn:Hl; try discriminate.
  rewrite (Hk _ _ Hl).
  destruct (dataset_at h tr) as [a|] eqn:Htr; [|discriminate].
  rewrite (dataset_at_kept _ _ _ _ Htr Hk).
  destruct (dataset_at h te) as [b|] eqn:Hte; [|discriminate].
  rewrite (dataset_at_kept _ _ _ _ Hte Hk). exact Hs.
Qed.

Lemma same_but_refl (ls : list loc) (h : Store F) : same_but ls h h.
Proof. intros l _. reflexivity. Qed.

Lemma same_but_trans (ls : list loc) (h1 h2 h3 : Store F) :
  same_but ls h1 h2 -> same_but ls h2 h3 -> same_but ls h1 h3.
Proof. intros H12 H23 l Hl. rewrite (H23 l Hl). apply H12, Hl. Qed.

Lemma same_but_put (ls : list loc) (l : loc) (h h' : Store F) :
  l ∈ ls -> (forall l', l' <> l -> h' !! l' = h !! l') -> same_but ls h h'.
Proof. intros Hin Hsame l' Hl'. apply Hsame. intros ->. exact (Hl' Hin). Qed.

(** Updates at locations that [h0] has not leave the objects of [h0]. *)
Lemma store_kept_same_but (ls : list loc) (h0 h h' : Store F) :
  store_kept h0 h -> Forall (fun l => h0 !! l = None) ls -> same_but ls h h' ->
  store_kept h0 h'.
Proof.
  intros Hk Hnone Hsame l o Hl. rewrite Hsame; [apply Hk, Hl|].
  intros Hin. rewrite Forall_forall in Hnone. rewrite (Hnone _ Hin) in Hl. discriminate.
Qed.

(** The objects behind a session. *)
Lemma session_at_inv (h : Store F) (self : loc) (s : M4Summary F) :
  session_at h self = Some s ->
  exists tr te i g f hz v i' g' f' hz' v',
    h !! self = Some (SummaryObject tr te) /\
    h !! tr = Some (DatasetObject i g f hz v) /\
    h !! te = Some (DatasetObject i' g' f' hz' v') /\
    h !! f = Some (IntArray (frequencies (training_set s))) /\
    h !! v = Some (SeqArray (values (training_set s))) /\
    h !! g' = Some (StrArray (groups (test_set s))) /\
    h !! v' = Some (SeqArray (values (test_set s))).
Proof.
  unfold session_at. intros Hs.
  destruct (h !! self) as [[| | | | | |tr te]|] eqn:Hl; try discriminate.
  unfold dataset_at, str_at, int_at, seq_at in Hs.
  destruct (h !! tr) as [[| | | | |i g f hz v|]|] eqn:Htr; try discriminate.
  destruct (h !! i) as [[a| | | | | |]|] eqn:Hi; try discriminate.
  destruct (h !! g) as [[a'| | | | | |]|] eqn:Hg; try discriminate.
  destruct (h !! f) as [[|a''| | | | |]|] eqn:Hf; try discriminate.
  destruct (h !! hz) as [[|a3| | | | |]|] eqn:Hhz; try discriminate.
  destruct (h !! v) as [[| |a4| | | |]|] eqn:Hv; try discriminate.
  cbn in Hs.
  destruct (h !! te) as [[| | | | |i' g' f' hz' v'|]|] eqn:Hte; try discriminate.
  destruct (h !! i') as [[b| | | | | |]|] eqn:Hi'; try discriminate.
  destruct (h !! g') as [[b'| | | | | |]|] eqn:Hg'; try discriminate.
  destruct (h !! f') as [[|b''| | | | |]|] eqn:Hf'; try discriminate.
  destruct (h !! hz') as [[|b3| | | | |]|] eqn:Hhz'; try discriminate.
  destruct (h !! v') as [[| |b4| | | |]|] eqn:Hv'; try discriminate.
  cbn in Hs. injection Hs as <-. cbn.
  exists tr, te, i, g, f, hz, v, i', g', f', hz', v'. repeat split; assumption.
Qed.

End StoreFacts.

(** The locations that two facts about one store tell apart, and the facts
    carried over an update elsewhere or into a store that keeps them. *)
Ltac told_apart :=
  repeat match goal with
         | Hx : ?h !! ?lx = Some _, Hn : ?h !! ?l = None |- _ =>
             lazymatch goal with
             | _ : lx <> l |- _ => fail
             | _ => assert (lx <> l) by (intros ->; rewrite Hn in Hx; discriminate)
             end
         end.

Ltac apart := first [assumption | apply not_eq_sym; assumption].

Ltac carried Hsame :=
  repeat match goal with
         | Hx : ?h !! ?lx = Some _ |- _ =>
             lazymatch type of Hsame with
             | forall l', l' <> _ -> _ !! l' = h !! l' =>
                 rewrite <- (Hsame lx) in Hx by apart
             | same_but _ h _ =>
                 rewrite <- (Hsame lx) in Hx
                   by (rewrite ?not_elem_of_cons; repeat split;
                       first [apart | apply not_elem_of_nil])
             end
         end.

Ltac kept_on Hkept :=
  repeat match goal with
         | Hx : ?h !! _ = Some _ |- _ =>
             lazymatch type of Hkept with
             | store_kept h _ => apply Hkept in Hx
             end
         end.

Section ObjectFacts.
Context {F : Type} `{NumPy F}.

Lemma after_seq_array (l : loc) (a : list (list F)) (h : Store F) (w : World F) Q :
  h !! l = Some (SeqArray a) -> Q (Ok a) h w -> after (seq_array l) h w Q.
Proof.
  intros Hl HQ. unfold seq_array. apply after_bind, (after_get _ _ _ _ _ Hl). exact HQ.
Qed.

Lemma after_dict_items (d : loc) (m : list (string * F)) (h : Store F) (w : World F) Q :
  h !! d = Some (OrderedDict m) -> Q (Ok m) h w -> after (dict_items d) h w Q.
Proof.
  intros Hl HQ. unfold dict_items. apply after_bind, (after_get _ _ _ _ _ Hl). exact HQ.
Qed.

Lemma after_getitem_plain (d : loc) (m : gmap string F) (k : string) (h : Store F)
    (w : World F) Q :
  h !! d = Some (PlainDict m) -> Q (lookup_key m k) h w -> after (dict_getitem d k) h w Q.
Proof.
  intros Hl HQ. unfold dict_getitem. apply after_bind, (after_get _ _ _ _ _ Hl).
  exact HQ.
Qed.

Lemma after_getitem_ordered (d : loc) (m : list (string * F)) (k : string) (h : Store F)
    (w : World F) Q :
  h !! d = Some (OrderedDict m) -> Q (getitem m k) h w -> after (dict_getitem d k) h w Q.
Proof.
  intros Hl HQ. unfold dict_getitem. apply after_bind, (after_get _ _ _ _ _ Hl).
  exact HQ.
Qed.

Lemma after_setitem_plain (d : loc) (m : gmap string F) (k : string) (v : F)
    (h : Store F) (w : World F) Q :
  h !! d = Some (PlainDict m) ->
  (forall h', h' !! d = Some (PlainDict (<[k := v]> m)) ->
              (forall l', l' <> d -> h' !! l' = h !! l') ->
              length h' = length h -> Q (Ok tt) h' w) ->
  after (dict_setitem d k v) h w Q.
Proof.
  intros Hl HQ. unfold dict_setitem. apply after_bind, (after_get _ _ _ _ _ Hl).
  apply (after_put _ _ _ _ _ _ Hl). exact HQ.
Qed.

Lemma after_setitem_ordered (d : loc) (m : list (string * F)) (k : string) (v : F)
    (h : Store F) (w : World F) Q :
  h !! d = Some (OrderedDict m) ->
  (forall h', h' !! d = Some (OrderedDict (setitem m k v)) ->
              (forall l', l' <> d -> h' !! l' = h !! l') ->
              length h' = length h -> Q (Ok tt) h' w) ->
  after (dict_setitem d k v) h w Q.
Proof.
  intros Hl HQ. unfold dict_setitem. apply after_bind, (after_get _ _ _ _ _ Hl).
  apply (after_put _ _ _ _ _ _ Hl). exact HQ.
Qed.

Section Session.
Variable h0 : Store F.
Variable self : loc.
Variable s : M4Summary F.
Hypothesis Hsession : session_at h0 self = Some s.

Lemma after_test_set_groups (h : Store F) (w : World F) Q :
  store_kept h0 h -> Q (Ok (groups (test_set s))) h w ->
  after (Objects.test_set_groups self) h w Q.
Proof.
  intros Hk HQ.
  destruct (session_at_inv _ _ _ (session_at_kept _ _ _ _ Hsession Hk))
    as (tr & te & i & g & f & hz & v & i' & g' & f' & hz' & v'
        & Hself & Htr & Hte & Hf & Hv & Hg' & Hv').
  unfold Objects.test_set_groups, attr_test_set, attr_groups, str_array.
  apply after_bind, after_bind, (after_get _ _ _ _ _ Hself). apply after_ret.
  apply after_bind, after_bind, (after_get _ _ _ _ _ Hte). apply after_ret.
  apply after_bind, (after_get _ _ _ _ _ Hg'). exact HQ.
Qed.

Lemma after_test_set_values (h : Store F) (w : World F) Q :
  store_kept h0 h -> Q (Ok (values (test_set s))) h w ->
  after (Objects.test_set_values self) h w Q.
Proof.
  intros Hk HQ.
  destruct (session_at_inv _ _ _ (session_at_kept _ _ _ _ Hsession Hk))
    as (tr & te & i & g & f & hz & v & i' & g' & f' & hz' & v'
        & Hself & Htr & Hte & Hf & Hv & Hg' & Hv').
  unfold Objects.test_set_values, attr_test_set, attr_values, seq_array.
  apply after_bind, after_bind, (after_get _ _ _ _ _ Hself). apply after_ret.
  apply after_bind, after_bind, (after_get _ _ _ _ _ Hte). apply after_ret.
  apply after_bind, (after_get _ _ _ _ _ Hv'). exact HQ.
Qed.

Lemma after_training_set_frequencies (h : Store F) (w : World F) Q :
  store_kept h0 h -> Q (Ok (frequencies (training_set s))) h w ->
  after (Objects.training_set_frequencies self) h w Q.
Proof.
  intros Hk HQ.
  destruct (session_at_inv _ _ _ (session_at_kept _ _ _ _ Hsession Hk))
    as (tr & te & i & g & f & hz & v & i' & g' & f' & hz' & v'
        & Hself & Htr & Hte & Hf & Hv & Hg' & Hv').
  unfold Objects.training_set_frequencies, attr_training_set, attr_frequencies, int_array.
  apply after_bind, after_bind, (after_get _ _ _ _ _ Hself). apply after_ret.
  apply after_bind, after_bind, (after_get _ _ _ _ _ Htr). apply after_ret.
  apply after_bind, (after_get _ _ _ _ _ Hf). exact HQ.
Qed.

Lemma after_training_set_values (h : Store F) (w : World F) Q :
  store_kept h0 h -> Q (Ok (values (training_set s))) h w ->
  after (Objects.training_set_values self) h w Q.
Proof.
  intros Hk HQ.
  destruct (session_at_inv _ _ _ (session_at_kept _ _ _ _ Hsession Hk))
    as (tr & te & i & g & f & hz & v & i' & g' & f' & hz' & v'
        & Hself & Htr & Hte & Hf & Hv & Hg' & Hv').
  unfold Objects.training_set_values, attr_training_set, attr_values, seq_array.
  apply after_bind, after_bind, (after_get _ _ _ _ _ Hself). apply after_ret.
  apply after_bind, after_bind, (after_get _ _ _ _ _ Htr). apply after_ret.
  apply after_bind, (after_get _ _ _ _ _ Hv). exact HQ.
Qed.

Lemma after_group_count (g : string) (h : Store F) (w : World F) Q :
  store_kept h0 h -> Q (Ok (group_count s g)) h w ->
  after (Objects.group_count self g) h w Q.
Proof.
  intros Hk HQ. unfold Objects.group_count.
  apply after_bind, after_test_set_groups; [exact Hk|]. exact HQ.
Qed.


Lemma after_major_step (scores lws lss : loc) (m : gmap string F)
    (ws ss : list (string * F)) (g : string) (h : Store F) (w : World F) Q :
  store_kept h0 h -> h !! scores = Some (PlainDict m) ->
  h !! lws = Some (OrderedDict ws) -> h !! lss = Some (OrderedDict ss) ->
  scores <> lws -> scores <> lss -> lws <> lss ->
  h0 !! lws = None -> h0 !! lss = None ->
  (forall h' ws' ss',
     major_step s m (ws, ss) g = Ok (ws', ss') ->
     h' !! lws = Some (OrderedDict ws') -> h' !! lss = Some (OrderedDict ss') ->
     same_but [lws; lss] h h' -> Q (Ok tt) h' w) ->
  (forall h' e, major_step s m (ws, ss) g = Raise e -> same_but [lws; lss] h h' ->
                Q (Raise e) h' w) ->
  after (Objects.major_step self scores lws lss g) h w Q.
Proof.
  intros Hk Hscores Hws Hss Hne1 Hne2 Hne3 Hn1 Hn2 HOk HRaise.
  unfold Objects.major_step.
  apply after_bind, (after_getitem_plain _ _ _ _ _ _ Hscores).
  unfold lookup_key. destruct (m !! g) as [sc|] eqn:Hg.
  - assert (Hpure : major_step s m (ws, ss) g =
                    Ok (setitem ws g (mul sc (of_int (group_count s g))), setitem ss g sc))
      by (unfold major_step, lookup_key; rewrite Hg; reflexivity).
    apply after_bind, after_group_count; [exact Hk|].
    apply after_bind, (after_setitem_ordered _ _ _ _ _ _ _ Hws).
    intros h1 Hws1 Hsame1 _. carried Hsame1.
    apply after_bind, (after_getitem_plain _ _ _ _ _ _ Hscores).
    unfold lookup_key. rewrite Hg.
    apply (after_setitem_ordered _ _ _ _ _ _ _ Hss).
    intros h2 Hss2 Hsame2 _. carried Hsame2.
    apply (HOk h2 _ _ Hpure Hws1 Hss2).
    apply (same_but_trans _ _ h1);
      [eapply same_but_put, Hsame1|eapply same_but_put, Hsame2];
      rewrite !elem_of_cons; auto.
  - apply (HRaise h); [|apply same_but_refl].
    unfold major_step, lookup_key. rewrite Hg. reflexivity.
Qed.

Lemma after_minor_step (scores : loc) (m : gmap string F) (st : F * Z) (g : string)
    (h : Store F) (w : World F) Q :
  store_kept h0 h -> h !! scores = Some (PlainDict m) ->
  Q (minor_step s m st g) h w ->
  after (Objects.minor_step self scores st g) h w Q.
Proof.
  intros Hk Hscores HQ. destruct st as [others_score others_count].
  unfold Objects.minor_step, minor_step in *.
  apply after_bind, (after_getitem_plain _ _ _ _ _ _ Hscores).
  unfold lookup_key in *. destruct (m !! g) as [sc|] eqn:Hg.
  - apply after_bind, after_group_count; [exact Hk|].
    apply after_bind, after_group_count; [exact Hk|]. exact HQ.
  - exact HQ.
Qed.


Lemma after_major_loop (scores lws lss : loc) (m : gmap string F) (l : list string)
    (ws ss : list (string * F)) (h : Store F) (w : World F) Q :
  store_kept h0 h -> h !! scores = Some (PlainDict m) ->
  h !! lws = Some (OrderedDict ws) -> h !! lss = Some (OrderedDict ss) ->
  scores <> lws -> scores <> lss -> lws <> lss ->
  h0 !! lws = None -> h0 !! lss = None ->
  (forall h' ws' ss',
     for_each (major_step s m) l (ws, ss) = Ok (ws', ss') ->
     h' !! lws = Some (OrderedDict ws') -> h' !! lss = Some (OrderedDict ss') ->
     same_but [lws; lss] h h' -> Q (Ok tt) h' w) ->
  (forall h' e, for_each (major_step s m) l (ws, ss) = Raise e ->
                same_but [lws; lss] h h' -> Q (Raise e) h' w) ->
  after (run_for_each (fun _ g => Objects.major_step self scores lws lss g) l tt) h w Q.
Proof.
  revert ws ss h. induction l as [|g l IH];
    intros ws ss h Hk Hscores Hws Hss Hne1 Hne2 Hne3 Hn1 Hn2 HOk HRaise;
    cbn [run_for_each for_each].
  - apply after_ret, (HOk h ws ss eq_refl Hws Hss), same_but_refl.
  - apply after_bind, (after_major_step scores lws lss m ws ss g); try assumption.
    + intros h1 ws1 ss1 Hpure Hws1 Hss1 Hsame1.
      assert (Hk1 : store_kept h0 h1)
        by (apply (store_kept_same_but [lws; lss] _ h); auto).
      carried Hsame1.
      apply (IH ws1 ss1); try assumption.
      * intros h2 ws2 ss2 Hrest Hws2 Hss2 Hsame2.
        apply (HOk h2 ws2 ss2); [cbn [for_each]; rewrite Hpure; exact Hrest|assumption..|].
        exact (same_but_trans _ _ _ _ Hsame1 Hsame2).
      * intros h2 e Hrest Hsame2.
        apply (HRaise h2 e); [cbn [for_each]; rewrite Hpure; exact Hrest|].
        exact (same_but_trans _ _ _ _ Hsame1 Hsame2).
    + intros h1 e Hpure Hsame1. apply (HRaise h1 e); [cbn [for_each]; rewrite Hpure; reflexivity|exact Hsame1].
Qed.

Lemma after_minor_loop (scores : loc) (m : gmap string F) (l : list string) (st : F * Z)
    (h : Store F) (w : World F) Q :
  store_kept h0 h -> h !! scores = Some (PlainDict m) ->
  Q (for_each (minor_step s m) l st) h w ->
  after (run_for_each (Objects.minor_step self scores) l st) h w Q.
Proof.
  intros Hk Hscores. revert st. induction l as [|g l IH]; intros st HQ;
    cbn [run_for_each for_each] in *.
  - exact HQ.
  - apply after_bind, (after_minor_step scores m); [exact Hk|exact Hscores|].
    destruct (minor_step s m st g) as [st'|e]; [apply IH|]; exact HQ.
Qed.

Lemma after_summarize_groups (scores : loc) (m : gmap string F) (h : Store F)
    (w : World F) Q :
  store_kept h0 h -> h !! scores = Some (PlainDict m) ->
  (forall h' l summary,
     summarize_groups s m = Ok summary -> store_kept h h' -> h !! l = None ->
     h' !! l = Some (OrderedDict summary) -> Q (Ok l) h' w) ->
  (forall h' e, summarize_groups s m = Raise e -> store_kept h h' -> Q (Raise e) h' w) ->
  after (Objects.summarize_groups self scores) h w Q.
Proof.
  intros Hk0 Hscores HOk HRaise. unfold Objects.summarize_groups.
  apply after_bind, after_new. intros h1 lss Hk1 Hn1 Hss. told_apart. kept_on Hk1.
  apply after_bind, after_new. intros h2 lws Hk2 Hn2 Hws. told_apart. kept_on Hk2.
  pose proof (store_kept_None _ _ _ Hk1 Hn2) as Hn2'.
  pose proof (store_kept_trans _ _ _ Hk1 Hk2) as Hk.
  clear Hk1 Hk2 Hn2 h1.
  assert (Hfresh : Forall (fun l => h !! l = None) [lws; lss]) by (repeat constructor; assumption).
  pose proof (store_kept_None _ _ _ Hk0 Hn1) as Hn10.
  pose proof (store_kept_None _ _ _ Hk0 Hn2') as Hn20.
  assert (Hfresh0 : Forall (fun l => h0 !! l = None) [lws; lss])
    by (repeat constructor; assumption).
  pose proof (store_kept_trans _ _ _ Hk0 Hk) as Hk02.
  apply after_bind, (after_major_loop scores lws lss m major_groups [] []); try assumption;
    try apart.
  - intros h3 ws ss Hmajor Hws3 Hss3 Hsame3.
    pose proof (store_kept_same_but _ _ _ _ Hk02 Hfresh0 Hsame3) as Hk03.
    pose proof (store_kept_same_but _ _ _ _ Hk Hfresh Hsame3) as Hk3.
    carried Hsame3.
    apply after_bind, (after_minor_loop scores m); [exact Hk03|exact Hscores|].
    destruct (for_each (minor_step s m) minor_groups (of_int 0, 0))
      as [[others_score others_count]|e] eqn:Hminor.
    + apply after_bind, (after_setitem_ordered _ _ _ _ _ _ _ Hws3).
      intros h4 Hws4 Hsame4 _. carried Hsame4.
      apply after_bind, (after_setitem_ordered _ _ _ _ _ _ _ Hss3).
      intros h5 Hss5 Hsame5 _. carried Hsame5.
      assert (Hsame35 : same_but [lws; lss] h3 h5).
      { apply (same_but_trans _ _ h4);
          [eapply same_but_put, Hsame4|eapply same_but_put, Hsame5];
          rewrite !elem_of_cons; auto. }
      pose proof (store_kept_same_but _ _ _ _ Hk03 Hfresh0 Hsame35) as Hk05.
      pose proof (store_kept_same_but _ _ _ _ Hk3 Hfresh Hsame35) as Hk5.
      apply after_bind, (after_dict_items _ _ _ _ _ Hws4).
      apply after_bind, after_test_set_groups; [exact Hk05|].
      apply after_bind, (after_setitem_ordered _ _ _ _ _ _ _ Hss5).
      intros h6 Hss6 Hsame6 _.
      apply after_ret.
      refine (HOk h6 lss _ _ _ Hn1 Hss6).
      * unfold summarize_groups. rewrite Hmajor. cbn [mbind result_bind].
        rewrite Hminor. reflexivity.
      * apply (store_kept_same_but [lss] _ h5); [exact Hk5|repeat constructor; assumption|].
        eapply same_but_put, Hsame6. rewrite !elem_of_cons; auto.
    + apply (HRaise h3 e); [|exact Hk3].
      unfold summarize_groups. rewrite Hmajor. cbn [mbind result_bind].
      rewrite Hminor. reflexivity.
  - intros h3 e Hmajor Hsame3.
    apply (HRaise h3 e); [|exact (store_kept_same_but _ _ _ _ Hk Hfresh Hsame3)].
    unfold summarize_groups. rewrite Hmajor. reflexivity.
Qed.

Variable smape_2 : list (list F) -> list (list F) -> list (list F).
Variable mase : list F -> list F -> list F -> Z -> F.

Lemma after_smape_loop (f d : loc) (fcv : list (list F)) (gs : list string)
    (m : gmap string F) (h : Store F) (w : World F) Q :
  store_kept h0 h -> h !! f = Some (SeqArray fcv) -> h !! d = Some (PlainDict m) ->
  f <> d -> h0 !! d = None ->
  (forall h',
     h' !! d =
       Some (PlainDict
               (fold_left
                  (fun acc g =>
                     <[g := np_mean2
                              (smape_2 (group_values fcv (groups (test_set s)) g)
                                       (group_values (values (test_set s))
                                                     (groups (test_set s)) g))]> acc)
                  gs m)) ->
     same_but [d] h h' -> Q (Ok tt) h' w) ->
  after (run_for_each (fun _ g => Objects.smape_step smape_2 self f d g) gs tt) h w Q.
Proof.
  revert m h. induction gs as [|g gs IH]; intros m h Hk Hf Hd Hne Hn HQ;
    cbn [run_for_each fold_left].
  - apply after_ret, HQ; [exact Hd|apply same_but_refl].
  - apply after_bind. unfold Objects.smape_step.
    apply after_bind, (after_seq_array _ _ _ _ _ Hf).
    apply after_bind, after_test_set_groups; [exact Hk|].
    apply after_bind, after_test_set_values; [exact Hk|].
    apply after_bind, after_test_set_groups; [exact Hk|].
    apply (after_setitem_plain _ _ _ _ _ _ _ Hd).
    intros h1 Hd1 Hsame1 _. carried Hsame1.
    assert (Hs1 : same_but [d] h h1)
      by (eapply same_but_put, Hsame1; rewrite !elem_of_cons; auto).
    eapply IH; [|eassumption|exact Hd1|assumption..|].
    + apply (store_kept_same_but [d] _ h); [exact Hk|repeat constructor; exact Hn|exact Hs1].
    + intros h2 Hd2 Hsame2. apply HQ; [exact Hd2|].
      exact (same_but_trans _ _ _ _ Hs1 Hsame2).
Qed.

Lemma after_group_step (f n2 l1 l2 l3 : loc) (fcv n2v : list (list F))
    (mm ns nm : gmap string F) (g : string) (h : Store F) (w : World F) Q :
  store_kept h0 h ->
  h !! f = Some (SeqArray fcv) -> h !! n2 = Some (SeqArray n2v) ->
  h !! l1 = Some (PlainDict mm) -> h !! l2 = Some (PlainDict ns) ->
  h !! l3 = Some (PlainDict nm) ->
  l1 <> l2 -> l1 <> l3 -> l2 <> l3 ->
  (forall h' mm' ns' nm',
     group_step smape_2 mase s fcv n2v (mm, ns, nm) g = Ok (mm', ns', nm') ->
     h' !! l1 = Some (PlainDict mm') -> h' !! l2 = Some (PlainDict ns') ->
     h' !! l3 = Some (PlainDict nm') ->
     same_but [l1; l2; l3] h h' -> Q (Ok tt) h' w) ->
  (forall h' e, group_step smape_2 mase s fcv n2v (mm, ns, nm) g = Raise e ->
                same_but [l1; l2; l3] h h' -> Q (Raise e) h' w) ->
  after (Objects.group_step smape_2 mase self f n2 l1 l2 l3 g) h w Q.
Proof.
  intros Hk Hf Hn2 Hl1 Hl2 Hl3 Hne12 Hne13 Hne23 HOk HRaise.
  unfold Objects.group_step.
  apply after_bind, (after_seq_array _ _ _ _ _ Hf).
  apply after_bind, after_test_set_groups; [exact Hk|].
  apply after_bind, (after_seq_array _ _ _ _ _ Hn2).
  apply after_bind, after_test_set_groups; [exact Hk|].
  apply after_bind, after_test_set_values; [exact Hk|].
  apply after_bind, after_test_set_groups; [exact Hk|].
  apply after_bind, after_training_set_frequencies; [exact Hk|].
  apply after_bind, after_test_set_groups; [exact Hk|].
  apply after_bind, after_lift.
  destruct (mask_select (frequencies (training_set s))
                        (eq_mask (groups (test_set s)) g)) as [of_group|e] eqn:Hmask.
  2:{ apply (HRaise h e); [|apply same_but_refl].
      unfold group_step. rewrite Hmask. reflexivity. }
  apply after_bind, after_lift.
  destruct (item of_group 0) as [frequency|e] eqn:Hitem.
  2:{ apply (HRaise h e); [|apply same_but_refl].
      unfold group_step. rewrite Hmask. cbn [mbind result_bind]. rewrite Hitem.
      reflexivity. }
  apply after_bind, after_training_set_values; [exact Hk|].
  apply after_bind, after_test_set_groups; [exact Hk|].
  apply after_bind, after_lift.
  destruct (mase_scores mase (group_values fcv (groups (test_set s)) g)
              (group_values (values (training_set s)) (groups (test_set s)) g)
              (group_values (values (test_set s)) (groups (test_set s)) g) frequency
              (length (group_values fcv (groups (test_set s)) g)))
    as [model|e] eqn:Hmodel.
  2:{ apply (HRaise h e); [|apply same_but_refl].
      unfold group_step. rewrite Hmask. cbn [mbind result_bind]. rewrite Hitem.
      cbn [mbind result_bind]. rewrite Hmodel. reflexivity. }
  apply after_bind, (after_setitem_plain _ _ _ _ _ _ _ Hl1).
  intros h1 Hl11 Hsame1 _. carried Hsame1.
  assert (Hs1 : same_but [l1; l2; l3] h h1)
    by (eapply same_but_put, Hsame1; rewrite !elem_of_cons; auto).
  apply after_bind, after_lift.
  destruct (mase_scores mase (group_values n2v (groups (test_set s)) g)
              (group_values (values (training_set s)) (groups (test_set s)) g)
              (group_values (values (test_set s)) (groups (test_set s)) g) frequency
              (length (group_values fcv (groups (test_set s)) g)))
    as [naive2|e] eqn:Hnaive2.
  2:{ apply (HRaise h1 e); [|exact Hs1].
      unfold group_step. rewrite Hmask. cbn [mbind result_bind]. rewrite Hitem.
      cbn [mbind result_bind]. rewrite Hmodel. cbn [mbind result_bind].
      rewrite Hnaive2. reflexivity. }
  apply after_bind, (after_setitem_plain _ _ _ _ _ _ _ Hl3).
  intros h2 Hl32 Hsame2 _. carried Hsame2.
  apply (after_setitem_plain _ _ _ _ _ _ _ Hl2).
  intros h3 Hl23 Hsame3 _. carried Hsame3.
  refine (HOk h3 _ _ _ _ Hl11 Hl23 Hl32 _).
  - unfold group_step. rewrite Hmask. cbn [mbind result_bind]. rewrite Hitem.
    cbn [mbind result_bind]. rewrite Hmodel. cbn [mbind result_bind].
    rewrite Hnaive2. reflexivity.
  - apply (same_but_trans _ _ h1); [exact Hs1|].
    apply (same_but_trans _ _ h2);
      [eapply same_but_put, Hsame2|eapply same_but_put, Hsame3];
      rewrite !elem_of_cons; auto.
Qed.

Lemma after_group_loop (f n2 l1 l2 l3 : loc) (fcv n2v : list (list F)) (gs : list string)
    (mm ns nm : gmap string F) (h : Store F) (w : World F) Q :
  store_kept h0 h ->
  h !! f = Some (SeqArray fcv) -> h !! n2 = Some (SeqArray n2v) ->
  h !! l1 = Some (PlainDict mm) -> h !! l2 = Some (PlainDict ns) ->
  h !! l3 = Some (PlainDict nm) ->
  l1 <> l2 -> l1 <> l3 -> l2 <> l3 ->
  f <> l1 -> f <> l2 -> f <> l3 -> n2 <> l1 -> n2 <> l2 -> n2 <> l3 ->
  Forall (fun l => h0 !! l = None) [l1; l2; l3] ->
  (forall h' mm' ns' nm',
     for_each (group_step smape_2 mase s fcv n2v) gs (mm, ns, nm) = Ok (mm', ns', nm') ->
     h' !! l1 = Some (PlainDict mm') -> h' !! l2 = Some (PlainDict ns') ->
     h' !! l3 = Some (PlainDict nm') ->
     same_but [l1; l2; l3] h h' -> Q (Ok tt) h' w) ->
  (forall h' e, for_each (group_step smape_2 mase s fcv n2v) gs (mm, ns, nm) = Raise e ->
                same_but [l1; l2; l3] h h' -> Q (Raise e) h' w) ->
  after (run_for_each
           (fun _ g => Objects.group_step smape_2 mase self f n2 l1 l2 l3 g) gs tt)
        h w Q.
Proof.
  revert mm ns nm h. induction gs as [|g gs IH];
    intros mm ns nm h Hk Hf Hn2 Hl1 Hl2 Hl3 Hne12 Hne13 Hne23
           Hf1 Hf2 Hf3 Hn21 Hn22 Hn23 Hfresh HOk HRaise;
    cbn [run_for_each].
  - apply after_ret, (HOk h mm ns nm eq_refl Hl1 Hl2 Hl3), same_but_refl.
  - apply after_bind,
      (after_group_step f n2 l1 l2 l3 fcv n2v mm ns nm g h w _ Hk Hf Hn2 Hl1 Hl2 Hl3
         Hne12 Hne13 Hne23).
    + intros h1 mm1 ns1 nm1 Hpure Hl11 Hl21 Hl31 Hsame1.
      pose proof (store_kept_same_but _ _ _ _ Hk Hfresh Hsame1) as Hk1.
      carried Hsame1.
      apply (IH mm1 ns1 nm1 h1); try assumption.
      * intros h2 mm2 ns2 nm2 Hrest Hl12 Hl22 Hl32 Hsame2.
        apply (HOk h2 mm2 ns2 nm2); [cbn [for_each]; rewrite Hpure; exact Hrest|assumption..|].
        exact (same_but_trans _ _ _ _ Hsame1 Hsame2).
      * intros h2 e Hrest Hsame2.
        apply (HRaise h2 e); [cbn [for_each]; rewrite Hpure; exact Hrest|].
        exact (same_but_trans _ _ _ _ Hsame1 Hsame2).
    + intros h1 e Hpure Hsame1.
      apply (HRaise h1 e); [cbn [for_each]; rewrite Hpure; reflexivity|exact Hsame1].
Qed.

End Session.

Lemma after_owa_step (lmm lnm ls lns lowa : loc) (gmm gnm gs gns acc : list (string * F))
    (k : string) (h : Store F) (w : World F) Q :
  h !! lmm = Some (OrderedDict gmm) -> h !! lnm = Some (OrderedDict gnm) ->
  h !! ls = Some (OrderedDict gs) -> h !! lns = Some (OrderedDict gns) ->
  h !! lowa = Some (OrderedDict acc) ->
  (forall h' acc', owa_step gmm gnm gs gns acc k = Ok acc' ->
                   h' !! lowa = Some (OrderedDict acc') -> same_but [lowa] h h' ->
                   Q (Ok tt) h' w) ->
  (forall e, owa_step gmm gnm gs gns acc k = Raise e -> Q (Raise e) h w) ->
  after (Objects.owa_step lmm lnm ls lns lowa k) h w Q.
Proof.
  intros Hmm Hnm Hs Hns Howa HOk HRaise. unfold Objects.owa_step.
  apply after_bind, (after_getitem_ordered _ _ _ _ _ _ Hmm).
  destruct (getitem gmm k) as [a|e] eqn:Ha;
    [|apply HRaise; unfold owa_step; rewrite Ha; reflexivity].
  apply after_bind, (after_getitem_ordered _ _ _ _ _ _ Hnm).
  destruct (getitem gnm k) as [b|e] eqn:Hb;
    [|apply HRaise; unfold owa_step; rewrite Ha; cbn [mbind result_bind]; rewrite Hb;
      reflexivity].
  apply after_bind, (after_getitem_ordered _ _ _ _ _ _ Hs).
  destruct (getitem gs k) as [c|e] eqn:Hc;
    [|apply HRaise; unfold owa_step; rewrite Ha; cbn [mbind result_bind]; rewrite Hb;
      cbn [mbind result_bind]; rewrite Hc; reflexivity].
  apply after_bind, (after_getitem_ordered _ _ _ _ _ _ Hns).
  destruct (getitem gns k) as [d|e] eqn:Hd;
    [|apply HRaise; unfold owa_step; rewrite Ha; cbn [mbind result_bind]; rewrite Hb;
      cbn [mbind result_bind]; rewrite Hc; cbn [mbind result_bind]; rewrite Hd;
      reflexivity].
  apply (after_setitem_ordered _ _ _ _ _ _ _ Howa).
  intros h1 Howa1 Hsame1 _.
  refine (HOk h1 _ _ Howa1 _).
  - unfold owa_step. rewrite Ha. cbn [mbind result_bind]. rewrite Hb.
    cbn [mbind result_bind]. rewrite Hc. cbn [mbind result_bind]. rewrite Hd. reflexivity.
  - eapply same_but_put, Hsame1. rewrite !elem_of_cons; auto.
Qed.

Lemma after_owa_loop (lmm lnm ls lns lowa : loc) (gmm gnm gs gns : list (string * F))
    (ks : list string) (acc : list (string * F)) (h : Store F) (w : World F) Q :
  h !! lmm = Some (OrderedDict gmm) -> h !! lnm = Some (OrderedDict gnm) ->
  h !! ls = Some (OrderedDict gs) -> h !! lns = Some (OrderedDict gns) ->
  h !! lowa = Some (OrderedDict acc) ->
  lmm <> lowa -> lnm <> lowa -> ls <> lowa -> lns <> lowa ->
  (forall h' acc', for_each (owa_step gmm gnm gs gns) ks acc = Ok acc' ->
                   h' !! lowa = Some (OrderedDict acc') -> same_but [lowa] h h' ->
                   Q (Ok tt) h' w) ->
  (forall h' e, for_each (owa_step gmm gnm gs gns) ks acc = Raise e ->
                same_but [lowa] h h' -> Q (Raise e) h' w) ->
  after (run_for_each (fun _ k => Objects.owa_step lmm lnm ls lns lowa k) ks tt) h w Q.
Proof.
  revert acc h. induction ks as [|k ks IH];
    intros acc h Hmm Hnm Hs Hns Howa Hne1 Hne2 Hne3 Hne4 HOk HRaise; cbn [run_for_each].
  - apply after_ret, (HOk h acc eq_refl Howa), same_but_refl.
  - apply after_bind,
      (after_owa_step lmm lnm ls lns lowa gmm gnm gs gns acc k h w _ Hmm Hnm Hs Hns Howa).
    + intros h1 acc1 Hpure Howa1 Hsame1. carried Hsame1.
      apply (IH acc1 h1); try assumption.
      * intros h2 acc2 Hrest Howa2 Hsame2.
        apply (HOk h2 acc2); [cbn [for_each]; rewrite Hpure; exact Hrest|exact Howa2|].
        exact (same_but_trans _ _ _ _ Hsame1 Hsame2).
      * intros h2 e Hrest Hsame2.
        apply (HRaise h2 e); [cbn [for_each]; rewrite Hpure; exact Hrest|].
        exact (same_but_trans _ _ _ _ Hsame1 Hsame2).
    + intros e Hpure.
      apply (HRaise h e); [cbn [for_each]; rewrite Hpure; reflexivity|apply same_but_refl].
Qed.

Lemma after_round_all (d : loc) (m : list (string * F)) (h : Store F) (w : World F) Q :
  h !! d = Some (OrderedDict m) ->
  (forall h' l, store_kept h h' -> h !! l = None ->
                h' !! l = Some (OrderedDict (round_all m)) -> Q (Ok l) h' w) ->
  after (Objects.round_all d) h w Q.
Proof.
  intros Hd HQ. unfold Objects.round_all.
  apply after_bind, (after_dict_items _ _ _ _ _ Hd). apply after_new. exact HQ.
Qed.

End ObjectFacts.

(** A new object in a run that has kept the objects of [h0] so far. *)
Ltac track Hk Hn :=
  told_apart; kept_on Hk;
  match goal with
  | Hk0 : store_kept ?h0 ?h |- _ =>
      lazymatch type of Hk with
      | store_kept h _ =>
          let Hn0 := fresh "Hnone" in
          let Hk0' := fresh "Hkept" in
          pose proof (store_kept_None _ _ _ Hk0 Hn) as Hn0;
          pose proof (store_kept_trans _ _ _ Hk0 Hk) as Hk0';
          clear Hk0 Hk Hn
      end
  end.

Ltac pure_run :=
  unfold evaluate; cbv zeta;
  repeat first
    [ rewrite bind_lift_Ok
    | rewrite bind_lift_Raise
    | match goal with
      | Hx : summarize_groups _ _ = _ |- _ => rewrite Hx
      | Hx : for_each _ _ _ = _ |- _ => rewrite Hx
      | Hx : files _ !! _ = _ |- _ =>
          unfold mbind at 1, io_bind at 1, open_read; rewrite Hx; cbn [series_rows]
      end ];
  cbn [fst snd].

Section EvaluateObjects.
Context {F : Type} `{NumPy F}.
Variable DATASETS_PATH : string.
Variable smape_2 : list (list F) -> list (list F) -> list (list F).
Variable mase : list F -> list F -> list F -> Z -> F.
Variable h0 : Store F.
Variable self : loc.
Variable s : M4Summary F.
Hypothesis Hsession : session_at h0 self = Some s.

Lemma after_evaluate (fc : loc) (fcv : list (list F)) (w : World F) :
  h0 !! fc = Some (SeqArray fcv) ->
  after (Objects.evaluate DATASETS_PATH smape_2 mase self fc) h0 w
    (fun r h' w' =>
       store_kept h0 h' /\
       w' = (evaluate DATASETS_PATH smape_2 mase s fcv w).2 /\
       match r with
       | Ok (a, b) =>
           exists smapes owas,
             (evaluate DATASETS_PATH smape_2 mase s fcv w).1 = Ok (smapes, owas) /\
             h' !! a = Some (OrderedDict smapes) /\ h' !! b = Some (OrderedDict owas) /\
             h0 !! a = None /\ h0 !! b = None /\ a <> b
       | Raise e => (evaluate DATASETS_PATH smape_2 mase s fcv w).1 = Raise e
       end).
Proof.
  intros Hfc. pose proof (store_kept_refl h0) as Hk0.
  unfold Objects.evaluate.
  apply after_bind, (after_seq_array _ _ _ _ _ Hfc).
  apply after_bind, after_new. intros h1 f Hk Hn Hf. track Hk Hn.
  apply after_bind, (after_test_set_groups h0 self s Hsession); [assumption|].
  apply after_bind, after_new. intros h2 d Hk Hn Hd. track Hk Hn.
  match goal with Hk' : store_kept h0 h2 |- _ => rename Hk' into Hk2 end.
  apply after_bind,
    (after_smape_loop h0 self s Hsession smape_2 f d (map strip_nan fcv)
       (np_unique (groups (test_set s))) ∅ h2 w _ Hk2 Hf Hd); try apart; try assumption.
  intros h3 Hd3 Hsame3.
  change (h3 !! d = Some (PlainDict (smape_scores smape_2 s (map strip_nan fcv)))) in Hd3.
  assert (Hk3 : store_kept h0 h3)
    by (apply (store_kept_same_but [d] _ h2);
        [exact Hk2|repeat constructor; assumption|exact Hsame3]).
  carried Hsame3. clear Hsame3 Hk2.
  apply after_bind, (after_summarize_groups h0 self s Hsession d _ h3 w _ Hk3 Hd3).
  2:{ intros h4 e Hpure Hk. split; [exact (store_kept_trans _ _ _ Hk3 Hk)|].
      pure_run. split; reflexivity. }
  intros h4 lgs gs Hgs Hk Hn Hlgs. track Hk Hn.
  apply after_bind, after_new. intros h5 lowa Hk Hn Howa. track Hk Hn.
  apply after_bind, after_io. unfold open_read.
  destruct (files w !! NAIVE2_PATH DATASETS_PATH) as [table|] eqn:Hfile; cbn [fst snd].
  2:{ split; [assumption|]. pure_run. split; reflexivity. }
  apply after_bind, after_lift.
  destruct table as [info|rows|a|]; cbn [series_rows];
    try (split; [assumption|]; pure_run; split; reflexivity).
  apply after_bind, after_new. intros h6 n2a Hk Hn Hn2a. track Hk Hn.
  apply after_bind, (after_seq_array _ _ _ _ _ Hn2a).
  apply after_bind, after_new. intros h7 n2 Hk Hn Hn2. track Hk Hn.
  change (h7 !! n2 = Some (SeqArray (naive2_rows rows))) in Hn2.
  apply after_bind, after_new. intros h8 l1 Hk Hn Hl1. track Hk Hn.
  apply after_bind, after_new. intros h9 l2 Hk Hn Hl2. track Hk Hn.
  apply after_bind, after_new. intros h10 l3 Hk Hn Hl3. track Hk Hn.
  apply after_bind, (after_test_set_groups h0 self s Hsession); [assumption|].
  assert (Hfresh : Forall (fun l => h0 !! l = None) [l1; l2; l3])
    by (repeat constructor; assumption).
  match goal with Hk' : store_kept h0 h10 |- _ => rename Hk' into Hk10 end.
  apply after_bind,
    (after_group_loop h0 self s Hsession smape_2 mase f n2 l1 l2 l3
       (map strip_nan fcv) (naive2_rows rows) (np_unique (groups (test_set s)))
       ∅ ∅ ∅ h10 _ _ Hk10 Hf Hn2 Hl1 Hl2 Hl3); try apart; try exact Hfresh.
  2:{ intros h11 e Hloop Hsame.
      split; [exact (store_kept_same_but _ _ _ _ Hk10 Hfresh Hsame)|].
      pure_run. split; reflexivity. }
  intros h11 mm ns nm Hloop Hl11 Hl21 Hl31 Hsame.
  pose proof (store_kept_same_but _ _ _ _ Hk10 Hfresh Hsame) as Hk11.
  carried Hsame. clear Hsame Hk10.
  apply after_bind, (after_summarize_groups h0 self s Hsession l1 _ h11 _ _ Hk11 Hl11).
  2:{ intros h12 e Hpure Hk. split; [exact (store_kept_trans _ _ _ Hk11 Hk)|].
      pure_run. split; reflexivity. }
  intros h12 lgmm gmm Hgmm Hk Hn Hlgmm. track Hk Hn.
  match goal with Hk' : store_kept h0 h12 |- _ => rename Hk' into Hk12 end.
  apply after_bind, (after_summarize_groups h0 self s Hsession l2 _ h12 _ _ Hk12 Hl21).
  2:{ intros h13 e Hpure Hk. split; [exact (store_kept_trans _ _ _ Hk12 Hk)|].
      pure_run. split; reflexivity. }
  intros h13 lgns gns Hgns Hk Hn Hlgns. track Hk Hn.
  match goal with Hk' : store_kept h0 h13 |- _ => rename Hk' into Hk13 end.
  apply after_bind, (after_summarize_groups h0 self s Hsession l3 _ h13 _ _ Hk13 Hl31).
  2:{ intros h14 e Hpure Hk. split; [exact (store_kept_trans _ _ _ Hk13 Hk)|].
      pure_run. split; reflexivity. }
  intros h14 lgnm gnm Hgnm Hk Hn Hlgnm. track Hk Hn.
  match goal with Hk' : store_kept h0 h14 |- _ => rename Hk' into Hk14 end.
  apply after_bind, (after_dict_items _ _ _ _ _ Hlgmm).
  assert (Hfresh' : Forall (fun l => h0 !! l = None) [lowa])
    by (repeat constructor; assumption).
  apply after_bind,
    (after_owa_loop lgmm lgnm lgs lgns lowa gmm gnm gs gns (keys gmm) [] h14 _ _
       Hlgmm Hlgnm Hlgs Hlgns Howa); try apart.
  2:{ intros h15 e Hloop' Hsame.
      split; [exact (store_kept_same_but _ _ _ _ Hk14 Hfresh' Hsame)|].
      pure_run. split; reflexivity. }
  intros h15 gowa Hloop' Howa' Hsame.
  pose proof (store_kept_same_but _ _ _ _ Hk14 Hfresh' Hsame) as Hk15.
  carried Hsame. clear Hsame Hk14.
  apply after_bind, (after_round_all _ _ _ _ _ Hlgs).
  intros h16 a Hk Hn Ha. track Hk Hn.
  apply after_bind, (after_round_all _ _ _ _ _ Howa').
  intros h17 b Hk Hn Hb. track Hk Hn.
  apply after_ret. split; [assumption|]. pure_run. split; [reflexivity|].
  exists (round_all gs), (round_all gowa).
  repeat (split; [first [reflexivity | assumption]|]). assumption.
Qed.

End EvaluateObjects.

Section LoadObjects.
Context {F : Type} `{NumPy F}.
Variable DATASETS_PATH : string.
Variable url_file_name : string -> string.

Lemma load_eq (training : bool) (w : World F) :
  load DATASETS_PATH url_file_name training w =
  let info_path := INFO_FILE_PATH DATASETS_PATH url_file_name in
  match files w !! info_path with
  | None => (Raise (FileNotFoundError info_path), logged (EvRead info_path) w)
  | Some f =>
      match info_columns f with
      | Raise e => (Raise e, logged (EvRead info_path) w)
      | Ok m4_info =>
          match np_load (if training then TRAINING_DATASET_CACHE_FILE_PATH DATASETS_PATH
                         else TEST_DATASET_CACHE_FILE_PATH DATASETS_PATH)
                        (logged (EvRead info_path) w) with
          | (Ok a, w') => (Ok (table_dataset m4_info a), w')
          | (Raise e, w') => (Raise e, w')
          end
      end
  end.
Proof.
  unfold load. cbv zeta. unfold mbind at 1, io_bind at 1, open_read at 1.
  destruct (files w !! INFO_FILE_PATH DATASETS_PATH url_file_name) as [f|]; [|reflexivity].
  unfold mbind at 1, io_bind at 1, lift at 1.
  destruct (info_columns f) as [m4_info|e]; [|reflexivity].
  unfold mbind at 1, io_bind at 1.
  destruct (np_load _ _) as [[a|e] w']; reflexivity.
Qed.

Lemma after_load (training : bool) (h : Store F) (w : World F) :
  after (Objects.load DATASETS_PATH url_file_name training) h w
    (fun r h' w' =>
       store_kept h h' /\ w' = (load DATASETS_PATH url_file_name training w).2 /\
       match r with
       | Ok l => exists d, (load DATASETS_PATH url_file_name training w).1 = Ok d /\
                           dataset_at h' l = Some d /\ h !! l = None
       | Raise e => (load DATASETS_PATH url_file_name training w).1 = Raise e
       end).
Proof.
  pose proof (store_kept_refl h) as Hk0.
  rewrite load_eq. cbv zeta. unfold Objects.load.
  apply after_bind, after_io. unfold open_read.
  destruct (files w !! INFO_FILE_PATH DATASETS_PATH url_file_name) as [table|] eqn:Hinfo;
    cbn [fst snd]; [|split; [assumption|split; reflexivity]].
  apply after_bind, after_lift.
  destruct (info_columns table) as [m4_info|e]; [|split; [assumption|split; reflexivity]].
  apply after_bind, after_new. intros h1 i Hk Hn Hi. track Hk Hn.
  apply after_bind, after_new. intros h2 g Hk Hn Hg. track Hk Hn.
  apply after_bind, after_new. intros h3 f Hk Hn Hf. track Hk Hn.
  apply after_bind, after_new. intros h4 hz Hk Hn Hhz. track Hk Hn.
  apply after_bind, after_io.
  destruct (np_load _ _) as [[a|e] w'] eqn:Hnp; cbn [fst snd];
    [|split; [assumption|split; reflexivity]].
  apply after_bind, after_new. intros h5 v Hk Hn Hv. track Hk Hn.
  apply after_new. intros h6 l Hk Hn Hl. track Hk Hn.
  split; [assumption|]. split; [reflexivity|].
  eexists. split; [reflexivity|]. split; [|assumption].
  unfold dataset_at, str_at, int_at, seq_at. rewrite Hl, Hi, Hg, Hf, Hhz, Hv. reflexivity.
Qed.

Lemma after_mono {A : Type} (m : Run F A) (h : Store F) (w : World F)
    (Q Q' : result A -> Store F -> World F -> Prop) :
  after m h w Q -> (forall r h' w', Q r h' w' -> Q' r h' w') -> after m h w Q'.
Proof. unfold after. auto. Qed.

Lemma init_eq (w : World F) :
  init DATASETS_PATH url_file_name w =
  match load DATASETS_PATH url_file_name true w with
  | (Ok training, w1) =>
      match load DATASETS_PATH url_file_name false w1 with
      | (Ok test, w2) => (Ok (mkM4Summary training test), w2)
      | (Raise e, w2) => (Raise e, w2)
      end
  | (Raise e, w1) => (Raise e, w1)
  end.
Proof.
  unfold init. unfold mbind at 1, io_bind at 1.
  destruct (load DATASETS_PATH url_file_name true w) as [[tr|e] w1]; [|reflexivity].
  unfold mbind at 1, io_bind at 1.
  destruct (load DATASETS_PATH url_file_name false w1) as [[te|e] w2]; reflexivity.
Qed.

Lemma after_init (h : Store F) (w : World F) :
  after (Objects.init DATASETS_PATH url_file_name) h w
    (fun r h' w' =>
       store_kept h h' /\ w' = (init DATASETS_PATH url_file_name w).2 /\
       match r with
       | Ok l => exists s, (init DATASETS_PATH url_file_name w).1 = Ok s /\
                           session_at h' l = Some s /\ h !! l = None
       | Raise e => (init DATASETS_PATH url_file_name w).1 = Raise e
       end).
Proof.
  rewrite init_eq. unfold Objects.init.
  apply after_bind. eapply after_mono; [apply after_load|].
  intros r h1 w1 (Hk1 & -> & Hr).
  destruct (load DATASETS_PATH url_file_name true w) as [r1 w1]. cbn [fst snd] in *.
  destruct r as [tr|e]; [|subst r1; auto].
  destruct Hr as (d1 & -> & Hd1 & Hn1).
  apply after_bind. eapply after_mono; [apply after_load|].
  intros r h2 w2 (Hk2 & -> & Hr).
  destruct (load DATASETS_PATH url_file_name false w1) as [r2 w2]. cbn [fst snd] in *.
  pose proof (store_kept_trans _ _ _ Hk1 Hk2) as Hk.
  destruct r as [te|e]; [|subst r2; auto].
  destruct Hr as (d2 & -> & Hd2 & Hn2).
  apply after_new. intros h3 l Hk3 Hn3 Hl.
  split; [exact (store_kept_trans _ _ _ Hk Hk3)|]. split; [reflexivity|].
  eexists. split; [reflexivity|]. split.
  - unfold session_at. rewrite Hl.
    rewrite (dataset_at_kept _ _ _ _ Hd1 (store_kept_trans _ _ _ Hk2 Hk3)).
    rewrite (dataset_at_kept _ _ _ _ Hd2 Hk3). reflexivity.
  - exact (store_kept_None _ _ _ Hk Hn3).
Qed.

End LoadObjects.

Section Repeatable.
Context {F : Type} `{NumPy F}.
Variable DATASETS_PATH : string.
Variable smape_2 : list (list F) -> list (list F) -> list (list F).
Variable mase : list F -> list F -> list F -> Z -> F.

(** C8. [evaluate] over the store of objects, run twice on the same session
    and the same forecast array. No object that the store held is updated, in
    either run: the session, its datasets and their arrays, the forecast
    array and every dict made before are after each run what they were; only
    dicts that a run has made itself are written to. Files and directories
    are unchanged. The two runs end the same way: both return, each in two
    new dicts, the two maps that [evaluate] over the values of the session
    gives, the same in both runs, or both fail with the same error. *)
Theorem evaluate_repeatable (h : Store F) (w : World F) (self forecast : loc)
    (s : M4Summary F) (fc : list (list F)) :
  session_at h self = Some s -> h !! forecast = Some (SeqArray fc) ->
  let run := Objects.evaluate DATASETS_PATH smape_2 mase self forecast in
  let first := run h w in
  let second := run first.1.2 first.2 in
  (store_kept h first.1.2 /\ store_kept first.1.2 second.1.2 /\
   session_at second.1.2 self = Some s /\
   second.1.2 !! forecast = Some (SeqArray fc) /\
   files second.2 = files w /\ dirs second.2 = dirs w) /\
  match first.1.1, second.1.1 with
  | Ok (smapes1, owas1), Ok (smapes2, owas2) =>
      exists smapes owas,
        (evaluate DATASETS_PATH smape_2 mase s fc w).1 = Ok (smapes, owas) /\
        second.1.2 !! smapes1 = Some (OrderedDict smapes) /\
        second.1.2 !! owas1 = Some (OrderedDict owas) /\
        second.1.2 !! smapes2 = Some (OrderedDict smapes) /\
        second.1.2 !! owas2 = Some (OrderedDict owas) /\
        h !! smapes1 = None /\ h !! owas1 = None /\
        first.1.2 !! smapes2 = None /\ first.1.2 !! owas2 = None
  | Raise e1, Raise e2 =>
      e1 = e2 /\ (evaluate DATASETS_PATH smape_2 mase s fc w).1 = Raise e1
  | _, _ => False
  end.
Proof.
  intros Hs Hfc run first second.
  destruct (after_evaluate DATASETS_PATH smape_2 mase h self s Hs forecast fc w Hfc)
    as (Hk1 & Hw1 & Hr1).
  fold run in Hk1, Hw1, Hr1. fold first in Hk1, Hw1, Hr1.
  destruct (after_evaluate DATASETS_PATH smape_2 mase first.1.2 self s
              (session_at_kept _ _ _ _ Hs Hk1) forecast fc first.2 (Hk1 _ _ Hfc))
    as (Hk2 & Hw2 & Hr2).
  fold run in Hk2, Hw2, Hr2. fold second in Hk2, Hw2, Hr2.
  destruct (evaluate_reads_only DATASETS_PATH smape_2 mase s fc w)
    as (Hfiles & Hdirs & _ & Hsame).
  destruct (evaluate_reads_only DATASETS_PATH smape_2 mase s fc first.2)
    as (Hfiles' & Hdirs' & _ & _).
  assert (Hf1 : files first.2 = files w) by (rewrite Hw1; exact Hfiles).
  assert (Hd1 : dirs first.2 = dirs w) by (rewrite Hw1; exact Hdirs).
  assert (Hagain : (evaluate DATASETS_PATH smape_2 mase s fc first.2).1 =
                   (evaluate DATASETS_PATH smape_2 mase s fc w).1)
    by (apply Hsame, Hf1).
  rewrite Hagain in Hr2.
  split.
  - split; [exact Hk1|]. split; [exact Hk2|].
    split; [exact (session_at_kept _ _ _ _ (session_at_kept _ _ _ _ Hs Hk1) Hk2)|].
    split; [exact (Hk2 _ _ (Hk1 _ _ Hfc))|].
    rewrite Hw2. split; [rewrite Hfiles'; exact Hf1|rewrite Hdirs'; exact Hd1].
  - destruct first.1.1 as [[a1 b1]|e1], second.1.1 as [[a2 b2]|e2].
    + destruct Hr1 as (smapes & owas & Hpure & Ha1 & Hb1 & Hna1 & Hnb1 & _).
      destruct Hr2 as (smapes' & owas' & Hpure' & Ha2 & Hb2 & Hna2 & Hnb2 & _).
      rewrite Hpure in Hpure'. injection Hpure' as <- <-.
      exists smapes, owas. repeat (split; [first [assumption | apply Hk2; assumption]|]).
      assumption.
    + destruct Hr1 as (smapes & owas & Hpure & _). congruence.
    + destruct Hr2 as (smapes & owas & Hpure & _). congruence.
    + split; congruence.
Qed.

End Repeatable.

Lemma evaluate_repeatable_toy :
  session_at Loaded.store Loaded.self = Some Toy.session /\
  Loaded.store !! Loaded.forecast = Some (SeqArray Toy.forecast) /\
  let run := Objects.evaluate Toy.root Toy.smape_2 Toy.mase Loaded.self Loaded.forecast in
  let first := run Loaded.store Loaded.world in
  let second := run first.1.2 first.2 in
  (store_kept Loaded.store first.1.2 /\ store_kept first.1.2 second.1.2 /\
   session_at second.1.2 Loaded.self = Some Toy.session /\
   second.1.2 !! Loaded.forecast = Some (SeqArray Toy.forecast) /\
   files second.2 = files Loaded.world /\ dirs second.2 = dirs Loaded.world) /\
  match first.1.1, second.1.1 with
  | Ok (smapes1, owas1), Ok (smapes2, owas2) =>
      exists smapes owas,
        (evaluate Toy.root Toy.smape_2 Toy.mase Toy.session Toy.forecast Loaded.world).1
        = Ok (smapes, owas) /\
        second.1.2 !! smapes1 = Some (OrderedDict smapes) /\
        second.1.2 !! owas1 = Some (OrderedDict owas) /\
        second.1.2 !! smapes2 = Some (OrderedDict smapes) /\
        second.1.2 !! owas2 = Some (OrderedDict owas) /\
        Loaded.store !! smapes1 = None /\ Loaded.store !! owas1 = None /\
        first.1.2 !! smapes2 = None /\ first.1.2 !! owas2 = None
  | Raise e1, Raise e2 =>
      e1 = e2 /\
      (evaluate Toy.root Toy.smape_2 Toy.mase Toy.session Toy.forecast Loaded.world).1
      = Raise e1
  | _, _ => False
  end.
Proof.
  assert (Hsession : session_at Loaded.store Loaded.self = Some Toy.session)
    by (vm_compute; reflexivity).
  assert (Hforecast : Loaded.store !! Loaded.forecast = Some (SeqArray Toy.forecast))
    by reflexivity.
  split; [exact Hsession|]. split; [exact Hforecast|].
  exact (evaluate_repeatable Toy.root Toy.smape_2 Toy.mase Loaded.store Loaded.world
           Loaded.self Loaded.forecast Toy.session Toy.forecast Hsession Hforecast).
Defined.

(** The run of the small corpus over the store: both calls return, in four
    dicts at four locations, the maps that [evaluate] gives. *)
Lemma evaluate_twice_toy :
  let run := Objects.evaluate Toy.root Toy.smape_2 Toy.mase Loaded.self Loaded.forecast in
  let first := run Loaded.store Loaded.world in
  let second := run first.1.2 first.2 in
  exists smapes1 owas1 smapes2 owas2,
    first.1.1 = Ok (smapes1, owas1) /\ second.1.1 = Ok (smapes2, owas2) /\
    NoDup [smapes1; owas1; smapes2; owas2] /\
    second.1.2 !! smapes1 = Some (OrderedDict Toy.expected_smapes) /\
    second.1.2 !! owas1 = Some (OrderedDict Toy.expected_owas) /\
    second.1.2 !! smapes2 = Some (OrderedDict Toy.expected_smapes) /\
    second.1.2 !! owas2 = Some (OrderedDict Toy.expected_owas).
Proof.
  do 4 eexists. split; [vm_compute; reflexivity|]. split; [vm_compute; reflexivity|].
  split; [apply (bool_decide_unpack _); vm_compute; exact I|].
  repeat split; vm_compute; reflexivity.
Qed.

(** ** [M4Dataset.load] and [M4Dataset.download] *)

Section DatasetFacts.
Context {F : Type} `{NumPy F}.
Variable DATASETS_PATH : string.
Variable url_file_name : string -> string.

(** C7. Without the reference table, [load] fails with the FileNotFoundError
    of the table; with the table and without the cache of the partition
    asked for, with the FileNotFoundError of the cache. In every case, the
    call opens the table once and, if at all, the cache once, in this order,
    and it leaves files and directories as they were: nothing is tried again
    and no cache is built. *)
Theorem load_missing_corpus (training : bool) (w : World F) :
  let info_path := INFO_FILE_PATH DATASETS_PATH url_file_name in
  let cache_path := cache_file_path DATASETS_PATH training in
  let loaded := load DATASETS_PATH url_file_name training w in
  (files w !! info_path = None ->
   loaded = (Raise (FileNotFoundError info_path), logged (EvRead info_path) w)) /\
  (forall m4_info,
     files w !! info_path = Some (InfoCsv m4_info) ->
     files w !! cache_path = None ->
     loaded = (Raise (FileNotFoundError cache_path),
               logged (EvRead cache_path) (logged (EvRead info_path) w))) /\
  (files w !! info_path = None \/ files w !! cache_path = None ->
   exists e, fst loaded = Raise e) /\
  files (snd loaded) = files w /\ dirs (snd loaded) = dirs w /\
  (log (snd loaded) = (log w ++ [EvRead info_path])%list \/
   log (snd loaded) = (log w ++ [EvRead info_path; EvRead cache_path])%list).
Proof.
  intros info_path cache_path loaded. subst loaded.
  unfold load, np_load, mbind, io_bind, open_read, lift.
  fold (cache_file_path DATASETS_PATH training). fold info_path cache_path.
  assert (Hlog : forall p q : string,
            log (logged (EvRead q) (logged (EvRead p) w)) = (log w ++ [EvRead p; EvRead q])%list).
  { intros p q. simpl. rewrite <- app_assoc. reflexivity. }
  destruct (files w !! info_path) as [[m4_info| | |]|] eqn:Hinfo; simpl;
    [destruct (files w !! cache_path) as [[| |a|]|] eqn:Hcache; simpl|..];
    (split; [intros Hx; try discriminate Hx; reflexivity|]);
    (split; [intros m Hm Hc; try discriminate Hm; try discriminate Hc; reflexivity|]);
    (split; [intros [Hx|Hx]; try discriminate Hx; eauto|]);
    (split; [reflexivity|]); (split; [reflexivity|]);
    first [left; reflexivity | right; apply Hlog].
Qed.

Variable http_download : string -> string -> IO F unit.
Variable extract_archive : string -> string -> IO F unit.
Variable glob : string -> IO F (list string).

(** C10. Where the dataset directory exists, [download] checks it, logs that
    it skips, and returns: whatever the directory holds, and whatever
    downloading, extracting and listing would do, none of them runs and no
    file is read or written. *)
Theorem download_skips_existing_directory (w : World F) :
  DATASET_PATH DATASETS_PATH ∈ dirs w ->
  download DATASETS_PATH url_file_name http_download extract_archive glob w =
  (Ok tt,
   logged (EvLogInfo ("skip: " ++ DATASET_PATH DATASETS_PATH ++ " directory already exists."))
          (logged (EvIsDir (DATASET_PATH DATASETS_PATH)) w)) /\
  files (snd (download DATASETS_PATH url_file_name http_download extract_archive glob w))
    = files w.
Proof.
  intros Hdir. unfold download, mbind, io_bind, isdir.
  rewrite bool_decide_true by exact Hdir. split; reflexivity.
Qed.

End DatasetFacts.

Lemma load_missing_corpus_toy :
  files Toy.fresh_world !! INFO_FILE_PATH Toy.root Toy.url_file_name = None /\
  load Toy.root Toy.url_file_name true Toy.fresh_world =
  (Raise (FileNotFoundError "data/m4/M4Info.csv"),
   logged (EvRead "data/m4/M4Info.csv") Toy.fresh_world).
Proof.
  split; [reflexivity|].
  destruct (load_missing_corpus Toy.root Toy.url_file_name true Toy.fresh_world)
    as (Hmissing & _).
  apply Hmissing. reflexivity.
Defined.

Lemma download_skips_empty_directory :
  DATASET_PATH Toy.root ∈ dirs Toy.empty_dir_world /\
  files Toy.empty_dir_world = ∅ /\
  download Toy.root Toy.url_file_name Toy.offline_download Toy.no_extraction Toy.no_match
           Toy.empty_dir_world =
  (Ok tt,
   mkWorld ∅ {[DATASET_PATH Toy.root]}
           [EvIsDir "data/m4"; EvLogInfo "skip: data/m4 directory already exists."]).
Proof.
  assert (Hdir : DATASET_PATH Toy.root ∈ dirs Toy.empty_dir_world)
    by (apply elem_of_singleton; reflexivity).
  split; [exact Hdir|]. split; [reflexivity|].
  apply (download_skips_existing_directory Toy.root Toy.url_file_name Toy.offline_download
           Toy.no_extraction Toy.no_match Toy.empty_dir_world Hdir).
Defined.

(** Where the directory does not exist and the mirror answers, the caches
    are built: one sequence per identifier of the reference table, in its
    order, without the NaN padding of the csv. *)
Lemma download_fresh_mirror :
  let w := snd (download Toy.root Toy.url_file_name Toy.mirror_download Toy.unpack
                         Toy.list_files Toy.fresh_world) in
  fst (download Toy.root Toy.url_file_name Toy.mirror_download Toy.unpack
                Toy.list_files Toy.fresh_world) = Ok tt /\
  files w !! "data/m4/training.npz" = Some (Pickle [[1; 2; 4]; [1; 2; 3; 4; 6; 8]]%float) /\
  files w !! "data/m4/test.npz" = Some (Pickle [[5; 6]; [9; 10]]%float) /\
  log w =
    [EvIsDir "data/m4";
     EvDownload INFO_URL "data/m4/M4Info.csv"; EvRead "data/m4/M4Info.csv";
     EvDownload TRAINING_DATASET_URL "data/m4/M4DataSet.zip";
     EvExtract "data/m4/M4DataSet.zip" "data/m4";
     EvLogInfo "Caching *-train.csv"; EvGlob "data/m4/*-train.csv";
     EvRead "data/m4/all-train.csv"; EvDump "data/m4/training.npz";
     EvDownload TEST_DATASET_URL "data/m4/M-test-set.zip";
     EvExtract "data/m4/M-test-set.zip" "data/m4";
     EvLogInfo "Caching *-test.csv"; EvGlob "data/m4/*-test.csv";
     EvRead "data/m4/all-test.csv"; EvDump "data/m4/test.npz";
     EvDownload NAIVE2_FORECAST_URL "data/m4/submission-Naive2.rar";
     EvExtract "data/m4/submission-Naive2.rar" "data/m4"].
Proof. vm_compute. repeat split; reflexivity. Qed.

(** Where the directory does not exist, the reference table is downloaded
    first. *)
Lemma download_fresh_offline :
  download Toy.root Toy.url_file_name Toy.offline_download Toy.no_extraction Toy.no_match
           Toy.fresh_world =
  (Raise (ExternalError "network unreachable"),
   mkWorld ∅ ∅ [EvIsDir "data/m4"; EvDownload INFO_URL "data/m4/M4Info.csv"]).
Proof. reflexivity. Qed.

(** ** The frequency of a category *)

Section Frequency.
Context {F : Type} `{NumPy F}.
Variable DATASETS_PATH : string.
Variable smape_2 : list (list F) -> list (list F) -> list (list F).
Variable mase : list F -> list F -> list F -> Z -> F.
Variable self : M4Summary F.

(** C9. In a run of [evaluate] that returns, the mase of every category [g]
    of the test set, for the model and for naive2, is the mean over the
    series of [g] of [mase] called with one frequency: the declared frequency
    of the first series of [g] in the row order of the reference table.
    The declared frequency of the series scored is not read. *)
Theorem evaluate_shares_first_frequency (forecast : list (list F)) (w w' : World F)
    (smapes owas : list (string * F)) :
  evaluate DATASETS_PATH smape_2 mase self forecast w = (Ok (smapes, owas), w') ->
  let labels := groups (test_set self) in
  let stripped := map strip_nan forecast in
  exists rows model_mases naive2_smapes naive2_mases,
    files w !! NAIVE2_PATH DATASETS_PATH = Some (SeriesCsv rows) /\
    for_each (group_step smape_2 mase self stripped (naive2_rows rows))
             (np_unique labels) (∅, ∅, ∅)
      = Ok (model_mases, naive2_smapes, naive2_mases) /\
    forall g, g ∈ labels ->
      exists frequency model naive2,
        first_frequency self g = Some frequency /\
        model_mases !! g = Some (np_mean model) /\
        naive2_mases !! g = Some (np_mean naive2) /\
        length model = length (group_values stripped labels g) /\
        length naive2 = length (group_values stripped labels g) /\
        forall i f, group_values stripped labels g !! i = Some f ->
          exists nf ins out,
            group_values (naive2_rows rows) labels g !! i = Some nf /\
            group_values (values (training_set self)) labels g !! i = Some ins /\
            group_values (values (test_set self)) labels g !! i = Some out /\
            model !! i = Some (mase f ins out frequency) /\
            naive2 !! i = Some (mase nf ins out frequency).
Proof.
  intros Hev labels stripped.
  apply evaluate_Ok_inv in Hev
    as (rows & mm & ns & nm & gs & gmm & gns & gnm & gowa
        & Hfile & _ & Hloop & _).
  exists rows, mm, ns, nm. split; [exact Hfile|]. split; [exact Hloop|].
  intros g Hg. apply elem_of_np_unique in Hg.
  destruct (for_each_group_step _ _ _ _ _ _ _ _ _ _ _ _ Hloop g Hg)
    as (a & b & c & Hscores & Hmm & _ & Hnm).
  destruct (group_scores_Ok _ _ _ _ _ _ _ _ _ Hscores)
    as (frequency & model & naive2 & Hfreq & Hmodel & Hnaive2 & -> & ->).
  apply mase_scores_Ok in Hmodel as [Hlen Hmodel].
  apply mase_scores_Ok in Hnaive2 as [Hlen' Hnaive2].
  exists frequency, model, naive2.
  repeat (split; [assumption|]).
  intros i f Hf. assert (Hi : (i < length (group_values stripped labels g))%nat)
    by (eapply lookup_lt_Some; exact Hf).
  destruct (Hmodel i Hi) as (f' & ins & out & Hf' & Hins & Hout & Hscore).
  destruct (Hnaive2 i Hi) as (nf & ins' & out' & Hnf & Hins' & Hout' & Hscore').
  exists nf, ins, out.
  assert (f' = f) as -> by (unfold stripped, labels in Hf; congruence).
  assert (ins' = ins) as -> by congruence.
  assert (out' = out) as -> by congruence.
  auto.
Qed.

(** The frequency that a turn of the loop reads. *)
Lemma frequency_of_group (freqs : list Z) (labels : list string) (g : string) :
  (of_group ← mask_select freqs (eq_mask labels g); item of_group 0) =
  if decide (length freqs = length labels) then
    match head (group_values freqs labels g) with
    | Some frequency => Ok frequency
    | None => Raise IndexError
    end
  else Raise IndexError.
Proof.
  destruct (mask_select freqs (eq_mask labels g)) as [of_group|e] eqn:Hsel.
  - rewrite (mask_select_group_values _ _ _ _ Hsel) in *. unfold mask_select in Hsel.
    unfold eq_mask in Hsel. rewrite length_map in Hsel.
    destruct (decide (length freqs = length labels)); [|discriminate].
    simpl. destruct (group_values freqs labels g); reflexivity.
  - unfold mask_select in Hsel. unfold eq_mask in Hsel. rewrite length_map in Hsel.
    destruct (decide (length freqs = length labels)); [discriminate|].
    injection Hsel as <-. reflexivity.
Qed.

(** X16. Declared frequencies other than the first of each category have no
    effect on what [evaluate] returns. *)
Lemma evaluate_ignores_other_frequencies (frequencies' : list Z)
    (forecast : list (list F)) (w : World F) :
  let training := training_set self in
  let self' :=
    mkM4Summary (mkM4Dataset (ids training) (groups training) frequencies'
                             (horizons training) (values training))
                (test_set self) in
  length frequencies' = length (frequencies training) ->
  (forall g, g ∈ groups (test_set self) ->
             first_frequency self' g = first_frequency self g) ->
  evaluate DATASETS_PATH smape_2 mase self' forecast w =
  evaluate DATASETS_PATH smape_2 mase self forecast w.
Proof.
  intros training self' Hlen Hfirst. subst training.
  assert (Hstep : forall fc n2 st g, g ∈ groups (test_set self) ->
            group_step smape_2 mase self' fc n2 st g = group_step smape_2 mase self fc n2 st g).
  { intros fc n2 [[mm ns] nm] g Hg. unfold group_step.
    pose proof (frequency_of_group (frequencies (training_set self'))
                  (groups (test_set self')) g) as H1.
    pose proof (frequency_of_group (frequencies (training_set self))
                  (groups (test_set self)) g) as H2.
    specialize (Hfirst g Hg). unfold first_frequency in Hfirst.
    cbn [training_set test_set frequencies values self'] in *.
    rewrite Hlen, Hfirst, <- H2 in H1. clear H2.
    destruct (mask_select frequencies' _) as [l1|e1];
      destruct (mask_select (frequencies (training_set self)) _) as [l2|e2];
      simpl in H1 |- *; try rewrite H1; try reflexivity.
    - rewrite <- H1. reflexivity.
    - injection H1 as ->. reflexivity. }
  assert (Hloop : forall fc n2 l st, (forall g, g ∈ l -> g ∈ groups (test_set self)) ->
            for_each (group_step smape_2 mase self' fc n2) l st =
            for_each (group_step smape_2 mase self fc n2) l st).
  { intros fc n2 l. induction l as [|g l IH]; intros st Hl; cbn [for_each]; [reflexivity|].
    rewrite Hstep by (apply Hl, list_elem_of_here).
    destruct (group_step smape_2 mase self fc n2 st g) as [st'|e]; simpl; [|reflexivity].
    apply IH. intros g' Hg'. apply Hl, list_elem_of_further, Hg'. }
  unfold evaluate. cbn [test_set self'].
  change (summarize_groups self') with (summarize_groups self).
  change (smape_scores smape_2 self') with (smape_scores smape_2 self).
  apply bind_ext. intros gs w0.
  apply bind_ext. intros table w1.
  apply bind_ext. intros rows w2.
  rewrite Hloop by (intros g Hg; apply elem_of_np_unique, Hg).
  reflexivity.
Qed.

End Frequency.

Lemma evaluate_shares_first_frequency_toy :
  evaluate Toy.root Toy.smape_2 Toy.mase Toy.session Toy.forecast Toy.world =
  (Ok (Toy.expected_smapes, Toy.expected_owas),
   logged (EvRead (NAIVE2_PATH Toy.root)) Toy.world) /\
  group_values (frequencies (training_set Toy.session)) (groups (test_set Toy.session))
               "Yearly" = [1; 3] /\
  exists model : list float,
    length model = 2%nat /\
    model !! 1%nat = Some (Toy.mase [30; 60]%float [1; 2; 4; 8; 16]%float [32; 64]%float 1) /\
    Toy.mase [30; 60]%float [1; 2; 4; 8; 16]%float [32; 64]%float 1 <>
    Toy.mase [30; 60]%float [1; 2; 4; 8; 16]%float [32; 64]%float 3.
Proof.
  split; [exact toy_run|]. split; [reflexivity|].
  destruct (evaluate_shares_first_frequency _ _ _ _ _ _ _ _ _ toy_run)
    as (rows & mm & ns & nm & _ & _ & Hall).
  destruct (Hall "Yearly") as (frequency & model & naive2 & Hfreq & _ & _ & Hlen & _ & Hper).
  { apply (bool_decide_unpack _). vm_compute. exact I. }
  exists model. split; [exact Hlen|].
  destruct (Hper 1%nat [30; 60]%float) as (nf & ins & out & _ & Hins & Hout & Hscore & _);
    [reflexivity|].
  vm_compute in Hfreq. injection Hfreq as <-.
  vm_compute in Hins. injection Hins as <-.
  vm_compute in Hout. injection Hout as <-.
  split; [exact Hscore|].
  intros Heq. vm_compute in Heq. discriminate Heq.
Defined.


(** * Further properties *)

(** ** Sessions *)

Section InitFacts.
Context {F : Type}.
Variable DATASETS_PATH : string.
Variable url_file_name : string -> string.

Lemma load_Ok_iff (training : bool) (w w' : World F) (d : M4Dataset F) :
  load DATASETS_PATH url_file_name training w = (Ok d, w') <->
  exists m4_info content,
    files w !! INFO_FILE_PATH DATASETS_PATH url_file_name = Some (InfoCsv m4_info) /\
    files w !! cache_file_path DATASETS_PATH training = Some (Pickle content) /\
    d = table_dataset m4_info content /\
    w' = logged (EvRead (cache_file_path DATASETS_PATH training))
                (logged (EvRead (INFO_FILE_PATH DATASETS_PATH url_file_name)) w).
Proof.
  unfold load, np_load, mbind, io_bind, open_read, lift.
  fold (cache_file_path DATASETS_PATH training).
  set (info_path := INFO_FILE_PATH DATASETS_PATH url_file_name).
  set (cache_path := cache_file_path DATASETS_PATH training).
  cbn [files logged].
  split.
  - destruct (files w !! info_path) as [[m4_info| | |]|]; simpl; try discriminate.
    destruct (_ !! cache_path) as [[| |content|]|] eqn:Hcache; simpl; try discriminate.
    intros [= <- <-]. exists m4_info, content. auto.
  - intros (m4_info & content & Hinfo & Hcache & -> & ->).
    rewrite Hinfo. simpl. rewrite Hcache. reflexivity.
Qed.

(** The session that [M4Summary()] makes where the three files are in
    place, and the four reads it records. *)
Lemma init_loads (w : World F) (m4_info : list InfoRow) (training test : list (list F)) :
  let info_path := INFO_FILE_PATH DATASETS_PATH url_file_name in
  let training_path := TRAINING_DATASET_CACHE_FILE_PATH DATASETS_PATH in
  let test_path := TEST_DATASET_CACHE_FILE_PATH DATASETS_PATH in
  files w !! info_path = Some (InfoCsv m4_info) ->
  files w !! training_path = Some (Pickle training) ->
  files w !! test_path = Some (Pickle test) ->
  init DATASETS_PATH url_file_name w =
  (Ok (mkM4Summary (table_dataset m4_info training) (table_dataset m4_info test)),
   logged (EvRead test_path)
     (logged (EvRead info_path)
        (logged (EvRead training_path) (logged (EvRead info_path) w)))).
Proof.
  intros info_path training_path test_path Hinfo Htraining Htest. unfold init.
  assert (Htr : load DATASETS_PATH url_file_name true w =
                (Ok (table_dataset m4_info training),
                 logged (EvRead training_path) (logged (EvRead info_path) w))).
  { apply load_Ok_iff. exists m4_info, training. auto. }
  assert (Hte : load DATASETS_PATH url_file_name false
                  (logged (EvRead training_path) (logged (EvRead info_path) w)) =
                (Ok (table_dataset m4_info test),
                 logged (EvRead test_path)
                   (logged (EvRead info_path)
                      (logged (EvRead training_path) (logged (EvRead info_path) w))))).
  { apply load_Ok_iff. exists m4_info, test. auto. }
  unfold mbind at 1, io_bind at 1. rewrite Htr.
  unfold mbind at 1, io_bind at 1. rewrite Hte. reflexivity.
Qed.

(** X1. [M4Summary()] on a reference table and two pickled caches returns
    the session that holds, in each partition, the four columns of the table
    and the content of that partition's cache. Whenever it returns, the
    reference table was readable as a table and both cache files were there,
    each partition of the session has the four columns of the table, no file
    and no directory has changed, and four reads are recorded: the table,
    the training cache, the table again, the test cache. *)
Theorem init_outcome (w : World F) :
  let info_path := INFO_FILE_PATH DATASETS_PATH url_file_name in
  let training_path := TRAINING_DATASET_CACHE_FILE_PATH DATASETS_PATH in
  let test_path := TEST_DATASET_CACHE_FILE_PATH DATASETS_PATH in
  let reads := [EvRead info_path; EvRead training_path; EvRead info_path; EvRead test_path] in
  (forall m4_info training test,
     files w !! info_path = Some (InfoCsv m4_info) ->
     files w !! training_path = Some (Pickle training) ->
     files w !! test_path = Some (Pickle test) ->
     init DATASETS_PATH url_file_name w =
     (Ok (mkM4Summary (table_dataset m4_info training) (table_dataset m4_info test)),
      mkWorld (files w) (dirs w) (log w ++ reads))) /\
  (forall self w',
     init DATASETS_PATH url_file_name w = (Ok self, w') ->
     exists m4_info,
       files w !! info_path = Some (InfoCsv m4_info) /\
       is_Some (files w !! training_path) /\ is_Some (files w !! test_path) /\
       Forall (fun d : M4Dataset F =>
                 ids d = map M4id m4_info /\ groups d = map SP m4_info /\
                 frequencies d = map Frequency m4_info /\
                 horizons d = map Horizon m4_info)
              [training_set self; test_set self] /\
       files w' = files w /\ dirs w' = dirs w /\ log w' = (log w ++ reads)%list).
Proof.
  intros info_path training_path test_path reads. split.
  - intros m4_info training test Hinfo Htraining Htest.
    rewrite (init_loads w m4_info training test Hinfo Htraining Htest).
    f_equal. unfold logged. cbn [files dirs log]. rewrite <- !app_assoc. reflexivity.
  - intros self w' Hinit. unfold init in Hinit.
    unfold mbind at 1, io_bind at 1 in Hinit.
    destruct (load DATASETS_PATH url_file_name true w) as [[tr|e] w1] eqn:Htr;
      [|discriminate].
    unfold mbind at 1, io_bind at 1 in Hinit.
    destruct (load DATASETS_PATH url_file_name false w1) as [[te|e] w2] eqn:Hte;
      [|discriminate].
    injection Hinit as <- <-.
    apply load_Ok_iff in Htr as (m4_info & training & Hinfo & Htraining & -> & ->).
    apply load_Ok_iff in Hte as (m4_info' & test & Hinfo' & Htest & -> & ->).
    cbn [files logged] in Hinfo', Htest.
    fold info_path in Hinfo, Hinfo'. rewrite Hinfo in Hinfo'. injection Hinfo' as <-.
    exists m4_info. split; [exact Hinfo|].
    split; [eexists; exact Htraining|]. split; [eexists; exact Htest|].
    split; [repeat constructor|].
    split; [reflexivity|]. split; [reflexivity|].
    cbn [log logged cache_file_path]. rewrite <- !app_assoc. reflexivity.
Qed.

End InitFacts.

(** ** The cache that [build_cache] fills *)

Lemma elem_of_fold_add_key (l seen : list string) (k : string) :
  k ∈ fold_left add_key l seen <-> k ∈ seen \/ k ∈ l.
Proof.
  revert seen. induction l as [|x l IH]; intros seen; simpl.
  - rewrite elem_of_nil. tauto.
  - rewrite IH, elem_of_cons. unfold add_key.
    destruct (decide (x ∈ seen)) as [Hin|Hnin].
    + split; [tauto|]. intros [?|[->|?]]; tauto.
    + rewrite elem_of_app, list_elem_of_singleton. tauto.
Qed.

Lemma NoDup_fold_add_key (l seen : list string) :
  NoDup seen -> NoDup (fold_left add_key l seen).
Proof.
  revert seen. induction l as [|x l IH]; intros seen Hseen; simpl; [exact Hseen|].
  apply IH. unfold add_key. destruct (decide (x ∈ seen)) as [Hin|Hnin]; [exact Hseen|].
  apply NoDup_app. split; [exact Hseen|]. split; [|apply NoDup_singleton].
  intros y Hy Hy'. apply list_elem_of_singleton in Hy' as ->. contradiction.
Qed.

Lemma fold_add_key_seen (l seen : list string) :
  (forall k, k ∈ l -> k ∈ seen) -> fold_left add_key l seen = seen.
Proof.
  revert seen. induction l as [|x l IH]; intros seen Hl; simpl; [reflexivity|].
  unfold add_key at 2. rewrite decide_True by (apply Hl, list_elem_of_here).
  apply IH. intros k Hk. apply Hl, list_elem_of_further, Hk.
Qed.

Lemma fold_add_key_fresh (l seen : list string) :
  NoDup (seen ++ l) -> fold_left add_key l seen = (seen ++ l)%list.
Proof.
  revert seen. induction l as [|x l IH]; intros seen Hnd; simpl.
  - symmetry. apply app_nil_r.
  - unfold add_key at 2. rewrite decide_False.
    + rewrite IH; rewrite <- app_assoc; [reflexivity|exact Hnd].
    + apply NoDup_app in Hnd as (_ & Hdisj & _). intros Hin.
      apply (Hdisj x Hin), list_elem_of_here.
Qed.

Lemma length_fold_add_key (l seen : list string) :
  (length seen <= length (fold_left add_key l seen))%nat.
Proof.
  revert seen. induction l as [|x l IH]; intros seen; simpl; [lia|].
  etransitivity; [|apply IH]. unfold add_key.
  destruct (decide (x ∈ seen)); [lia|]. rewrite length_app. simpl. lia.
Qed.

Section DictFolds.
Context {V X : Type}.
Variable key : X -> string.
Variable val : X -> V.

Lemma keys_setitem (d : list (string * V)) (k : string) (v : V) :
  keys (setitem d k v) = add_key (keys d) k.
Proof.
  unfold add_key, keys. induction d as [|[k' v'] d IH].
  - destruct (decide (k ∈ map fst (@nil (string * V)))) as [Hin|_]; [|reflexivity].
    apply elem_of_nil in Hin. contradiction.
  - cbn [setitem map fst].
    destruct (decide (k' = k)) as [->|Hne]; cbn [map fst].
    + destruct (decide (k ∈ k :: map fst d)) as [_|Hnin]; [reflexivity|].
      exfalso. apply Hnin, list_elem_of_here.
    + rewrite IH.
      destruct (decide (k ∈ map fst d)) as [Hin|Hnin];
        destruct (decide (k ∈ k' :: map fst d)) as [Hin'|Hnin']; try reflexivity.
      * exfalso. apply Hnin', list_elem_of_further, Hin.
      * apply elem_of_cons in Hin' as [->|Hin']; contradiction.
Qed.

Lemma keys_fold_setitem (l : list X) (d : list (string * V)) :
  keys (fold_left (fun d x => setitem d (key x) (val x)) l d) =
  fold_left add_key (map key l) (keys d).
Proof.
  revert d. induction l as [|x l IH]; intros d; simpl; [reflexivity|].
  rewrite IH, keys_setitem. reflexivity.
Qed.

Lemma getitem_setitem (d : list (string * V)) (k k' : string) (v : V) :
  getitem (setitem d k v) k' = if decide (k = k') then Ok v else getitem d k'.
Proof.
  destruct (decide (k = k')) as [->|Hne];
    [apply getitem_setitem_eq|apply getitem_setitem_ne, Hne].
Qed.

(** After a run of assignments, a key holds what was last assigned to it. *)
Lemma getitem_fold_setitem (l : list X) (d : list (string * V)) (k : string) :
  getitem (fold_left (fun d x => setitem d (key x) (val x)) l d) k =
  match last (List.filter (fun x => bool_decide (key x = k)) l) with
  | Some x => Ok (val x)
  | None => getitem d k
  end.
Proof.
  revert d. induction l as [|x l IH]; intros d; simpl; [reflexivity|].
  rewrite IH, getitem_setitem.
  destruct (decide (key x = k)) as [Heq|Hne].
  - rewrite bool_decide_true by exact Heq. rewrite last_cons.
    destruct (last (List.filter (fun x => bool_decide (key x = k)) l)); reflexivity.
  - rewrite bool_decide_false by exact Hne. reflexivity.
Qed.

Lemma dict_values_setitem_Forall (P : V -> Prop) (d : list (string * V)) (k : string)
    (v : V) :
  Forall P (dict_values d) -> P v -> Forall P (dict_values (setitem d k v)).
Proof.
  intros Hd Hv. induction d as [|[k' v'] d IH]; simpl.
  - repeat constructor. exact Hv.
  - unfold dict_values in Hd. simpl in Hd. apply Forall_cons in Hd as [Hv' Hd].
    destruct (decide (k' = k)); simpl; constructor; auto.
Qed.

Lemma dict_values_fold_setitem_Forall (P : V -> Prop) (l : list X) (d : list (string * V)) :
  Forall P (dict_values d) -> (forall x, x ∈ l -> P (val x)) ->
  Forall P (dict_values (fold_left (fun d x => setitem d (key x) (val x)) l d)).
Proof.
  revert d. induction l as [|x l IH]; intros d Hd Hl; simpl; [exact Hd|].
  apply IH.
  - apply dict_values_setitem_Forall; [exact Hd|]. apply Hl, list_elem_of_here.
  - intros y Hy. apply Hl, list_elem_of_further, Hy.
Qed.

(** The value under the [i]-th key stands at position [i]. *)
Lemma dict_values_lookup (d : list (string * V)) (i : nat) (k : string) :
  NoDup (keys d) -> keys d !! i = Some k ->
  exists v, getitem d k = Ok v /\ dict_values d !! i = Some v.
Proof.
  revert i. induction d as [|[k' v'] d IH]; intros i Hnd Hi; [discriminate|].
  unfold keys in Hnd. simpl in Hnd. apply NoDup_cons in Hnd as [Hnin Hnd].
  destruct i as [|i]; simpl in *.
  - injection Hi as ->. rewrite decide_True by reflexivity. eauto.
  - destruct (IH i Hnd Hi) as (v & Hv & Hpos).
    exists v. split; [|exact Hpos].
    rewrite decide_False; [exact Hv|].
    intros ->. apply Hnin. apply list_elem_of_lookup. eauto.
Qed.

End DictFolds.

Lemma last_map_snd {A B : Type} (l : list (A * B)) : last (map snd l) = snd <$> last l.
Proof.
  induction l as [|x l IH]; [reflexivity|].
  cbn [map]. rewrite !last_cons, IH. destruct (last l); reflexivity.
Qed.

Lemma length_first_occurrences (l : list string) :
  (length (first_occurrences l) <= length l)%nat /\
  (length (first_occurrences l) = length l -> NoDup l).
Proof.
  assert (Hnd : NoDup (first_occurrences l)) by apply NoDup_fold_add_key, NoDup_nil_2.
  assert (Hsub : first_occurrences l ⊆+ l).
  { apply NoDup_submseteq; [exact Hnd|]. intros x Hx.
    apply elem_of_fold_add_key in Hx as [Hx|Hx]; [|exact Hx].
    apply elem_of_nil in Hx. contradiction. }
  split; [apply submseteq_length, Hsub|].
  intros Hlen. apply (NoDup_Permutation_proper _ _
    (submseteq_length_Permutation _ _ Hsub ltac:(lia))). exact Hnd.
Qed.

Section CacheFacts.
Context {F : Type} `{NumPy F}.
Implicit Types (tables : list (list (string * list F))) (m4_ids : list string).

Lemma cache_rows_fold (d : list (string * list F)) (rows : list (string * list F)) :
  cache_rows d rows =
  fold_left (fun d r => setitem d (fst r) (strip_nan (snd r))) rows d.
Proof.
  unfold cache_rows. revert d. induction rows as [|[m4id row] rows IH]; intros d; simpl;
    [reflexivity|apply IH].
Qed.

Lemma fold_cache_rows_concat tables (d : list (string * list F)) :
  fold_left cache_rows tables d = cache_rows d (concat tables).
Proof.
  revert d. induction tables as [|t tables IH]; intros d; simpl; [reflexivity|].
  rewrite IH. unfold cache_rows. rewrite fold_left_app. reflexivity.
Qed.

Lemma cache_of_fold m4_ids tables :
  cache_of m4_ids tables =
  fold_left (fun d r => setitem d (fst r) (strip_nan (snd r))) (concat tables)
            (fold_left (fun d m4id => setitem d m4id []) m4_ids []).
Proof. unfold cache_of. rewrite fold_cache_rows_concat. apply cache_rows_fold. Qed.

Lemma keys_cache_of m4_ids tables :
  keys (cache_of m4_ids tables) = first_occurrences (m4_ids ++ map fst (concat tables)).
Proof.
  rewrite cache_of_fold, (keys_fold_setitem fst (fun r => strip_nan (snd r))).
  rewrite (keys_fold_setitem (fun m4id : string => m4id) (fun _ => @nil F)).
  rewrite map_id. unfold first_occurrences. rewrite fold_left_app. reflexivity.
Qed.

Lemma getitem_cache_of m4_ids tables (m4id : string) :
  m4id ∈ m4_ids ->
  getitem (cache_of m4_ids tables) m4id =
  Ok (match last_row m4id tables with
      | Some row => strip_nan row
      | None => []
      end).
Proof.
  intros Hin. rewrite cache_of_fold.
  rewrite (getitem_fold_setitem fst (fun r => strip_nan (snd r))).
  unfold last_row. rewrite last_map_snd.
  destruct (last (List.filter (fun r => bool_decide (fst r = m4id)) (concat tables)))
    as [r|]; [reflexivity|]. simpl.
  rewrite (getitem_fold_setitem (fun m4id : string => m4id) (fun _ => @nil F)).
  destruct (last (List.filter (fun x => bool_decide (x = m4id)) m4_ids)) as [x|] eqn:Hlast;
    [reflexivity|].
  exfalso. apply last_None in Hlast.
  assert (Hf : In m4id (List.filter (fun x => bool_decide (x = m4id)) m4_ids)).
  { apply filter_In. split; [apply list_elem_of_In, Hin|]. apply bool_decide_true. reflexivity. }
  rewrite Hlast in Hf. exact Hf.
Qed.

Lemma cache_of_clean m4_ids tables :
  Forall (Forall (fun x => isnan x = false)) (dict_values (cache_of m4_ids tables)).
Proof.
  rewrite cache_of_fold.
  apply dict_values_fold_setitem_Forall.
  - apply (dict_values_fold_setitem_Forall (fun m4id : string => m4id) (fun _ => @nil F));
      [constructor|]. intros _ _. constructor.
  - intros r _. apply Forall_forall. intros x Hx.
    unfold strip_nan in Hx. apply list_elem_of_In, filter_In in Hx as [_ Hx].
    destruct (isnan x); [discriminate|reflexivity].
Qed.

(** X2. Whatever the csv tables hold, the cache has one sequence per
    distinct identifier, in the order in which the identifiers first occur in
    the reference table and then in the rows, and no sequence holds a NaN.
    So a row whose identifier is not in the table makes the cache longer than
    a table without repeated identifiers, and a repeated identifier in the
    table makes it shorter than the table: in both cases positions in the
    cache no longer match rows of the table. *)
Theorem cache_keys m4_ids tables :
  let cache := cache_of m4_ids tables in
  keys cache = first_occurrences (m4_ids ++ map fst (concat tables)) /\
  NoDup (keys cache) /\
  Forall (Forall (fun x => isnan x = false)) (dict_values cache) /\
  (NoDup m4_ids -> (exists r, r ∈ concat tables /\ (fst r ∉ m4_ids)) ->
   (length m4_ids < length (dict_values cache))%nat) /\
  (~ NoDup m4_ids -> (forall r, r ∈ concat tables -> fst r ∈ m4_ids) ->
   (length (dict_values cache) < length m4_ids)%nat).
Proof.
  intros cache.
  assert (Hkeys : keys cache = first_occurrences (m4_ids ++ map fst (concat tables)))
    by apply keys_cache_of.
  assert (Hnd : NoDup (keys cache))
    by (rewrite Hkeys; apply NoDup_fold_add_key, NoDup_nil_2).
  assert (Hlen : length (dict_values cache) = length (keys cache))
    by (unfold dict_values, keys; rewrite !length_map; reflexivity).
  split; [exact Hkeys|]. split; [exact Hnd|]. split; [|split].
  - apply cache_of_clean.
  - intros Hids (r & Hr & Hstray). rewrite Hlen.
    assert (Hsub : (fst r :: m4_ids) ⊆+ keys cache).
    { apply NoDup_submseteq; [apply NoDup_cons; auto|].
      intros x Hx. rewrite Hkeys. apply elem_of_fold_add_key. right.
      apply elem_of_app. apply elem_of_cons in Hx as [->|Hx]; [right|left; exact Hx].
      apply list_elem_of_In, in_map, list_elem_of_In, Hr. }
    apply submseteq_length in Hsub. simpl in Hsub. lia.
  - intros Hdup Hrows. rewrite Hlen, Hkeys.
    unfold first_occurrences. rewrite fold_left_app.
    rewrite fold_add_key_seen.
    + destruct (length_first_occurrences m4_ids) as [Hle Heq].
      unfold first_occurrences in Hle, Heq.
      destruct (decide (length (fold_left add_key m4_ids []) = length m4_ids)) as [He|Hne];
        [exfalso; apply Hdup, Heq, He|lia].
    + intros k Hk. apply elem_of_fold_add_key. right.
      apply list_elem_of_In, in_map_iff in Hk as (r & <- & Hr).
      apply Hrows, list_elem_of_In, Hr.
Qed.

(** X3. Where the reference table repeats no identifier and every row of
    the csv tables carries an identifier of the table, the cache is aligned
    with the table: its [i]-th sequence is that of the [i]-th identifier,
    namely the values, NaN removed, of the last row that carries the
    identifier, or the empty sequence if no row does. *)
Theorem cache_aligned m4_ids tables :
  NoDup m4_ids ->
  (forall r, r ∈ concat tables -> fst r ∈ m4_ids) ->
  let cache := cache_of m4_ids tables in
  keys cache = m4_ids /\
  length (dict_values cache) = length m4_ids /\
  forall i m4id,
    m4_ids !! i = Some m4id ->
    dict_values cache !! i =
    Some (match last_row m4id tables with
          | Some row => strip_nan row
          | None => []
          end).
Proof.
  intros Hnd Hrows cache.
  assert (Hkeys : keys cache = m4_ids).
  { subst cache. rewrite keys_cache_of. unfold first_occurrences.
    rewrite fold_left_app, (fold_add_key_fresh m4_ids []) by exact Hnd.
    apply fold_add_key_seen. intros k Hk.
    apply list_elem_of_In, in_map_iff in Hk as (r & <- & Hr).
    apply Hrows, list_elem_of_In, Hr. }
  split; [exact Hkeys|]. split.
  - transitivity (length (keys cache)); [|rewrite Hkeys; reflexivity].
    unfold dict_values, keys. rewrite !length_map. reflexivity.
  - intros i m4id Hi.
    destruct (dict_values_lookup cache i m4id) as (v & Hv & Hpos);
      [rewrite Hkeys; exact Hnd|rewrite Hkeys; exact Hi|].
    subst cache. rewrite getitem_cache_of in Hv by (eapply list_elem_of_lookup_2, Hi).
    injection Hv as <-. exact Hpos.
Qed.

End CacheFacts.

Lemma cache_aligned_staging :
  dict_values (cache_of Staging.m4_ids [Staging.table; Staging.revision]) !! 0%nat
  = Some [7; 9]%float.
Proof.
  assert (Hnd : NoDup Staging.m4_ids)
    by (apply (bool_decide_unpack _); vm_compute; exact I).
  assert (Hrows : forall r, r ∈ concat [Staging.table; Staging.revision] ->
                            fst r ∈ Staging.m4_ids)
    by (apply Forall_forall, (bool_decide_unpack _); vm_compute; exact I).
  destruct (cache_aligned Staging.m4_ids [Staging.table; Staging.revision] Hnd Hrows)
    as (_ & _ & Hrow).
  exact (Hrow 0%nat "Y1" eq_refl).
Defined.

(** ** [build_cache] *)

Section BuildCacheFacts.
Context {F : Type} `{NumPy F}.
Variable DATASETS_PATH : string.
Variable glob : string -> IO F (list string).

Local Abbreviation read_csv_into :=
  (fun (d : list (string * list F)) (train_csv : string) =>
     dataset ← open_read train_csv;
     rows ← lift (series_rows dataset);
     mret (cache_rows d rows)).

Lemma read_tables_cons (p : string) (paths : list string) (d : list (string * list F))
    (w : World F) :
  io_for_each read_csv_into (p :: paths) d w =
  match files w !! p with
  | Some f =>
      match series_rows f with
      | Ok rows => io_for_each read_csv_into paths (cache_rows d rows) (logged (EvRead p) w)
      | Raise e => (Raise e, logged (EvRead p) w)
      end
  | None => (Raise (FileNotFoundError p), logged (EvRead p) w)
  end.
Proof.
  cbn [io_for_each]. unfold mbind at 1, io_bind at 1. unfold mbind at 1, io_bind at 1.
  unfold open_read. destruct (files w !! p) as [f|]; [|reflexivity].
  destruct (series_rows f); reflexivity.
Qed.

(** The loop over the csv files: it reads and writes nothing else. *)
Lemma read_tables (paths : list string) (d : list (string * list F)) (w : World F) :
  let loop := io_for_each read_csv_into paths d w in
  files (snd loop) = files w /\ dirs (snd loop) = dirs w /\
  match fst loop with
  | Ok d' =>
      exists tables,
        Forall2 (fun p t => files w !! p = Some (SeriesCsv t)) paths tables /\
        d' = fold_left cache_rows tables d
  | Raise e => first_unreadable w paths e
  end.
Proof.
  revert d w. induction paths as [|p paths IH]; intros d w.
  - simpl. repeat split. exists []. split; [constructor|reflexivity].
  - cbv zeta. rewrite read_tables_cons.
    destruct (files w !! p) as [f|] eqn:Hp.
    + destruct (series_rows f) as [rows|e] eqn:Hrows.
      * assert (f = SeriesCsv rows) as -> by (destruct f; simpl in Hrows; congruence).
        specialize (IH (cache_rows d rows) (logged (EvRead p) w)).
        cbv zeta in IH. destruct IH as (Hfiles & Hdirs & Hres).
        split; [exact Hfiles|]. split; [exact Hdirs|].
        destruct (fst (io_for_each _ paths (cache_rows d rows) (logged (EvRead p) w)))
          as [d'|e].
        -- destruct Hres as (tables & Hall & ->). exists (rows :: tables).
           split; [constructor; assumption|reflexivity].
        -- destruct Hres as (i & q & Hq & Hwhy & Hbefore). exists (S i), q.
           split; [exact Hq|]. split; [exact Hwhy|].
           intros [|j] q' Hj Hq'; simpl in Hq'.
           ++ injection Hq' as <-. eauto.
           ++ apply (Hbefore j q'); [lia|exact Hq'].
      * cbn [fst snd files dirs logged]. repeat split.
        exists 0%nat, p. split; [reflexivity|]. split; [|intros j q Hj; lia]. right.
        exists f. split; [exact Hp|]. intros rows ->. discriminate.
    + cbn [fst snd files dirs logged]. repeat split.
      exists 0%nat, p. split; [reflexivity|]. split; [left; auto|intros j q Hj; lia].
Qed.

Lemma tables_unique (w : World F) (paths : list string)
    (t1 t2 : list (list (string * list F))) :
  Forall2 (fun p t => files w !! p = Some (SeriesCsv t)) paths t1 ->
  Forall2 (fun p t => files w !! p = Some (SeriesCsv t)) paths t2 -> t1 = t2.
Proof.
  intros H1. revert t2. induction H1 as [|p t ps ts Hp _ IH]; intros t2 H2.
  - inversion H2. reflexivity.
  - inversion H2 as [|p' t' ps' ts' Hp' H2']; subst.
    f_equal; [congruence|apply IH, H2'].
Qed.

Lemma build_cache_eq (m4_ids : list string) (pattern cache_path : string)
    (paths : list string) (w w1 : World F) :
  glob (path_join (DATASET_PATH DATASETS_PATH) pattern)
       (logged (EvLogInfo ("Caching " ++ pattern)) w) = (Ok paths, w1) ->
  build_cache DATASETS_PATH glob m4_ids pattern cache_path w =
  match io_for_each read_csv_into paths
                    (fold_left (fun d m4id => setitem d m4id []) m4_ids []) w1 with
  | (Ok d', w2) => dump (dict_values d') cache_path w2
  | (Raise e, w2) => (Raise e, w2)
  end.
Proof.
  intros Hglob. unfold build_cache.
  unfold mbind at 1, io_bind at 1, logging_info, emit.
  unfold mbind at 1, io_bind at 1. rewrite Hglob.
  unfold mbind at 1, io_bind at 1. reflexivity.
Qed.

(** What [build_cache] does once [glob] has listed the csv files. *)
Lemma build_cache_outcome (m4_ids : list string) (pattern cache_path : string)
    (paths : list string) (w w1 : World F) :
  glob (path_join (DATASET_PATH DATASETS_PATH) pattern)
       (logged (EvLogInfo ("Caching " ++ pattern)) w) = (Ok paths, w1) ->
  let built := build_cache DATASETS_PATH glob m4_ids pattern cache_path w in
  dirs (snd built) = dirs w1 /\
  match fst built with
  | Ok _ =>
      exists tables,
        Forall2 (fun p t => files w1 !! p = Some (SeriesCsv t)) paths tables /\
        files (snd built) =
          <[cache_path := Pickle (dict_values (cache_of m4_ids tables))]> (files w1)
  | Raise e => files (snd built) = files w1 /\ first_unreadable w1 paths e
  end.
Proof.
  intros Hglob built. subst built. rewrite (build_cache_eq _ _ _ _ _ _ Hglob).
  pose proof (read_tables paths (fold_left (fun d m4id => setitem d m4id []) m4_ids []) w1)
    as Hloop. cbv zeta in Hloop.
  destruct (io_for_each _ paths _ w1) as [[d'|e] w2]; cbn [fst snd] in Hloop.
  - destruct Hloop as (Hfiles & Hdirs & tables & Hall & ->).
    unfold dump. cbn [fst snd files dirs]. split; [exact Hdirs|].
    exists tables. split; [exact Hall|]. rewrite Hfiles. reflexivity.
  - destruct Hloop as (Hfiles & Hdirs & Hwhy). cbn [fst snd]. auto.
Qed.

(** X4. Once [glob] has listed the csv files, [build_cache] returns exactly
    when every file listed is there and is a table of series. It has then
    written one file, the cache, holding the sequences of [timeseries_dict]
    in order, and changed no other file and no directory. *)
Theorem build_cache_writes (m4_ids : list string) (pattern cache_path : string)
    (paths : list string) (w w1 : World F) :
  glob (path_join (DATASET_PATH DATASETS_PATH) pattern)
       (logged (EvLogInfo ("Caching " ++ pattern)) w) = (Ok paths, w1) ->
  let built := build_cache DATASETS_PATH glob m4_ids pattern cache_path w in
  (fst built = Ok tt <->
   exists tables, Forall2 (fun p t => files w1 !! p = Some (SeriesCsv t)) paths tables) /\
  (forall tables,
     Forall2 (fun p t => files w1 !! p = Some (SeriesCsv t)) paths tables ->
     files (snd built) =
       <[cache_path := Pickle (dict_values (cache_of m4_ids tables))]> (files w1) /\
     dirs (snd built) = dirs w1).
Proof.
  intros Hglob built.
  destruct (build_cache_outcome m4_ids pattern cache_path paths w w1 Hglob) as [Hdirs Hres].
  fold built in Hdirs, Hres.
  assert (Hfail : forall tables e,
            Forall2 (fun p t => files w1 !! p = Some (SeriesCsv t)) paths tables ->
            first_unreadable w1 paths e -> False).
  { intros tables e Hall (i & p & Hi & Hwhy & _).
    destruct (Forall2_lookup_l _ _ _ _ _ Hall Hi) as (t & _ & Ht).
    destruct Hwhy as [[Hnone _]|(f & Hf & Hnot)]; [congruence|].
    apply (Hnot t). congruence. }
  split; [split|].
  - intros Hok. rewrite Hok in Hres. destruct Hres as (tables & Hall & _). eauto.
  - intros (tables & Hall). destruct (fst built) as [[]|e]; [reflexivity|].
    exfalso. destruct Hres as (_ & Hwhy). eapply Hfail; eassumption.
  - intros tables Hall. split; [|exact Hdirs].
    destruct (fst built) as [u|e].
    + destruct Hres as (tables' & Hall' & Hfiles).
      rewrite (tables_unique _ _ _ _ Hall Hall'). exact Hfiles.
    + exfalso. destruct Hres as (_ & Hwhy). eapply Hfail; eassumption.
Qed.

(** X5. If [build_cache] fails once [glob] has listed the csv files, it is on
    the first file listed that is missing or is no table of series, with a
    FileNotFoundError of its path if it is missing; no cache is written:
    files and directories are what [glob] left. *)
Theorem build_cache_failure (m4_ids : list string) (pattern cache_path : string)
    (paths : list string) (w w1 w' : World F) (e : exn) :
  glob (path_join (DATASET_PATH DATASETS_PATH) pattern)
       (logged (EvLogInfo ("Caching " ++ pattern)) w) = (Ok paths, w1) ->
  build_cache DATASETS_PATH glob m4_ids pattern cache_path w = (Raise e, w') ->
  files w' = files w1 /\ dirs w' = dirs w1 /\ first_unreadable w1 paths e.
Proof.
  intros Hglob Hbuilt.
  destruct (build_cache_outcome m4_ids pattern cache_path paths w w1 Hglob) as [Hdirs Hres].
  rewrite Hbuilt in Hdirs, Hres. cbn [fst snd] in Hdirs, Hres. tauto.
Qed.

End BuildCacheFacts.

Lemma build_cache_writes_staging :
  let built :=
    build_cache Toy.root Toy.list_files Staging.m4_ids "*-train.csv"
                (TRAINING_DATASET_CACHE_FILE_PATH Toy.root) Staging.unpacked in
  fst built = Ok tt /\
  files (snd built) !! TRAINING_DATASET_CACHE_FILE_PATH Toy.root
  = Some (Pickle [[1; 2; 4]; [1; 2; 3; 4; 6; 8]]%float).
Proof.
  assert (Hglob : Toy.list_files (path_join (DATASET_PATH Toy.root) "*-train.csv")
                    (logged (EvLogInfo ("Caching " ++ "*-train.csv")) Staging.unpacked)
                  = (Ok [Staging.csv_path], Staging.listed Staging.unpacked))
    by (vm_compute; reflexivity).
  assert (Hall : Forall2 (fun p t => files (Staging.listed Staging.unpacked) !! p
                                     = Some (SeriesCsv t))
                         [Staging.csv_path] [Staging.table])
    by (repeat constructor).
  destruct (build_cache_writes Toy.root Toy.list_files Staging.m4_ids "*-train.csv"
              (TRAINING_DATASET_CACHE_FILE_PATH Toy.root) [Staging.csv_path]
              Staging.unpacked (Staging.listed Staging.unpacked) Hglob)
    as [Hiff Hfiles].
  split.
  - apply Hiff. exists [Staging.table]. exact Hall.
  - destruct (Hfiles [Staging.table] Hall) as [-> _]. rewrite lookup_insert_eq.
    vm_compute. reflexivity.
Defined.

Lemma build_cache_failure_staging :
  let built :=
    build_cache Toy.root Toy.list_files Staging.m4_ids "*-train.csv"
                (TRAINING_DATASET_CACHE_FILE_PATH Toy.root) Staging.damaged in
  files (snd built) = files (Staging.listed Staging.damaged) /\
  dirs (snd built) = dirs (Staging.listed Staging.damaged) /\
  first_unreadable (Staging.listed Staging.damaged) [Staging.csv_path] AttributeError.
Proof.
  apply (build_cache_failure Toy.root Toy.list_files Staging.m4_ids "*-train.csv"
           (TRAINING_DATASET_CACHE_FILE_PATH Toy.root) [Staging.csv_path]
           Staging.damaged (Staging.listed Staging.damaged)).
  - vm_compute. reflexivity.
  - vm_compute. reflexivity.
Defined.

(** ** [download], then [M4Summary()] *)

Lemma bind_Ok_inv {F A B : Type} (m : IO F A) (f : A -> IO F B) (w w' : World F) (b : B) :
  (m ≫= f) w = (Ok b, w') -> exists a w1, m w = (Ok a, w1) /\ f a w1 = (Ok b, w').
Proof.
  unfold mbind, io_bind. destruct (m w) as [[a|e] w1]; [eauto|discriminate].
Qed.

Lemma path_join_inj (a b c : string) : path_join a b = path_join a c -> b = c.
Proof.
  unfold path_join. induction a as [|x a IH]; simpl.
  - intros [= Heq]. exact Heq.
  - intros [= Heq]. apply IH, Heq.
Qed.

Section DownloadFacts.
Context {F : Type} `{NumPy F}.
Variable DATASETS_PATH : string.
Variable url_file_name : string -> string.
Variable http_download : string -> string -> IO F unit.
Variable extract_archive : string -> string -> IO F unit.
Variable glob : string -> IO F (list string).

Local Abbreviation info_path := (INFO_FILE_PATH DATASETS_PATH url_file_name).
Local Abbreviation training_path := (TRAINING_DATASET_CACHE_FILE_PATH DATASETS_PATH).
Local Abbreviation test_path := (TEST_DATASET_CACHE_FILE_PATH DATASETS_PATH).
Local Abbreviation corpus := (corpus_files DATASETS_PATH url_file_name).

Lemma kept {A : Type} (m : IO F A) (w w1 : World F) (r : result A) :
  keeps corpus m -> m w = (r, w1) ->
  files w1 !! info_path = files w !! info_path /\
  files w1 !! training_path = files w !! training_path /\
  files w1 !! test_path = files w !! test_path.
Proof.
  intros Hkeeps Hm. pose proof (Hkeeps w) as Hk. rewrite Hm in Hk. cbn [snd] in Hk.
  repeat split; apply Hk; unfold corpus_files; rewrite !elem_of_cons; auto.
Qed.

(** A cache that [build_cache] has written, and the files it has kept. *)
Lemma build_cache_Ok (m4_ids : list string) (pattern cache_path : string)
    (w w' : World F) :
  (forall pattern, keeps corpus (glob pattern)) ->
  build_cache DATASETS_PATH glob m4_ids pattern cache_path w = (Ok tt, w') ->
  exists tables,
    files w' !! cache_path = Some (Pickle (dict_values (cache_of m4_ids tables))) /\
    forall p, p ∈ corpus -> p <> cache_path -> files w' !! p = files w !! p.
Proof.
  intros Hglob Hbuilt.
  destruct (glob (path_join (DATASET_PATH DATASETS_PATH) pattern)
                 (logged (EvLogInfo ("Caching " ++ pattern)) w)) as [[paths|e] w1] eqn:Hg.
  - destruct (build_cache_outcome DATASETS_PATH glob m4_ids pattern cache_path paths w w1 Hg)
      as [_ Hres].
    rewrite Hbuilt in Hres. cbn [fst snd] in Hres.
    destruct Hres as (tables & _ & Hfiles). exists tables. rewrite Hfiles. split.
    + apply lookup_insert_eq.
    + intros p Hp Hne. rewrite lookup_insert_ne by congruence.
      pose proof (Hglob (path_join (DATASET_PATH DATASETS_PATH) pattern)
                        (logged (EvLogInfo ("Caching " ++ pattern)) w) p Hp) as Hk.
      rewrite Hg in Hk. exact Hk.
  - exfalso. revert Hbuilt. unfold build_cache.
    unfold mbind at 1, io_bind at 1, logging_info, emit.
    unfold mbind at 1, io_bind at 1. rewrite Hg. discriminate.
Qed.

(** X6. A [download] into a directory that did not exist, if it returns,
    leaves a corpus that [M4Summary()] loads, provided that what runs after
    the reference table has been fetched (the three archive downloads, the
    extractions into the dataset directory, the listings) leaves the table
    and the two caches alone and that the table's file name is not that of
    a cache. [load_m4_info] then returns the table that was fetched, and the
    session loaded holds its rows and the two caches as [build_cache] made
    them, so its sequences hold no NaN. *)
Theorem download_then_init (w w' : World F) :
  url_file_name INFO_URL <> "training.npz" ->
  url_file_name INFO_URL <> "test.npz" ->
  (forall url, url ∈ [TRAINING_DATASET_URL; TEST_DATASET_URL; NAIVE2_FORECAST_URL] ->
     keeps corpus
       (http_download url (path_join (DATASET_PATH DATASETS_PATH) (url_file_name url)))) ->
  (forall archive, keeps corpus (extract_archive archive (DATASET_PATH DATASETS_PATH))) ->
  (forall pattern, keeps corpus (glob pattern)) ->
  (DATASET_PATH DATASETS_PATH ∉ dirs w) ->
  download DATASETS_PATH url_file_name http_download extract_archive glob w = (Ok tt, w') ->
  exists m4_info training_tables test_tables w'',
    load_m4_info DATASETS_PATH url_file_name w' =
      (Ok (InfoCsv m4_info), logged (EvRead info_path) w') /\
    let self :=
      mkM4Summary
        (table_dataset m4_info
           (dict_values (cache_of (map M4id m4_info) training_tables)))
        (table_dataset m4_info
           (dict_values (cache_of (map M4id m4_info) test_tables))) in
    init DATASETS_PATH url_file_name w' = (Ok self, w'') /\
    Forall (Forall (fun x => isnan x = false)) (values (training_set self)) /\
    Forall (Forall (fun x => isnan x = false)) (values (test_set self)).
Proof.
  intros Hname1 Hname2 Hdl Hex Hglob Hdir Hrun.
  assert (Hne1 : info_path <> training_path)
    by (intros Heq; apply path_join_inj in Heq; contradiction).
  assert (Hne2 : info_path <> test_path)
    by (intros Heq; apply path_join_inj in Heq; contradiction).
  assert (Hne3 : training_path <> test_path)
    by (intros Heq; apply path_join_inj in Heq; discriminate).
  assert (Hin1 : info_path ∈ corpus) by (unfold corpus_files; rewrite !elem_of_cons; auto).
  assert (Hin2 : training_path ∈ corpus) by (unfold corpus_files; rewrite !elem_of_cons; auto).
  assert (Hin3 : test_path ∈ corpus) by (unfold corpus_files; rewrite !elem_of_cons; auto).
  pose proof (Hdl TRAINING_DATASET_URL ltac:(rewrite !elem_of_cons; auto)) as Hu1.
  pose proof (Hdl TEST_DATASET_URL ltac:(rewrite !elem_of_cons; auto)) as Hu2.
  pose proof (Hdl NAIVE2_FORECAST_URL ltac:(rewrite !elem_of_cons; auto)) as Hu3.
  unfold download in Hrun.
  apply bind_Ok_inv in Hrun as (present & w0 & Hisdir & Hrun).
  unfold isdir in Hisdir. rewrite bool_decide_false in Hisdir by exact Hdir.
  injection Hisdir as <- <-.
  apply bind_Ok_inv in Hrun as ([] & w1 & _ & Hrun).
  apply bind_Ok_inv in Hrun as (f & w2 & Hread & Hrun).
  apply bind_Ok_inv in Hrun as (m4_info & w3 & Hcols & Hrun).
  unfold open_read in Hread.
  destruct (files w1 !! info_path) as [f'|] eqn:Hinfo; [|discriminate].
  injection Hread as -> <-.
  unfold lift in Hcols. injection Hcols as Hcols <-.
  destruct f as [rows| | |]; try discriminate. injection Hcols as ->.
  assert (Hinfo2 : files (logged (EvRead info_path) w1) !! info_path = Some (InfoCsv m4_info))
    by exact Hinfo.
  clear Hinfo. revert Hinfo2 Hrun. generalize (logged (EvRead info_path) w1).
  intros w2 Hinfo Hrun.
  apply bind_Ok_inv in Hrun as ([] & w3 & Hstep & Hrun).
  apply (kept _ _ _ _ Hu1) in Hstep as (Hi & _ & _).
  rewrite <- Hi in Hinfo. clear Hi w2.
  apply bind_Ok_inv in Hrun as ([] & w4 & Hstep & Hrun).
  apply (kept _ _ _ _ (Hex _)) in Hstep as (Hi & _ & _).
  rewrite <- Hi in Hinfo. clear Hi w3.
  apply bind_Ok_inv in Hrun as ([] & w5 & Hstep & Hrun).
  apply (build_cache_Ok _ _ _ _ _ Hglob) in Hstep as (training_tables & Htr & Hkept).
  rewrite <- (Hkept _ Hin1 Hne1) in Hinfo. clear Hkept w4.
  apply bind_Ok_inv in Hrun as ([] & w6 & Hstep & Hrun).
  apply (kept _ _ _ _ Hu2) in Hstep as (Hi & Ht & _).
  rewrite <- Hi in Hinfo. rewrite <- Ht in Htr. clear Hi Ht w5.
  apply bind_Ok_inv in Hrun as ([] & w7 & Hstep & Hrun).
  apply (kept _ _ _ _ (Hex _)) in Hstep as (Hi & Ht & _).
  rewrite <- Hi in Hinfo. rewrite <- Ht in Htr. clear Hi Ht w6.
  apply bind_Ok_inv in Hrun as ([] & w8 & Hstep & Hrun).
  apply (build_cache_Ok _ _ _ _ _ Hglob) in Hstep as (test_tables & Hte & Hkept).
  rewrite <- (Hkept _ Hin1 Hne2) in Hinfo.
  rewrite <- (Hkept _ Hin2 Hne3) in Htr. clear Hkept w7.
  apply bind_Ok_inv in Hrun as ([] & w9 & Hstep & Hrun).
  apply (kept _ _ _ _ Hu3) in Hstep as (Hi & Ht & Hs).
  rewrite <- Hi in Hinfo. rewrite <- Ht in Htr. rewrite <- Hs in Hte. clear Hi Ht Hs w8.
  apply (kept _ _ _ _ (Hex _)) in Hrun as (Hi & Ht & Hs).
  rewrite <- Hi in Hinfo. rewrite <- Ht in Htr. rewrite <- Hs in Hte. clear Hi Ht Hs w9.
  exists m4_info, training_tables, test_tables.
  eexists. split; [unfold load_m4_info, open_read; rewrite Hinfo; reflexivity|].
  cbv zeta. split; [|split].
  - apply init_loads; assumption.
  - apply cache_of_clean.
  - apply cache_of_clean.
Qed.

End DownloadFacts.

(** The mirror of the worked example keeps the corpus files. *)
Lemma mirror_download_keeps (url : string) :
  url ∈ [TRAINING_DATASET_URL; TEST_DATASET_URL; NAIVE2_FORECAST_URL] ->
  keeps (corpus_files Toy.root Toy.url_file_name)
        (Toy.mirror_download url (path_join (DATASET_PATH Toy.root) (Toy.url_file_name url))).
Proof.
  intros Hurl w p Hp. unfold corpus_files in Hp. rewrite !elem_of_cons in Hurl, Hp.
  cbn [Toy.mirror_download snd files].
  apply lookup_insert_ne. intros Heq.
  destruct Hurl as [->|[->|[->|Hurl]]]; [| | |inversion Hurl];
    (destruct Hp as [->|[->|[->|Hp]]]; [| | |inversion Hp]);
    vm_compute in Heq; discriminate Heq.
Qed.

Lemma unpack_keeps (archive : string) :
  keeps (corpus_files Toy.root Toy.url_file_name)
        (Toy.unpack archive (DATASET_PATH Toy.root)).
Proof.
  intros w p Hp. unfold corpus_files in Hp. rewrite !elem_of_cons in Hp.
  cbn [Toy.unpack snd files].
  repeat destruct (decide _); try reflexivity;
    apply lookup_insert_ne; intros Heq;
    (destruct Hp as [->|[->|[->|Hp]]]; [| | |inversion Hp]);
    vm_compute in Heq; discriminate Heq.
Qed.

Lemma list_files_keeps (pattern : string) :
  keeps (corpus_files Toy.root Toy.url_file_name) (Toy.list_files pattern).
Proof. intros w p _. reflexivity. Qed.

Lemma download_then_init_toy :
  let w' :=
    snd (download Toy.root Toy.url_file_name Toy.mirror_download Toy.unpack
                  Toy.list_files Toy.fresh_world) in
  exists m4_info training_tables test_tables w'',
    load_m4_info Toy.root Toy.url_file_name w' =
      (Ok (InfoCsv m4_info), logged (EvRead (INFO_FILE_PATH Toy.root Toy.url_file_name)) w') /\
    let self :=
      mkM4Summary
        (table_dataset m4_info
           (dict_values (cache_of (map M4id m4_info) training_tables)))
        (table_dataset m4_info
           (dict_values (cache_of (map M4id m4_info) test_tables))) in
    init Toy.root Toy.url_file_name w' = (Ok self, w'') /\
    Forall (Forall (fun x => isnan x = false)) (values (training_set self)) /\
    Forall (Forall (fun x => isnan x = false)) (values (test_set self)).
Proof.
  apply (download_then_init Toy.root Toy.url_file_name Toy.mirror_download Toy.unpack
           Toy.list_files Toy.fresh_world).
  - vm_compute. discriminate.
  - vm_compute. discriminate.
  - exact mirror_download_keeps.
  - exact unpack_keeps.
  - exact list_files_keeps.
  - vm_compute. set_solver.
  - vm_compute. reflexivity.
Defined.

(** ** [summarize_groups] on any score map and any test set *)

Lemma length_with_strays (l : list string) :
  Z.of_nat (length l) =
  population l "Yearly" + population l "Quarterly" + population l "Monthly" +
  population l "Weekly" + population l "Daily" + population l "Hourly" + strays l.
Proof.
  induction l as [|x l IH]; [reflexivity|].
  rewrite !population_cons. simpl length. rewrite Nat2Z.inj_succ, IH. unfold strays.
  destruct (decide (x ∈ categories)) as [Hx|Hx].
  - rewrite filter_cons_False by (intros Hn; exact (Hn Hx)).
    apply elem_of_categories in Hx.
    destruct Hx as [->|[->|[->|[->|[->| ->]]]]];
      repeat (case_bool_decide; try discriminate; try congruence); lia.
  - rewrite filter_cons_True by exact Hx. rewrite length_cons, Nat2Z.inj_succ.
    rewrite elem_of_categories in Hx.
    repeat (case_bool_decide; [exfalso; apply Hx; auto 7|]). lia.
Qed.

Lemma population_Permutation (l l' : list string) (g : string) :
  l ≡ₚ l' -> population l g = population l' g.
Proof. intros Hp. unfold population. rewrite Hp. reflexivity. Qed.

Section SummarizeMore.
Context {F : Type} `{NumPy F}.

Local Ltac raised :=
  unfold summarize_groups, major_groups, minor_groups, for_each, major_step, minor_step;
  repeat match goal with
         | Hx : ?s !! ?k = Some ?v |- _ => rewrite (lookup_key_Some _ _ _ Hx)
         end;
  match goal with
  | Hx : ?s !! ?k = None |- _ => rewrite (lookup_key_None _ _ Hx)
  end;
  reflexivity.

(** X7. [summarize_groups] fails exactly when the score map misses one of the
    six categories, with the KeyError of the first one missing in the order
    Yearly, Quarterly, Monthly, Weekly, Daily, Hourly, whatever the test set
    holds; otherwise it returns a summary whose keys are Yearly, Quarterly,
    Monthly, Others, Average, in this order. *)
Theorem summarize_groups_first_missing (self : M4Summary F) (scores : gmap string F) :
  match first_missing scores categories with
  | Some k => summarize_groups self scores = Raise (KeyError k)
  | None => exists summary,
              summarize_groups self scores = Ok summary /\ keys summary = buckets
  end.
Proof.
  unfold first_missing, categories, major_groups, minor_groups. cbn [app List.find].
  destruct (scores !! "Yearly") as [sY|] eqn:HY; cbv beta iota; [|raised].
  destruct (scores !! "Quarterly") as [sQ|] eqn:HQ; cbv beta iota; [|raised].
  destruct (scores !! "Monthly") as [sM|] eqn:HM; cbv beta iota; [|raised].
  destruct (scores !! "Weekly") as [sW|] eqn:HW; cbv beta iota; [|raised].
  destruct (scores !! "Daily") as [sD|] eqn:HD; cbv beta iota; [|raised].
  destruct (scores !! "Hourly") as [sH|] eqn:HH; cbv beta iota; [|raised].
  eexists. split; [apply summarize_groups_eq; eassumption|]. reflexivity.
Qed.

(** X8. [summarize_groups] reads the score map at the six categories only,
    and the test set through the number of its series per category and in
    all: two score maps that agree on the six categories, over two test sets
    whose labels are the same up to order, give the same outcome. *)
Theorem summarize_groups_ext (self self' : M4Summary F) (scores scores' : gmap string F) :
  (forall g, g ∈ categories -> scores !! g = scores' !! g) ->
  groups (test_set self) ≡ₚ groups (test_set self') ->
  summarize_groups self scores = summarize_groups self' scores'.
Proof.
  intros Hagree Hperm.
  assert (Hcount : forall g, group_count self g = group_count self' g)
    by (intros g; rewrite !group_count_population; apply population_Permutation, Hperm).
  assert (Hlen : length (groups (test_set self)) = length (groups (test_set self')))
    by (apply Permutation_length, Hperm).
  unfold summarize_groups, major_groups, minor_groups, for_each, major_step, minor_step,
    lookup_key.
  rewrite <- !Hagree by (apply elem_of_categories; auto 7).
  rewrite !Hcount, Hlen. reflexivity.
Qed.

(** X9. On a score map that holds the six labels, whatever the labels of the
    test set, the divisor of Average is the number of series of the six
    categories plus the number of series of any other category: a series
    whose label is none of the six adds nothing to the sum and one to the
    divisor. *)
Theorem summarize_groups_average_strays (self : M4Summary F) (scores : gmap string F)
    (sY sQ sM sW sD sH : F) :
  scores !! "Yearly" = Some sY -> scores !! "Quarterly" = Some sQ ->
  scores !! "Monthly" = Some sM -> scores !! "Weekly" = Some sW ->
  scores !! "Daily" = Some sD -> scores !! "Hourly" = Some sH ->
  let count := series_count self in
  exists summary,
    summarize_groups self scores = Ok summary /\
    getitem summary "Average" =
      Ok (div (np_sum [mul sY (of_int (count "Yearly"));
                       mul sQ (of_int (count "Quarterly"));
                       mul sM (of_int (count "Monthly"));
                       weighted_sum [(sW, count "Weekly"); (sD, count "Daily");
                                     (sH, count "Hourly")]])
              (of_int (count "Yearly" + count "Quarterly" + count "Monthly" +
                       count "Weekly" + count "Daily" + count "Hourly" +
                       strays (groups (test_set self))))).
Proof.
  intros HY HQ HM HW HD HH count.
  eexists. split; [apply summarize_groups_eq; eassumption|].
  subst count. unfold series_count. rewrite <- length_with_strays.
  apply getitem_buckets.
Qed.

End SummarizeMore.

Lemma summarize_groups_ext_sec8 :
  summarize_groups Variations.session_reversed Variations.scores_with_stray =
  summarize_groups Sec8.session Sec8.scores.
Proof.
  apply (summarize_groups_ext Variations.session_reversed Sec8.session
           Variations.scores_with_stray Sec8.scores).
  - intros g Hg. apply elem_of_categories in Hg.
    destruct Hg as [->|[->|[->|[->|[->| ->]]]]]; reflexivity.
  - apply reverse_Permutation.
Defined.

Lemma summarize_groups_average_strays_sec8 :
  strays Variations.labels_with_stray = 1 /\
  exists summary,
    summarize_groups Variations.session_with_stray Sec8.scores = Ok summary /\
    getitem summary "Average" = Ok (38 / 14)%float.
Proof.
  split; [reflexivity|].
  destruct (summarize_groups_average_strays Variations.session_with_stray Sec8.scores
              1 2 3 4 5 6)%float
    as (summary & Hs & HA); try reflexivity.
  exists summary. split; [exact Hs|]. rewrite HA. vm_compute. reflexivity.
Defined.

(** ** [evaluate]: what it needs, and what it does not read *)

Lemma summarize_groups_same_test_set {F : Type} `{NumPy F} (self self' : M4Summary F)
    (scores : gmap string F) :
  groups (test_set self') = groups (test_set self) ->
  summarize_groups self' scores = summarize_groups self scores.
Proof.
  intros Heq. unfold summarize_groups, major_step, minor_step, group_count.
  rewrite Heq. reflexivity.
Qed.

Lemma round_all_app {F : Type} `{NumPy F} (d acc : list (string * F)) :
  NoDup (keys acc ++ keys d) ->
  fold_left (fun acc kv => setitem acc (fst kv) (round3 (snd kv))) d acc =
  (acc ++ map (fun kv => (fst kv, round3 (snd kv))) d)%list.
Proof.
  revert acc. induction d as [|[k v] d IH]; intros acc Hnd.
  - simpl. rewrite app_nil_r. reflexivity.
  - cbn [fold_left map fst snd]. unfold keys in Hnd. cbn [map fst] in Hnd.
    assert (Hk : k ∉ keys acc).
    { apply NoDup_app in Hnd as (_ & Hdisj & _). intros Hin.
      apply (Hdisj k Hin). left. }
    rewrite (setitem_fresh _ _ _ Hk). rewrite IH.
    + rewrite <- app_assoc. reflexivity.
    + unfold keys. rewrite map_app. cbn [map fst]. rewrite <- app_assoc. exact Hnd.
Qed.

Section EvaluateMore.
Context {F : Type} `{NumPy F}.
Variable DATASETS_PATH : string.
Variable url_file_name : string -> string.
Variable smape_2 : list (list F) -> list (list F) -> list (list F).
Variable mase : list F -> list F -> list F -> Z -> F.

Local Abbreviation naive2_path := (NAIVE2_PATH DATASETS_PATH).

(** X10. Where forecasts and targets are paired with the labels of the test
    set and every category has a series, but the naive2 table is not on
    disk, [evaluate] gets as far as reading it and fails with the
    FileNotFoundError of its path; the read is the one thing recorded. *)
Theorem evaluate_without_naive2 (self : M4Summary F) (forecast : list (list F))
    (w : World F) :
  length forecast = length (groups (test_set self)) ->
  length (values (test_set self)) = length (groups (test_set self)) ->
  (forall g, g ∈ categories -> g ∈ groups (test_set self)) ->
  files w !! naive2_path = None ->
  evaluate DATASETS_PATH smape_2 mase self forecast w =
  (Raise (FileNotFoundError naive2_path), logged (EvRead naive2_path) w).
Proof.
  intros _ _ Hcat Hfile.
  destruct (summarize_groups_succeeds self
              (smape_scores smape_2 self (map strip_nan forecast))) as [gs Hgs].
  { intros g Hg. rewrite smape_scores_lookup.
    rewrite decide_True by (apply Hcat, Hg). eauto. }
  unfold evaluate. rewrite Hgs, bind_lift_Ok.
  unfold mbind at 1, io_bind at 1, open_read. rewrite Hfile. reflexivity.
Qed.

(** X11. The first map that [evaluate] returns, the smape report, depends on
    the forecast and on the test set only: a run over another training set,
    in another world, with another naive2 table, returns the same one if it
    returns. *)
Theorem evaluate_smapes_independent (self : M4Summary F) (training' : M4Dataset F)
    (forecast : list (list F)) (w w' w2 w2' : World F)
    (smapes owas smapes' owas' : list (string * F)) :
  evaluate DATASETS_PATH smape_2 mase self forecast w = (Ok (smapes, owas), w') ->
  evaluate DATASETS_PATH smape_2 mase (mkM4Summary training' (test_set self)) forecast w2
    = (Ok (smapes', owas'), w2') ->
  smapes' = smapes.
Proof.
  intros Hev Hev'.
  apply evaluate_Ok_inv in Hev
    as (rows & mm & ns & nm & gs & gmm & gns & gnm & gowa
        & _ & Hgs & _ & _ & _ & _ & _ & -> & _ & _).
  apply evaluate_Ok_inv in Hev'
    as (rows' & mm' & ns' & nm' & gs' & gmm' & gns' & gnm' & gowa'
        & _ & Hgs' & _ & _ & _ & _ & _ & -> & _ & _).
  rewrite (summarize_groups_same_test_set self) in Hgs' by reflexivity.
  change (smape_scores smape_2 (mkM4Summary training' (test_set self)))
    with (smape_scores smape_2 self) in Hgs'.
  rewrite Hgs in Hgs'. injection Hgs' as <-. reflexivity.
Qed.

(** X12. [evaluate] reads the labels and the values of the test set and the
    frequencies and the values of the training set, nothing else of a
    session: identifiers, horizons and the labels of the training set have no
    effect. So forecasts, targets, histories and naive2 rows are paired by
    position, never by identifier. *)
Theorem evaluate_reads_four_columns (self self' : M4Summary F)
    (forecast : list (list F)) (w : World F) :
  groups (test_set self') = groups (test_set self) ->
  values (test_set self') = values (test_set self) ->
  frequencies (training_set self') = frequencies (training_set self) ->
  values (training_set self') = values (training_set self) ->
  evaluate DATASETS_PATH smape_2 mase self' forecast w =
  evaluate DATASETS_PATH smape_2 mase self forecast w.
Proof.
  destruct self as [[i1 g1 f1 h1 v1] [i2 g2 f2 h2 v2]].
  destruct self' as [[i1' g1' f1' h1' v1'] [i2' g2' f2' h2' v2']].
  cbn [test_set training_set groups values frequencies].
  intros -> -> -> ->. reflexivity.
Qed.

(** X13. [M4Summary()] followed by [evaluate], in a world that holds the
    reference table, the two caches and the naive2 table, all with as many
    rows as the forecast and with a series of every category: the run
    returns, changes no file and no directory, and records five reads, the
    reference table twice and the naive2 table last. *)
Theorem init_then_evaluate (w : World F) (m4_info : list InfoRow)
    (training test : list (list F)) (rows : list (string * list F))
    (forecast : list (list F)) :
  let info_path := INFO_FILE_PATH DATASETS_PATH url_file_name in
  let training_path := TRAINING_DATASET_CACHE_FILE_PATH DATASETS_PATH in
  let test_path := TEST_DATASET_CACHE_FILE_PATH DATASETS_PATH in
  files w !! info_path = Some (InfoCsv m4_info) ->
  files w !! training_path = Some (Pickle training) ->
  files w !! test_path = Some (Pickle test) ->
  files w !! naive2_path = Some (SeriesCsv rows) ->
  length forecast = length m4_info -> length rows = length m4_info ->
  length training = length m4_info -> length test = length m4_info ->
  (forall g, g ∈ categories -> g ∈ map SP m4_info) ->
  exists smapes owas w',
    (self ← init DATASETS_PATH url_file_name;
     evaluate DATASETS_PATH smape_2 mase self forecast) w = (Ok (smapes, owas), w') /\
    files w' = files w /\ dirs w' = dirs w /\
    log w' = (log w ++ [EvRead info_path; EvRead training_path; EvRead info_path;
                        EvRead test_path; EvRead naive2_path])%list.
Proof.
  intros info_path training_path test_path Hinfo Htraining Htest Hnaive2
    Hforecast Hrows Htr Hte Hcat.
  pose proof (init_loads DATASETS_PATH url_file_name w m4_info training test
                Hinfo Htraining Htest) as Hinit.
  cbv zeta in Hinit. fold info_path training_path test_path in Hinit.
  set (self := mkM4Summary (table_dataset m4_info training) (table_dataset m4_info test))
    in Hinit.
  set (w1 := logged (EvRead test_path) _) in Hinit.
  destruct (evaluate_succeeds DATASETS_PATH smape_2 mase self forecast rows w1)
    as (smapes & owas & Hev).
  { unfold aligned, self. cbn [test_set training_set groups values frequencies table_dataset].
    rewrite !length_map. auto 8. }
  { exact Hnaive2. }
  exists smapes, owas, (logged (EvRead naive2_path) w1).
  split; [|split; [reflexivity|split; [reflexivity|]]].
  - unfold mbind at 1, io_bind at 1. rewrite Hinit. exact Hev.
  - subst w1. cbn [log logged]. rewrite <- !app_assoc. reflexivity.
Qed.

(** X14. [round_all] on a map whose keys are distinct, as those of a dict
    are: the keys stay, in their order, and every value is rounded to three
    decimals. *)
Theorem round_all_map (d : list (string * F)) :
  NoDup (keys d) ->
  round_all d = map (fun kv => (fst kv, round3 (snd kv))) d.
Proof.
  intros Hnd. unfold round_all. rewrite round_all_app; [reflexivity|exact Hnd].
Qed.

End EvaluateMore.

Lemma evaluate_without_naive2_toy :
  evaluate Toy.root Toy.smape_2 Toy.mase Toy.session Toy.forecast
           Variations.world_without_naive2 =
  (Raise (FileNotFoundError (NAIVE2_PATH Toy.root)),
   logged (EvRead (NAIVE2_PATH Toy.root)) Variations.world_without_naive2).
Proof.
  apply (evaluate_without_naive2 Toy.root Toy.smape_2 Toy.mase Toy.session Toy.forecast
           Variations.world_without_naive2); try reflexivity.
  apply toy_aligned.
Defined.

Lemma retrained_run :
  exists smapes owas,
    evaluate Toy.root Toy.smape_2 Toy.mase Variations.session_retrained Toy.forecast
             Variations.world_rebased =
    (Ok (smapes, owas), logged (EvRead (NAIVE2_PATH Toy.root)) Variations.world_rebased) /\
    owas <> Toy.expected_owas.
Proof.
  do 2 eexists. split; [vm_compute; reflexivity|].
  intros Heq. vm_compute in Heq. discriminate Heq.
Qed.

Lemma evaluate_smapes_independent_toy :
  exists smapes owas,
    evaluate Toy.root Toy.smape_2 Toy.mase Variations.session_retrained Toy.forecast
             Variations.world_rebased =
    (Ok (smapes, owas), logged (EvRead (NAIVE2_PATH Toy.root)) Variations.world_rebased) /\
    smapes = Toy.expected_smapes /\ owas <> Toy.expected_owas.
Proof.
  destruct retrained_run as (smapes & owas & Hrun & Hne).
  exists smapes, owas. split; [exact Hrun|]. split; [|exact Hne].
  exact (evaluate_smapes_independent Toy.root Toy.smape_2 Toy.mase Toy.session
           (training_set Variations.session_retrained) Toy.forecast
           _ _ _ _ _ _ _ _ toy_run Hrun).
Defined.

Lemma evaluate_ignores_other_frequencies_toy :
  evaluate Toy.root Toy.smape_2 Toy.mase Variations.session_redeclared Toy.forecast Toy.world =
  evaluate Toy.root Toy.smape_2 Toy.mase Toy.session Toy.forecast Toy.world.
Proof.
  apply (evaluate_ignores_other_frequencies Toy.root Toy.smape_2 Toy.mase Toy.session
           Variations.frequencies_redeclared Toy.forecast Toy.world).
  - reflexivity.
  - apply Forall_forall. apply (bool_decide_unpack _). vm_compute. exact I.
Defined.

Lemma evaluate_reads_four_columns_toy :
  evaluate Toy.root Toy.smape_2 Toy.mase Variations.session_renamed Toy.forecast Toy.world =
  (Ok (Toy.expected_smapes, Toy.expected_owas),
   logged (EvRead (NAIVE2_PATH Toy.root)) Toy.world).
Proof.
  rewrite <- toy_run.
  apply (evaluate_reads_four_columns Toy.root Toy.smape_2 Toy.mase Toy.session
           Variations.session_renamed); reflexivity.
Defined.

Lemma init_then_evaluate_toy :
  exists w',
    (self ← init Toy.root Toy.url_file_name;
     evaluate Toy.root Toy.smape_2 Toy.mase self Toy.forecast) Toy.world
    = (Ok (Toy.expected_smapes, Toy.expected_owas), w') /\
    log w' = [EvRead (INFO_FILE_PATH Toy.root Toy.url_file_name);
              EvRead (TRAINING_DATASET_CACHE_FILE_PATH Toy.root);
              EvRead (INFO_FILE_PATH Toy.root Toy.url_file_name);
              EvRead (TEST_DATASET_CACHE_FILE_PATH Toy.root);
              EvRead (NAIVE2_PATH Toy.root)].
Proof.
  destruct (init_then_evaluate Toy.root Toy.url_file_name Toy.smape_2 Toy.mase Toy.world
              Toy.info Toy.training_values Toy.test_values Toy.naive2_table Toy.forecast)
    as (smapes & owas & w' & Hrun & _ & _ & Hlog); try reflexivity.
  { apply toy_aligned. }
  exists w'. split; [|exact Hlog].
  rewrite Hrun. vm_compute in Hrun. injection Hrun as <- <- _. reflexivity.
Defined.

Lemma round_all_map_toy :
  round_all [("Yearly", 13.17649); ("Others", 4.0457)]%float =
  [("Yearly", 13.176); ("Others", 4.046)]%float.
Proof.
  rewrite (round_all_map [("Yearly", 13.17649); ("Others", 4.0457)]%float).
  - reflexivity.
  - apply (bool_decide_unpack _). vm_compute. exact I.
Defined.
